(** * blockchain-vscode-extension: the submit/evaluate command and the
      functional-test template

    A shallow embedding of

    - [src/extension/commands/submitTransaction.ts], the command that
      collects a transaction target, its arguments, its transient data and
      a peer-targeting policy from the user and delegates to
      [IFabricClientConnection.submitTransaction];
    - the parameter block of the EJS template that generates the functional
      test file of a smart contract (lines 75 to 102 of the template).

    The command is written in a small monad that threads the state of the
    connection manager, records every call to an external collaborator in a
    trace, and has the three completions of a JavaScript block: normal,
    [return], and a thrown error. *)

From Stdlib Require Import Ascii String Floats.SpecFloat.
From stdpp Require Import gmap strings list fin_maps pretty.

Set Warnings "-register-all".
Local Open Scope string_scope.
Local Open Scope list_scope.

(** ** JavaScript values *)

(** The values [JSON.parse] can return, and [Buffer]s, which the command
    stores in the parsed transient-data object.  Numbers are IEEE doubles. *)
Inductive JsValue : Type :=
| JsNull
| JsBool (b : bool)
| JsNumber (x : spec_float)
| JsString (s : string)
| JsArray (l : list JsValue)
| JsObject (m : gmap string JsValue)
| JsBuffer (bytes : list Byte.byte).

(** A thrown [Error]: its [message] and, for the errors of the Fabric SDK,
    the optional list [endorsements] of rejected endorsements, which are
    errors themselves. *)
Inductive JsError : Type :=
| mkError (msg : string) (ends : option (list JsError)).

Definition message (error : JsError) : string :=
  match error with mkError msg _ => msg end.

Definition endorsements (error : JsError) : option (list JsError) :=
  match error with mkError _ ends => ends end.

Definition Error (msg : string) : JsError := mkError msg None.

(** The double-quote character and the one-character string that holds it. *)
Definition dquote_char : Ascii.ascii := "034"%char.
Definition dquote : string := String dquote_char EmptyString.

(** [s.startsWith(p)] and [s.endsWith(p)]. *)
Definition startsWith (s p : string) : bool := String.prefix p s.
Definition endsWith (s p : string) : bool :=
  String.prefix (String.rev p) (String.rev s).

(** JavaScript truthiness of a [string | undefined]. *)
Definition truthy (s : option string) : bool :=
  match s with
  | None => false
  | Some s => negb (String.eqb s EmptyString)
  end.

(** [x === s] for [x : string | undefined] and a string [s]. *)
Definition strict_eq (x : option string) (s : string) : bool :=
  match x with
  | None => false
  | Some x => String.eqb x s
  end.

(** [`${s}`] for a [string | undefined]. *)
Definition show (s : option string) : string := default "undefined" s.

(** The built-ins of the JavaScript runtime that the command calls.  They
    are not code of the extension; the command is verified for every
    runtime that satisfies the three laws below.

    - [JSON_parse s] is [JSON.parse(s)]: the parsed value, or the thrown
      [SyntaxError].
    - [Buffer_from v] is [Buffer.from(v)]: the bytes of the new buffer, or
      the thrown [TypeError].
    - [Object_keys m] is [Object.keys] of an object, in the runtime's
      property order.
    - [Array_toString l] is the string conversion of an array, as in
      [`${args}`].

    Laws: a JSON text whose first character is an opening bracket parses,
    if at all, to an array, one whose first character is an opening brace
    to an object (ECMA-404), and [Object.keys] lists every own key once. *)
Class JsRuntime : Type := {
  JSON_parse : string → JsError + JsValue;
  Buffer_from : JsValue → JsError + list Byte.byte;
  Object_keys : gmap string JsValue → list string;
  Array_toString : list JsValue → string;
  JSON_parse_array : ∀ s v,
    startsWith s "[" = true → JSON_parse s = inr v → ∃ l, v = JsArray l;
  JSON_parse_object : ∀ s v,
    startsWith s "{" = true → JSON_parse s = inr v → ∃ m, v = JsObject m;
  Object_keys_perm : ∀ m, Object_keys m ≡ₚ (map_to_list m).*1
}.

(** ** The collaborators of the command *)

Inductive LogType : Type := INFO | SUCCESS | ERROR.

Record ChannelTreeItem : Type := { label : string }.

(** The two kinds of tree item the command accepts. *)
Inductive TreeItem : Type :=
| TransactionTreeItem (chaincodeName name channelName contractName : string)
| InstantiatedTreeItem (name : string) (channels : list ChannelTreeItem).

Record IBlockchainQuickPickItem (T : Type) : Type :=
  { item_label : string; data : T }.
Arguments item_label {T} _.
Arguments data {T} _.

Record SmartContractData : Type :=
  { sc_name : string; sc_channel : string; sc_version : string }.

Record TransactionData : Type :=
  { tx_name : string; tx_contract : string }.

Record PeerInfo : Type := { peer_name : string; mspID : string }.

Record FabricGatewayRegistryEntry : Type := { entry_name : string }.

(** The SDK connection object.  [submitTransaction] takes its eight
    arguments in the order of the interface; both methods are network calls
    and may throw. *)
Module IFabricClientConnection.

Record Request : Type := {
  contract : option string;
  txName : string;
  channel : option string;
  args : list JsValue;
  namespace : string;
  transientData : option (gmap string JsValue);
  evaluateOnly : bool;
  peerTargets : list string
}.

Record t : Type := {
  getChannelPeersInfo : option string → JsError + list PeerInfo;
  submitTransaction : Request → JsError + option string
}.

End IFabricClientConnection.

Abbreviation IFabricClientConnection := IFabricClientConnection.t.

(** The state of [FabricConnectionManager.instance()]. *)
Record FabricConnectionManager : Type := {
  getConnection : option IFabricClientConnection;
  getGatewayRegistryEntry : FabricGatewayRegistryEntry
}.

(** Constants the command imports from [UserInputUtil], [ExtensionCommands]
    and [FabricRuntimeUtil]. *)
Record Constants : Type := {
  DEFAULT : string;
  CUSTOM : string;
  CONNECT_TO_GATEWAY : string;
  LOCAL_FABRIC : string
}.

(** Every call the command makes to the IDE, the logger, the telemetry
    reporter or the SDK, with its arguments. *)
Inductive Event : Type :=
| ELog (type : LogType) (popup : option string) (output : option string)
| EOutputShow
| EDockerOutputShow
| EExecuteCommand (command : string)
| EShowClientInstantiatedSmartContractsQuickPick (prompt : string)
| EShowTransactionQuickPick (prompt : string) (smartContract channelName : option string)
| EShowInputBox (prompt : string) (value : string)
| EShowQuickPick (prompt : string) (items : list string)
| EShowChannelPeersQuickPick (peers : list PeerInfo)
| EProgressReport (msg : string)
| EGetChannelPeersInfo (channelName : option string)
| ESubmitTransaction (request : IFabricClientConnection.Request)
| ESendTelemetryEvent (name : string).

(** What the user and the IDE answer.  A prompt the user dismisses answers
    [None] ([undefined]); [executeCommand] gives the state of the connection
    manager once the command has run. *)
Record World : Type := {
  executeCommand : string → FabricConnectionManager;
  showClientInstantiatedSmartContractsQuickPick :
    string → option (IBlockchainQuickPickItem SmartContractData);
  showTransactionQuickPick :
    string → option string → option string →
    option (IBlockchainQuickPickItem TransactionData);
  showInputBox : string → string → option string;
  showQuickPick : string → list string → option string;
  showChannelPeersQuickPick :
    list PeerInfo → option (list (IBlockchainQuickPickItem string))
}.

(** ** The command monad *)

Inductive completion (A : Type) : Type :=
| Normal (a : A)
| Return
| Throw (error : JsError).
Arguments Normal {A} _.
Arguments Return {A}.
Arguments Throw {A} _.

Definition Cmd (A : Type) : Type :=
  FabricConnectionManager → list Event * FabricConnectionManager * completion A.

Definition cmd_ret {A} (a : A) : Cmd A := λ mgr, ([], mgr, Normal a).

Definition cmd_bind {A B} (f : A → Cmd B) (c : Cmd A) : Cmd B := λ mgr,
  match c mgr with
  | (t, mgr', Normal a) =>
      match f a mgr' with (t', mgr'', r) => (t ++ t', mgr'', r) end
  | (t, mgr', Return) => (t, mgr', Return)
  | (t, mgr', Throw error) => (t, mgr', Throw error)
  end.

#[global] Instance Cmd_ret : MRet Cmd := @cmd_ret.
#[global] Instance Cmd_bind : MBind Cmd := @cmd_bind.

(** [return;] *)
Definition return_ {A} : Cmd A := λ mgr, ([], mgr, Return).

(** [throw error;] *)
Definition throw {A} (error : JsError) : Cmd A := λ mgr, ([], mgr, Throw error).

(** [try { c } catch (error) { handler }] *)
Definition try_catch {A} (c : Cmd A) (handler : JsError → Cmd A) : Cmd A := λ mgr,
  match c mgr with
  | (t, mgr', Throw error) =>
      match handler error mgr' with (t', mgr'', r) => (t ++ t', mgr'', r) end
  | r => r
  end.

Definition emit (e : Event) : Cmd unit := λ mgr, ([e], mgr, Normal tt).

Definition get_manager : Cmd FabricConnectionManager := λ mgr, ([], mgr, Normal mgr).

Definition set_manager (mgr' : FabricConnectionManager) : Cmd unit :=
  λ _, ([], mgr', Normal tt).

(** A call that returns a value or throws. *)
Definition lift {A} (r : JsError + A) : Cmd A :=
  match r with
  | inl error => throw error
  | inr a => mret a
  end.

(** [list.forEach(body)] / [for (const x of list) body]. *)
Fixpoint forEach {A} (l : list A) (body : A → Cmd unit) : Cmd unit :=
  match l with
  | [] => mret tt
  | x :: l' => body x ;; forEach l' body
  end.

(** The trace, the final manager state and the completion of a run. *)
Definition trace {A} (r : list Event * FabricConnectionManager * completion A) :
  list Event := r.1.1.

Definition outcome {A} (r : list Event * FabricConnectionManager * completion A) :
  completion A := r.2.

Definition final_manager {A}
    (r : list Event * FabricConnectionManager * completion A) :
  FabricConnectionManager := r.1.2.

(** ** The command [submitTransaction] *)

Definition TypeError (msg : string) : JsError := Error msg.

Definition is_undefined {A} (x : option A) : bool :=
  match x with None => true | Some _ => false end.

Definition quoted (s : string) : string := dquote +:+ s +:+ dquote.

(** The texts of the two input boxes and of the two format errors. *)
Definition argsPrompt : string :=
  "optional: What are the arguments to the transaction, (e.g. ["
  +:+ quoted "arg1" +:+ ", " +:+ quoted "arg2" +:+ "])".

Definition argsFormatError : string :=
  "transaction arguments should be in the format ["
  +:+ quoted "arg1" +:+ ", {" +:+ quoted "key" +:+ " : " +:+ quoted "value" +:+ "}]".

Definition transientDataPrompt : string :=
  "optional: What is the transient data for the transaction, e.g. {"
  +:+ quoted "key" +:+ ": " +:+ quoted "value" +:+ "}".

Definition transientDataFormatError : string :=
  "transient data should be in the format {"
  +:+ quoted "key" +:+ ": " +:+ quoted "value" +:+ "}".

Definition peerPolicyPrompt : string :=
  "Select a peer-targeting policy for this transaction".

(** The variables [smartContract], [transactionName], [channelName] and
    [namespace] once lines 47 to 81 have run. *)
Module Target.

Record t : Type := {
  smartContract : option string;
  transactionName : string;
  channelName : option string;
  namespace : string
}.

End Target.

Abbreviation Target := Target.t.

Section Command.

Context `{rt : JsRuntime} (cst : Constants) (w : World).

(** Lines 47 to 81: the target comes from the tree item, or from the quick
    picks.  [treeItem.channels[0].label] throws on an empty [channels]. *)
Definition resolveTarget (action : string) (treeItem : option TreeItem)
    (channelName smartContract : option string) : Cmd Target :=
  match treeItem with
  | Some (TransactionTreeItem chaincodeName name channel contractName) =>
      mret {| Target.smartContract := Some chaincodeName;
              Target.transactionName := name;
              Target.channelName := Some channel;
              Target.namespace := contractName |}
  | _ =>
      '(channelName, smartContract) ←
        (if is_undefined treeItem && negb (truthy channelName)
            && negb (truthy smartContract)
         then
           mgr ← get_manager;
           (if is_undefined (getConnection mgr) then
              emit (EExecuteCommand (CONNECT_TO_GATEWAY cst));;
              set_manager (executeCommand w (CONNECT_TO_GATEWAY cst));;
              mgr ← get_manager;
              if is_undefined (getConnection mgr) then return_ else mret tt
            else mret tt);;
           let prompt :=
             "Choose a smart contract to " +:+ action +:+ " a transaction from" in
           emit (EShowClientInstantiatedSmartContractsQuickPick prompt);;
           match showClientInstantiatedSmartContractsQuickPick w prompt with
           | None => return_
           | Some chosenSmartContract =>
               mret (Some (sc_channel (data chosenSmartContract)),
                     Some (sc_name (data chosenSmartContract)))
           end
         else
           match treeItem with
           | Some (InstantiatedTreeItem name channels) =>
               match channels with
               | [] => throw (TypeError "Cannot read property 'label' of undefined")
               | channel0 :: _ => mret (Some (label channel0), Some name)
               end
           | _ => mret (channelName, smartContract)
           end);
      let prompt := "Choose a transaction to " +:+ action in
      emit (EShowTransactionQuickPick prompt smartContract channelName);;
      match showTransactionQuickPick w prompt smartContract channelName with
      | None => return_
      | Some chosenTransaction =>
          mret {| Target.smartContract := smartContract;
                  Target.transactionName := tx_name (data chosenTransaction);
                  Target.channelName := channelName;
                  Target.namespace := tx_contract (data chosenTransaction) |}
      end
  end.

(** The assignment of a parsed value to [args : Array<string>].  Behind the
    bracket guard the value is an array ([JSON_parse_array]); the other
    case is closed with a throw and is shown unreachable below. *)
Definition as_array (v : JsValue) : Cmd (list JsValue) :=
  match v with
  | JsArray l => mret l
  | _ => throw (TypeError "JSON.parse: not an array")
  end.

(** Likewise for [transientData : { [key: string]: Buffer }]. *)
Definition as_object (v : JsValue) : Cmd (gmap string JsValue) :=
  match v with
  | JsObject m => mret m
  | _ => throw (TypeError "JSON.parse: not an object")
  end.

(** Lines 83 to 99. *)
Definition promptArguments : Cmd (list JsValue) :=
  emit (EShowInputBox argsPrompt "[]");;
  match showInputBox w argsPrompt "[]" with
  | None => return_
  | Some argsString =>
      if String.eqb argsString EmptyString then mret []
      else
        try_catch
          ((if negb (startsWith argsString "[") || negb (endsWith argsString "]")
            then throw (Error argsFormatError) else mret tt);;
           v ← lift (JSON_parse argsString);
           as_array v)
          (λ error,
            emit (ELog ERROR
                    (Some ("Error with transaction arguments: " +:+ message error))
                    None);;
            return_)
  end.

(** Lines 115 to 117: [transientData[key] = Buffer.from(transientData[key])]
    for each key.  Reading a key the object lacks gives [undefined], on
    which [Buffer.from] throws. *)
Fixpoint forEach_key (keys : list string) (transientData : gmap string JsValue) :
    Cmd (gmap string JsValue) :=
  match keys with
  | [] => mret transientData
  | key :: keys' =>
      buffer ←
        match transientData !! key with
        | Some v => lift (Buffer_from v)
        | None => throw (TypeError "The first argument must not be undefined")
        end;
      forEach_key keys' (<[key := JsBuffer buffer]> transientData)
  end.

(** Lines 101 to 122. *)
Definition promptTransientData : Cmd (option (gmap string JsValue)) :=
  try_catch
    (emit (EShowInputBox transientDataPrompt "{}");;
     match showInputBox w transientDataPrompt "{}" with
     | None => return_
     | Some transientDataString =>
         if negb (String.eqb transientDataString EmptyString)
            && negb (String.eqb transientDataString "{}")
         then
           (if negb (startsWith transientDataString "{")
               || negb (endsWith transientDataString "}")
            then throw (Error transientDataFormatError) else mret tt);;
           v ← lift (JSON_parse transientDataString);
           transientData ← as_object v;
           let keys := Object_keys transientData in
           transientData ← forEach_key keys transientData;
           mret (Some transientData)
         else mret None
     end)
    (λ error,
      emit (ELog ERROR
              (Some ("Error with transaction transient data: " +:+ message error))
              None);;
      return_).

(** Lines 124 to 156: the connection, the peer names to target and the text
    that names them in the log.  The connection is read without a check:
    calling a method on [undefined] throws. *)
Definition resolvePeerTargets (channelName : option string) :
    Cmd (IFabricClientConnection * list string * string) :=
  mgr ← get_manager;
  match getConnection mgr with
  | None =>
      throw (TypeError "Cannot read property 'getChannelPeersInfo' of undefined")
  | Some connection =>
      emit (EGetChannelPeersInfo channelName);;
      channelPeerInfo ←
        lift (IFabricClientConnection.getChannelPeersInfo connection channelName);
      selectPeers ←
        (if Nat.eqb (length channelPeerInfo) 0 then
           emit (ELog ERROR (Some "No channel peers available to target") None);;
           return_
         else if Nat.eqb (length channelPeerInfo) 1 then
           mret (Some (DEFAULT cst))
         else
           emit (EShowQuickPick peerPolicyPrompt [DEFAULT cst; CUSTOM cst]);;
           mret (showQuickPick w peerPolicyPrompt [DEFAULT cst; CUSTOM cst]));
      if negb (truthy selectPeers) then return_
      else if strict_eq selectPeers (CUSTOM cst) then
        emit (EShowChannelPeersQuickPick channelPeerInfo);;
        match showChannelPeersQuickPick w channelPeerInfo with
        | None => return_
        | Some peerTargets =>
            if Nat.eqb (length peerTargets) 0 then return_
            else
              let peerTargetNames := map data peerTargets in
              mret (connection, peerTargetNames,
                    " to peers " +:+ String.concat "," peerTargetNames)
        end
      else mret (connection, [], EmptyString)
  end.

(** [await connection.submitTransaction(...)]. *)
Definition call_submitTransaction (connection : IFabricClientConnection)
    (request : IFabricClientConnection.Request) : Cmd (option string) :=
  emit (ESubmitTransaction request);;
  lift (IFabricClientConnection.submitTransaction connection request).

(** Lines 158 to 204: the callback handed to [withProgress]. *)
Definition invoke (evaluate : bool) (action actioning actioned : string)
    (connection : IFabricClientConnection) (target : Target)
    (args : list JsValue) (transientData : option (gmap string JsValue))
    (peerTargetNames : list string) (peerTargetMessage : string) : Cmd unit :=
  let transactionName := Target.transactionName target in
  let channelName := Target.channelName target in
  try_catch
    (emit (EProgressReport (actioning +:+ " transaction " +:+ transactionName));;
     (if Nat.eqb (length args) 0 then
        emit (ELog INFO None
                (Some (actioning +:+ " transaction " +:+ transactionName
                       +:+ " with no args on channel " +:+ show channelName
                       +:+ peerTargetMessage)))
      else
        emit (ELog INFO None
                (Some (actioning +:+ " transaction " +:+ transactionName
                       +:+ " with args " +:+ Array_toString args
                       +:+ " on channel " +:+ show channelName
                       +:+ peerTargetMessage))));;
     mgr ← get_manager;
     let gatewayRegistyrEntry := getGatewayRegistryEntry mgr in
     (if String.eqb (entry_name gatewayRegistyrEntry) (LOCAL_FABRIC cst)
      then emit EDockerOutputShow else mret tt);;
     result ←
       (if evaluate then
          call_submitTransaction connection
            (IFabricClientConnection.Build_Request (Target.smartContract target)
               transactionName channelName args (Target.namespace target)
               transientData true peerTargetNames)
        else
          call_submitTransaction connection
            (IFabricClientConnection.Build_Request (Target.smartContract target)
               transactionName channelName args (Target.namespace target)
               transientData false peerTargetNames));
     emit (ESendTelemetryEvent (action +:+ " transaction"));;
     let message' :=
       match result with
       | None => "No value returned from " +:+ transactionName
       | Some result =>
           "Returned value from " +:+ transactionName +:+ ": " +:+ result
       end in
     emit (ELog SUCCESS (Some ("Successfully " +:+ actioned +:+ " transaction"))
             (Some message'));;
     emit EOutputShow)
    (λ error,
      emit (ELog ERROR
              (Some ("Error " +:+ actioning +:+ " transaction: " +:+ message error))
              None);;
      match endorsements error with
      | Some endorsements =>
          forEach endorsements (λ endorsement,
            emit (ELog ERROR
                    (Some ("Endorsement failed with: " +:+ message endorsement))
                    None))
      | None => mret tt
      end).

Definition action_words (evaluate : bool) : string * string * string :=
  if evaluate then ("evaluate", "evaluating", "evaluated")
  else ("submit", "submitting", "submitted").

(** The command.  The promise it returns is resolved when the completion
    is [Normal] or [Return], and rejected when it is [Throw]. *)
Definition submitTransaction (evaluate : bool) (treeItem : option TreeItem)
    (channelName smartContract : option string) : Cmd unit :=
  let '(action, actioning, actioned) := action_words evaluate in
  emit (ELog INFO None (Some (action +:+ "Transaction")));;
  target ← resolveTarget action treeItem channelName smartContract;
  args ← promptArguments;
  transientData ← promptTransientData;
  '(connection, peerTargetNames, peerTargetMessage) ←
    resolvePeerTargets (Target.channelName target);
  invoke evaluate action actioning actioned connection target args
    transientData peerTargetNames peerTargetMessage.

End Command.

(** ** The functional-test template

    The block of the EJS template that declares the parameters of a
    transaction and builds [args] (lines 75 to 102).  A line that holds only
    a scriptlet between the whitespace-slurping tags renders to nothing;
    every other line is rendered with its indentation.  The rendered block
    is given as its list of lines. *)
Module Template.

Record Schema : Type := { type : option string }.

Record Param : Type := { name : string; schema : option Schema }.

Record Transaction : Type :=
  { transaction_name : string; parameters : option (list Param) }.

(** [escapeXML] of EJS, applied by the output tag that escapes. *)
Definition escape_char (c : Ascii.ascii) : string :=
  if Ascii.eqb c "&" then "&amp;"
  else if Ascii.eqb c "<" then "&lt;"
  else if Ascii.eqb c ">" then "&gt;"
  else if Ascii.eqb c dquote_char then "&#34;"
  else if Ascii.eqb c "'" then "&#39;"
  else String c EmptyString.

Fixpoint escapeXML (s : string) : string :=
  match s with
  | EmptyString => EmptyString
  | String c s' => escape_char c +:+ escapeXML s'
  end.

(** [s.replace(c, '')] with a one-character pattern: the first occurrence
    of [c] is removed. *)
Fixpoint replace (s : string) (c : Ascii.ascii) : string :=
  match s with
  | EmptyString => EmptyString
  | String c' s' => if Ascii.eqb c' c then s' else String c' (replace s' c)
  end.

Definition indent : string := "            ".

(** One round of the [forEach] of line 78: the entry pushed on [params], if
    any, and the line rendered, if any. *)
Definition stub (parameter : Param) : list string * list string :=
  let name' := replace (name parameter) dquote_char in
  let const value := indent +:+ "const " +:+ escapeXML name' +:+ " = " +:+ value +:+ ";" in
  let type := schema parameter ≫= type in
  if truthy type then
    if strict_eq type "string" then
      ([" " +:+ name'], [const "'EXAMPLE'"])
    else if strict_eq type "number" then
      ([" " +:+ name' +:+ ".toString()"], [const "0"])
    else if strict_eq type "boolean" then
      ([" " +:+ name' +:+ ".toString()"], [const "true"])
    else if strict_eq type "array" then
      ([" JSON.stringify(" +:+ name' +:+ ")"], [const "[]"])
    else ([], [])
  else
    ([" JSON.stringify(" +:+ name' +:+ ")"], [const "{}"]).

(** The entries of [params] and the lines rendered by the whole loop. *)
Definition params_of (ps : list Param) : list string :=
  concat (map (λ p, (stub p).1) ps).

Definition consts_of (ps : list Param) : list string :=
  concat (map (λ p, (stub p).2) ps).

(** Lines 75 to 102. *)
Definition parameterBlock (transaction : Transaction) : list string :=
  match parameters transaction with
  | Some ((_ :: _) as ps) =>
      [indent +:+ "// TODO: populate transaction parameters"]
      ++ consts_of ps
      ++ [indent +:+ "const args = ["
          +:+ escapeXML (String.concat "," (params_of ps)) +:+ "];"]
  | _ =>
      [indent +:+ "// TODO: Update with parameters of transaction";
       indent +:+ "const args = [];"]
  end.

End Template.

(** ** A runtime to run the command on

    An instance of the runtime interface with which the command is run on
    concrete inputs.  Its [JSON.parse] reads JSON texts whose numbers are
    integer literals of at most fifteen digits and whose strings have no
    [\u] escape, and rejects every other text; [Object.keys] lists the keys
    in the order of the map. *)
Module Example.

Definition SyntaxError (msg : string) : JsError := Error msg.

Definition is_ws (c : Ascii.ascii) : bool :=
  Ascii.eqb c " " || Ascii.eqb c "009" || Ascii.eqb c "010" || Ascii.eqb c "013".

Fixpoint skip_ws (s : list Ascii.ascii) : list Ascii.ascii :=
  match s with
  | c :: r => if is_ws c then skip_ws r else s
  | [] => []
  end.

Definition unescape (c : Ascii.ascii) : option Ascii.ascii :=
  if Ascii.eqb c dquote_char then Some dquote_char
  else if Ascii.eqb c "\" then Some "\"%char
  else if Ascii.eqb c "/" then Some "/"%char
  else if Ascii.eqb c "b" then Some "008"%char
  else if Ascii.eqb c "f" then Some "012"%char
  else if Ascii.eqb c "n" then Some "010"%char
  else if Ascii.eqb c "r" then Some "013"%char
  else if Ascii.eqb c "t" then Some "009"%char
  else None.

(** The characters of a string literal, after its opening quote. *)
Fixpoint parse_chars (s : list Ascii.ascii) : option (string * list Ascii.ascii) :=
  match s with
  | [] => None
  | c :: r =>
      if Ascii.eqb c dquote_char then Some (EmptyString, r)
      else if Ascii.eqb c "\" then
        match r with
        | e :: r' =>
            match unescape e, parse_chars r' with
            | Some c', Some (str, rest) => Some (String c' str, rest)
            | _, _ => None
            end
        | [] => None
        end
      else if Nat.ltb (Ascii.nat_of_ascii c) 32 then None
      else
        match parse_chars r with
        | Some (str, rest) => Some (String c str, rest)
        | None => None
        end
  end.

Definition digit_value (c : Ascii.ascii) : option Z :=
  let n := Ascii.nat_of_ascii c in
  if Nat.leb 48 n && Nat.leb n 57 then Some (Z.of_nat (n - 48)) else None.

(** The value and the number of the leading digits of [s], and what follows
    them. *)
Fixpoint digits (s : list Ascii.ascii) (acc : Z) (n : nat) :
    Z * nat * list Ascii.ascii :=
  match s with
  | c :: r =>
      match digit_value c with
      | Some d => digits r (10 * acc + d)%Z (S n)
      | None => (acc, n, s)
      end
  | [] => (acc, n, s)
  end.

Definition double_of_Z (negative : bool) (z : Z) : spec_float :=
  if Z.eqb z 0 then S754_zero negative
  else binary_normalize 53 1024 (if negative then - z else z)%Z 0 false.

Definition parse_number (s : list Ascii.ascii) : option (JsValue * list Ascii.ascii) :=
  let '(negative, s1) :=
    match s with
    | c :: r => if Ascii.eqb c "-" then (true, r) else (false, s)
    | [] => (false, s)
    end in
  let '(z, n, rest) := digits s1 0 0 in
  let leading_zero :=
    match s1 with c :: _ => Ascii.eqb c "0" && Nat.ltb 1 n | [] => false end in
  let more :=
    match rest with
    | c :: _ => Ascii.eqb c "." || Ascii.eqb c "e" || Ascii.eqb c "E"
    | [] => false
    end in
  if Nat.eqb n 0 || Nat.ltb 15 n || leading_zero || more then None
  else Some (JsNumber (double_of_Z negative z), rest).

Definition parse_literal (s : list Ascii.ascii) : option (JsValue * list Ascii.ascii) :=
  match s with
  | "t" :: "r" :: "u" :: "e" :: r => Some (JsBool true, r)
  | "f" :: "a" :: "l" :: "s" :: "e" :: r => Some (JsBool false, r)
  | "n" :: "u" :: "l" :: "l" :: r => Some (JsNull, r)
  | _ => parse_number s
  end%char.

(** A value, the elements of an array after its opening bracket, and the
    members of an object after its opening brace.  The fuel bounds the depth
    of the recursion; the length of the text is enough. *)
Fixpoint parse_value (fuel : nat) (s : list Ascii.ascii) :
    option (JsValue * list Ascii.ascii) :=
  match fuel with
  | 0 => None
  | S fuel =>
      match s with
      | c :: r =>
          if Ascii.eqb c "[" then
            match skip_ws r with
            | c' :: r' =>
                if Ascii.eqb c' "]" then Some (JsArray [], r')
                else
                  match parse_elements fuel (c' :: r') with
                  | Some (l, rest) => Some (JsArray l, rest)
                  | None => None
                  end
            | [] => None
            end
          else if Ascii.eqb c "{" then
            match skip_ws r with
            | c' :: r' =>
                if Ascii.eqb c' "}" then Some (JsObject ∅, r')
                else
                  match parse_members fuel ∅ (c' :: r') with
                  | Some (m, rest) => Some (JsObject m, rest)
                  | None => None
                  end
            | [] => None
            end
          else if Ascii.eqb c dquote_char then
            match parse_chars r with
            | Some (str, rest) => Some (JsString str, rest)
            | None => None
            end
          else parse_literal s
      | [] => None
      end
  end
with parse_elements (fuel : nat) (s : list Ascii.ascii) :
    option (list JsValue * list Ascii.ascii) :=
  match fuel with
  | 0 => None
  | S fuel =>
      match parse_value fuel s with
      | Some (v, r) =>
          match skip_ws r with
          | c :: r' =>
              if Ascii.eqb c "," then
                match parse_elements fuel (skip_ws r') with
                | Some (l, rest) => Some (v :: l, rest)
                | None => None
                end
              else if Ascii.eqb c "]" then Some ([v], r')
              else None
          | [] => None
          end
      | None => None
      end
  end
with parse_members (fuel : nat) (m : gmap string JsValue) (s : list Ascii.ascii) :
    option (gmap string JsValue * list Ascii.ascii) :=
  match fuel with
  | 0 => None
  | S fuel =>
      match s with
      | q :: r =>
          if Ascii.eqb q dquote_char then
            match parse_chars r with
            | Some (key, r1) =>
                match skip_ws r1 with
                | colon :: r2 =>
                    if Ascii.eqb colon ":" then
                      match parse_value fuel (skip_ws r2) with
                      | Some (v, r3) =>
                          match skip_ws r3 with
                          | c :: r4 =>
                              if Ascii.eqb c "," then
                                parse_members fuel (<[key := v]> m) (skip_ws r4)
                              else if Ascii.eqb c "}" then
                                Some (<[key := v]> m, r4)
                              else None
                          | [] => None
                          end
                      | None => None
                      end
                    else None
                | [] => None
                end
            | None => None
            end
          else None
      | [] => None
      end
  end.

Definition parse (text : string) : JsError + JsValue :=
  let s := list_ascii_of_string text in
  match parse_value (S (length s)) (skip_ws s) with
  | Some (v, rest) =>
      match skip_ws rest with
      | [] => inr v
      | _ => inl (SyntaxError "Unexpected token in JSON")
      end
  | None => inl (SyntaxError "Unexpected token in JSON")
  end.

(** The integer part of a double, for the bytes of [Buffer.from(array)]. *)
Definition trunc (x : spec_float) : Z :=
  match x with
  | S754_finite negative m e =>
      let n := (if Z.leb 0 e then Z.pos m * 2 ^ e else Z.pos m / 2 ^ (- e))%Z in
      if negative then (- n)%Z else n
  | _ => 0%Z
  end.

Definition byte_of_Z (z : Z) : Byte.byte :=
  default Byte.x00 (Byte.of_N (Z.to_N (z mod 256))).

Definition byte_of (v : JsValue) : Byte.byte :=
  match v with
  | JsNumber x => byte_of_Z (trunc x)
  | _ => Byte.x00
  end.

Definition from (v : JsValue) : JsError + list Byte.byte :=
  match v with
  | JsString s => inr (list_byte_of_string s)
  | JsBuffer bytes => inr bytes
  | JsArray l => inr (map byte_of l)
  | _ =>
      inl (TypeError
             "The first argument must be one of type string, Buffer, ArrayBuffer, Array, or Array-like Object")
  end.

Definition keys (m : gmap string JsValue) : list string := (map_to_list m).*1.

(** The string conversion of a value inside an array: [null] gives the
    empty string.  A double that is not an integer does not come out of
    [parse]; it is written as its integer part. *)
Fixpoint toString (v : JsValue) : string :=
  match v with
  | JsNull => EmptyString
  | JsBool b => if b then "true" else "false"
  | JsNumber x => pretty (trunc x)
  | JsString s => s
  | JsArray l => String.concat "," (map toString l)
  | JsObject _ => "[object Object]"
  | JsBuffer bytes => String.concat "," (map (λ b, pretty (Byte.to_N b)) bytes)
  end.

Definition join (l : list JsValue) : string := String.concat "," (map toString l).

End Example.

(** ** Scenarios

    Concrete users, connections and inputs on which the command is run. *)
Module Scenario.

Definition constants : Constants :=
  {| DEFAULT := "Default peer targeting policy";
     CUSTOM := "Custom peer targeting policy";
     CONNECT_TO_GATEWAY := "blockchainConnectionsExplorer.connectEntry";
     LOCAL_FABRIC := "local_fabric" |}.

Definition peer0 : PeerInfo := {| peer_name := "peer0.org1.example.com"; mspID := "Org1MSP" |}.
Definition peer1 : PeerInfo := {| peer_name := "peer0.org2.example.com"; mspID := "Org2MSP" |}.

(** A connection to a channel with the peers [peers], whose
    [submitTransaction] answers [answer]. *)
Definition connection (peers : list PeerInfo) (answer : JsError + option string) :
    IFabricClientConnection :=
  {| IFabricClientConnection.getChannelPeersInfo := λ _, inr peers;
     IFabricClientConnection.submitTransaction := λ _, answer |}.

Definition connected (c : IFabricClientConnection) : FabricConnectionManager :=
  {| getConnection := Some c;
     getGatewayRegistryEntry := {| entry_name := "local_fabric" |} |}.

Definition disconnected : FabricConnectionManager :=
  {| getConnection := None;
     getGatewayRegistryEntry := {| entry_name := "myGateway" |} |}.

(** A user who types [argsString] and [transientDataString] in the two input
    boxes, picks the transaction [transfer] of the contract [Asset] when
    asked for one, answers [policy] to the policy prompt and [targets] to
    the peer prompt, and dismisses the gateway and smart-contract prompts. *)
Definition user (argsString transientDataString policy : option string)
    (targets : option (list (IBlockchainQuickPickItem string))) : World :=
  {| executeCommand := λ _, disconnected;
     showClientInstantiatedSmartContractsQuickPick := λ _, None;
     showTransactionQuickPick := λ _ _ _,
       Some {| item_label := "Asset - transfer";
               data := {| tx_name := "transfer"; tx_contract := "Asset" |} |};
     showInputBox := λ prompt _,
       if String.eqb prompt argsPrompt then argsString else transientDataString;
     showQuickPick := λ _ _, policy;
     showChannelPeersQuickPick := λ _, targets |}.

Definition transactionItem : TreeItem :=
  TransactionTreeItem "asset-chaincode" "transfer" "mychannel" "Asset".

Definition endorsementError : JsError :=
  mkError "No valid responses from any peers"
    (Some [Error "chaincode response 500"; Error "peer unreachable"]).

End Scenario.

(** ** Observations on a trace *)

(** The requests handed to the SDK and the telemetry events sent, in order. *)
Definition submit_calls (t : list Event) : list IFabricClientConnection.Request :=
  omap (λ e, match e with ESubmitTransaction request => Some request | _ => None end) t.

Definition telemetry_events (t : list Event) : list string :=
  omap (λ e, match e with ESendTelemetryEvent name => Some name | _ => None end) t.

(** The kinds of event of each step of the command. *)
Definition is_target_resolution (e : Event) : Prop :=
  match e with
  | EExecuteCommand _
  | EShowClientInstantiatedSmartContractsQuickPick _
  | EShowTransactionQuickPick _ _ _ => True
  | _ => False
  end.

Definition is_peer_prompt (e : Event) : Prop :=
  match e with
  | EShowQuickPick _ _ | EShowChannelPeersQuickPick _ => True
  | _ => False
  end.

Definition is_announcement (e : Event) : Prop :=
  match e with
  | EProgressReport _ | ELog INFO None (Some _) | EDockerOutputShow => True
  | _ => False
  end.

Definition is_error_log (e : Event) : Prop :=
  match e with
  | ELog ERROR (Some _) None => True
  | _ => False
  end.

(** What the command tells the reporter and the logger once the SDK call
    has returned [result], and once it has thrown [error]. *)
Definition success_report (action actioned transactionName : string)
    (result : option string) : list Event :=
  [ESendTelemetryEvent (action +:+ " transaction");
   ELog SUCCESS (Some ("Successfully " +:+ actioned +:+ " transaction"))
     (Some match result with
           | None => "No value returned from " +:+ transactionName
           | Some result =>
               "Returned value from " +:+ transactionName +:+ ": " +:+ result
           end);
   EOutputShow].

Definition failure_report (actioning : string) (error : JsError) : list Event :=
  ELog ERROR (Some ("Error " +:+ actioning +:+ " transaction: " +:+ message error)) None
  :: map (λ endorsement,
            ELog ERROR (Some ("Endorsement failed with: " +:+ message endorsement)) None)
       (default [] (endorsements error)).

(** The request the command hands to the SDK. *)
Definition request_of (evaluate : bool) (target : Target) (args : list JsValue)
    (transientData : option (gmap string JsValue)) (peerTargetNames : list string) :
    IFabricClientConnection.Request :=
  {| IFabricClientConnection.contract := Target.smartContract target;
     IFabricClientConnection.txName := Target.transactionName target;
     IFabricClientConnection.channel := Target.channelName target;
     IFabricClientConnection.args := args;
     IFabricClientConnection.namespace := Target.namespace target;
     IFabricClientConnection.transientData := transientData;
     IFabricClientConnection.evaluateOnly := evaluate;
     IFabricClientConnection.peerTargets := peerTargetNames |}.

(** The transient-data object [td] holds, under every key of the parsed
    object [m], a buffer made from the value [m] has there, and nothing
    else. *)
Definition buffers_of `{rt : JsRuntime} (m td : gmap string JsValue) : Prop :=
  ∀ key, td !! key = None ∧ m !! key = None
         ∨ ∃ v bytes, m !! key = Some v ∧ Buffer_from v = inr bytes
                      ∧ td !! key = Some (JsBuffer bytes).

(** * Properties *)

(** ** The example runtime satisfies the laws of the interface *)

Lemma startsWith_inv (s : string) (c : Ascii.ascii) :
  startsWith s (String c EmptyString) = true → ∃ s', s = String c s'.
Proof.
  unfold startsWith. destruct s as [|c' s']; simpl; [done|].
  destruct (Ascii.ascii_dec c c') as [->|]; [eauto | done].
Qed.

Lemma Example_parse_array (s : string) (v : JsValue) :
  startsWith s "[" = true → Example.parse s = inr v → ∃ l, v = JsArray l.
Proof.
  intros [s' ->]%startsWith_inv. unfold Example.parse.
  cbn [list_ascii_of_string length Example.skip_ws Example.is_ws Ascii.eqb
       Bool.eqb orb Example.parse_value].
  intros Hparse. repeat case_match; simplify_eq; eauto.
Qed.

Lemma Example_parse_object (s : string) (v : JsValue) :
  startsWith s "{" = true → Example.parse s = inr v → ∃ m, v = JsObject m.
Proof.
  intros [s' ->]%startsWith_inv. unfold Example.parse.
  cbn [list_ascii_of_string length Example.skip_ws Example.is_ws Ascii.eqb
       Bool.eqb orb Example.parse_value].
  intros Hparse. repeat case_match; simplify_eq; eauto.
Qed.

#[global] Instance ExampleRuntime : JsRuntime := {|
  JSON_parse := Example.parse;
  Buffer_from := Example.from;
  Object_keys := Example.keys;
  Array_toString := Example.join;
  JSON_parse_array := Example_parse_array;
  JSON_parse_object := Example_parse_object;
  Object_keys_perm := λ m, reflexivity _
|}.

(** ** The command monad *)

Lemma run_bind {A B} (c : Cmd A) (f : A → Cmd B) (mgr : FabricConnectionManager) :
  (c ≫= f) mgr =
  match c mgr with
  | (t, mgr', Normal a) =>
      match f a mgr' with (t', mgr'', r) => (t ++ t', mgr'', r) end
  | (t, mgr', Return) => (t, mgr', Return)
  | (t, mgr', Throw error) => (t, mgr', Throw error)
  end.
Proof. reflexivity. Qed.

Lemma run_ret {A} (a : A) (mgr : FabricConnectionManager) :
  (mret a : Cmd A) mgr = ([], mgr, Normal a).
Proof. reflexivity. Qed.

Lemma run_emit {B} (e : Event) (c : Cmd B) (mgr : FabricConnectionManager) :
  (emit e ;; c) mgr = match c mgr with (t, mgr', r) => (e :: t, mgr', r) end.
Proof. reflexivity. Qed.

Lemma run_forEach_emit {A} (l : list A) (f : A → Event) (mgr : FabricConnectionManager) :
  forEach l (λ x, emit (f x)) mgr = (map f l, mgr, Normal tt).
Proof.
  induction l as [|x l IH]; [done|].
  cbn [forEach map]. rewrite run_emit, IH. done.
Qed.

Lemma run_forEach_event {A} (l : list A) (f : A → Event) (mgr : FabricConnectionManager) :
  forEach l (λ x mgr', ([f x], mgr', Normal tt)) mgr = (map f l, mgr, Normal tt).
Proof. exact (run_forEach_emit l f mgr). Qed.

Ltac unfold_cmd :=
  unfold mbind, mret, Cmd_bind, Cmd_ret, cmd_bind, cmd_ret, emit, return_,
    throw, try_catch, lift, get_manager, set_manager in *.

(** ** The steps of the command *)

Section Steps.

Context `{rt : JsRuntime} (cst : Constants) (w : World).

Implicit Types (mgr : FabricConnectionManager) (t : list Event).

(** Resolving the target only runs the connect command and the two quick
    picks. *)
Lemma resolveTarget_events action treeItem channelName smartContract mgr :
  Forall is_target_resolution
    (trace (resolveTarget cst w action treeItem channelName smartContract mgr)).
Proof.
  unfold resolveTarget, trace. unfold_cmd.
  repeat case_match; simplify_eq/=; repeat constructor.
Qed.

(** Behind its guard, neither assignment of a parsed value throws. *)
Lemma as_array_guarded s v :
  startsWith s "[" = true → JSON_parse s = inr v → ∃ a, as_array v = mret a.
Proof. intros Hstart Hparse. destruct (JSON_parse_array s v) as [a ->]; eauto. Qed.

Lemma as_object_guarded s v :
  startsWith s "{" = true → JSON_parse s = inr v → ∃ m, as_object v = mret m.
Proof. intros Hstart Hparse. destruct (JSON_parse_object s v) as [m ->]; eauto. Qed.

(** The argument prompt, by cases on the answer.  It never throws, and it
    never hands over a value that did not come out of [JSON.parse] behind
    the bracket guard. *)
Inductive arguments_step :
  list Event → completion (list JsValue) → Prop :=
| arguments_dismissed :
    showInputBox w argsPrompt "[]" = None →
    arguments_step [EShowInputBox argsPrompt "[]"] Return
| arguments_empty :
    showInputBox w argsPrompt "[]" = Some EmptyString →
    arguments_step [EShowInputBox argsPrompt "[]"] (Normal [])
| arguments_parsed s a :
    showInputBox w argsPrompt "[]" = Some s → s ≠ EmptyString →
    startsWith s "[" = true → endsWith s "]" = true →
    JSON_parse s = inr (JsArray a) →
    arguments_step [EShowInputBox argsPrompt "[]"] (Normal a)
| arguments_malformed s msg :
    showInputBox w argsPrompt "[]" = Some s → s ≠ EmptyString →
    startsWith s "[" && endsWith s "]" = false ∨ (∃ e, JSON_parse s = inl e) →
    arguments_step
      [EShowInputBox argsPrompt "[]";
       ELog ERROR (Some ("Error with transaction arguments: " +:+ msg)) None]
      Return.

Lemma promptArguments_inv mgr t mgr' r :
  promptArguments w mgr = (t, mgr', r) → mgr' = mgr ∧ arguments_step t r.
Proof.
  unfold promptArguments. rewrite run_emit.
  destruct (showInputBox w argsPrompt "[]") as [s|] eqn:Hbox.
  2:{ unfold_cmd. intros [= <- <- <-]. split; [done|]. by constructor. }
  destruct (String.eqb_spec s EmptyString) as [->|Hne].
  { unfold_cmd. intros [= <- <- <-]. split; [done|]. by constructor. }
  destruct (startsWith s "[") eqn:Hstart, (endsWith s "]") eqn:Hend;
    cbn [negb orb].
  2-4: unfold_cmd; intros [= <- <- <-]; split; [done|];
       eapply arguments_malformed; [done..|]; left; by rewrite Hstart, Hend.
  destruct (JSON_parse s) as [e|v] eqn:Hparse.
  { unfold_cmd. intros [= <- <- <-]. split; [done|].
    eapply arguments_malformed; eauto. }
  destruct (JSON_parse_array s v Hstart Hparse) as [a ->].
  unfold_cmd. intros [= <- <- <-]. split; [done|].
  by eapply arguments_parsed.
Qed.

(** The loop over the keys is silent, never returns from the command, and
    when it completes every visited key holds a buffer made from the value
    it held, the other keys being untouched. *)
Lemma forEach_key_inv keys (td : gmap string JsValue) mgr t mgr' r :
  forEach_key keys td mgr = (t, mgr', r) → t = [] ∧ mgr' = mgr ∧ r ≠ Return.
Proof.
  revert td t mgr' r. induction keys as [|key keys IH]; intros td t mgr' r.
  { unfold_cmd. by intros [= <- <- <-]. }
  cbn [forEach_key]. rewrite run_bind.
  destruct (td !! key) as [v|]; [|unfold_cmd; by intros [= <- <- <-]].
  destruct (Buffer_from v) as [e|bytes]; [unfold_cmd; by intros [= <- <- <-]|].
  unfold lift, mret, Cmd_ret, cmd_ret.
  destruct (forEach_key keys _ mgr) as [[t1 m1] r1] eqn:Hrest.
  apply IH in Hrest as (-> & -> & ?). by intros [= <- <- <-].
Qed.

Lemma forEach_key_Normal keys (td td' : gmap string JsValue) mgr t mgr' :
  NoDup keys →
  forEach_key keys td mgr = (t, mgr', Normal td') →
  ∀ key,
    ((key ∉ keys) ∧ td' !! key = td !! key)
    ∨ (key ∈ keys ∧ ∃ v bytes, td !! key = Some v ∧ Buffer_from v = inr bytes
                               ∧ td' !! key = Some (JsBuffer bytes)).
Proof.
  revert td t mgr'. induction keys as [|key0 keys IH]; intros td t mgr' Hnodup.
  { unfold_cmd. intros [= <- <- <-] key. left. split; [apply not_elem_of_nil|done]. }
  apply NoDup_cons in Hnodup as [Hfresh Hnodup].
  cbn [forEach_key]. rewrite run_bind.
  destruct (td !! key0) as [v|] eqn:Hv; [|unfold_cmd; done].
  destruct (Buffer_from v) as [e|bytes] eqn:Hbuf; [unfold_cmd; done|].
  unfold lift, mret, Cmd_ret, cmd_ret.
  destruct (forEach_key keys _ mgr) as [[t1 m1] r1] eqn:Hrest.
  intros [= <- <- ->]. intros key.
  destruct (IH _ _ _ Hnodup Hrest key) as [[Hnotin Hsame]|(Hin & v' & b' & Hv' & Hb' & Htd')].
  - destruct (decide (key = key0)) as [->|Hne].
    + right. split; [apply list_elem_of_here|].
      exists v, bytes. by rewrite Hsame, lookup_insert_eq.
    + left. split; [by intros [?|?]%elem_of_cons|].
      by rewrite Hsame, lookup_insert_ne.
  - right. split; [by apply list_elem_of_further|].
    assert (key ≠ key0) as Hne by (by intros ->).
    rewrite lookup_insert_ne in Hv' by done. eauto.
Qed.

Lemma Object_keys_NoDup (m : gmap string JsValue) : NoDup (Object_keys m).
Proof. rewrite Object_keys_perm. apply NoDup_fst_map_to_list. Qed.

Lemma elem_of_Object_keys (m : gmap string JsValue) key :
  key ∈ Object_keys m ↔ is_Some (m !! key).
Proof.
  rewrite Object_keys_perm, list_elem_of_fmap. split.
  - intros [[k v] [-> Hkv%elem_of_map_to_list]]. eauto.
  - intros [v Hv]. exists (key, v). by rewrite elem_of_map_to_list.
Qed.

Lemma forEach_key_buffers (m td : gmap string JsValue) mgr t mgr' :
  forEach_key (Object_keys m) m mgr = (t, mgr', Normal td) → buffers_of m td.
Proof.
  intros Hrun key.
  destruct (forEach_key_Normal _ _ _ _ _ _ (Object_keys_NoDup m) Hrun key)
    as [[Hnotin Hsame]|[_ Hbuf]]; [|by right].
  left. rewrite Hsame. split; apply eq_None_not_Some;
    by rewrite <-elem_of_Object_keys.
Qed.

(** The transient-data prompt, by cases on the answer.  It never throws; it
    hands over [undefined] for the empty string and for the text of the
    empty object, and otherwise an object of buffers made from the parsed
    one. *)
Inductive transientData_step :
  list Event → completion (option (gmap string JsValue)) → Prop :=
| transientData_dismissed :
    showInputBox w transientDataPrompt "{}" = None →
    transientData_step [EShowInputBox transientDataPrompt "{}"] Return
| transientData_none s :
    showInputBox w transientDataPrompt "{}" = Some s →
    s = EmptyString ∨ s = "{}" →
    transientData_step [EShowInputBox transientDataPrompt "{}"] (Normal None)
| transientData_parsed s m td :
    showInputBox w transientDataPrompt "{}" = Some s →
    s ≠ EmptyString → s ≠ "{}" →
    startsWith s "{" = true → endsWith s "}" = true →
    JSON_parse s = inr (JsObject m) → buffers_of m td →
    transientData_step [EShowInputBox transientDataPrompt "{}"] (Normal (Some td))
| transientData_malformed s msg :
    showInputBox w transientDataPrompt "{}" = Some s →
    s ≠ EmptyString → s ≠ "{}" →
    transientData_step
      [EShowInputBox transientDataPrompt "{}";
       ELog ERROR (Some ("Error with transaction transient data: " +:+ msg)) None]
      Return.

Lemma promptTransientData_inv mgr t mgr' r :
  promptTransientData w mgr = (t, mgr', r) → mgr' = mgr ∧ transientData_step t r.
Proof.
  unfold promptTransientData, try_catch. rewrite run_emit.
  destruct (showInputBox w transientDataPrompt "{}") as [s|] eqn:Hbox.
  2:{ unfold_cmd. intros [= <- <- <-]. split; [done|]. by constructor. }
  destruct (String.eqb_spec s EmptyString) as [->|Hne1].
  { unfold_cmd. intros [= <- <- <-]. split; [done|].
    eapply transientData_none; eauto. }
  destruct (String.eqb_spec s "{}") as [->|Hne2].
  { unfold_cmd. intros [= <- <- <-]. split; [done|].
    eapply transientData_none; eauto. }
  cbn [negb andb].
  destruct (startsWith s "{") eqn:Hstart, (endsWith s "}") eqn:Hend;
    cbn [negb orb].
  2-4: unfold_cmd; intros [= <- <- <-]; split; [done|];
       by eapply transientData_malformed.
  rewrite !run_bind.
  destruct (JSON_parse s) as [e|v] eqn:Hparse.
  { unfold_cmd. intros [= <- <- <-]. split; [done|].
    by eapply transientData_malformed. }
  destruct (JSON_parse_object s v Hstart Hparse) as [m ->].
  unfold lift, as_object, mret at 1 2, Cmd_ret, cmd_ret.
  destruct (forEach_key (Object_keys m) m mgr) as [[t1 m1] r1] eqn:Hloop.
  destruct (forEach_key_inv _ _ _ _ _ _ Hloop) as (-> & -> & Hr1).
  destruct r1 as [td| |e]; [|done|].
  - unfold_cmd. rewrite Hloop. intros [= <- <- <-]. split; [done|].
    apply forEach_key_buffers in Hloop. by eapply transientData_parsed.
  - unfold_cmd. rewrite Hloop. intros [= <- <- <-]. split; [done|].
    by eapply transientData_malformed.
Qed.

(** The peer-targeting policy, by cases: [policy peers prompt selectPeers]
    gives the prompt shown for the list of peers, if any, and the policy in
    effect. *)
Inductive policy (peers : list PeerInfo) : list Event → option string → Prop :=
| policy_implied :
    length peers = 1 → policy peers [] (Some (DEFAULT cst))
| policy_asked :
    length peers ≠ 1 →
    policy peers [EShowQuickPick peerPolicyPrompt [DEFAULT cst; CUSTOM cst]]
      (showQuickPick w peerPolicyPrompt [DEFAULT cst; CUSTOM cst]).

Inductive peerTargets_step (channelName : option string) mgr :
  list Event → completion (IFabricClientConnection * list string * string) → Prop :=
| peers_no_connection error :
    getConnection mgr = None →
    peerTargets_step channelName mgr [] (Throw error)
| peers_info_throws connection error :
    getConnection mgr = Some connection →
    IFabricClientConnection.getChannelPeersInfo connection channelName = inl error →
    peerTargets_step channelName mgr [EGetChannelPeersInfo channelName] (Throw error)
| peers_none connection :
    getConnection mgr = Some connection →
    IFabricClientConnection.getChannelPeersInfo connection channelName = inr [] →
    peerTargets_step channelName mgr
      [EGetChannelPeersInfo channelName;
       ELog ERROR (Some "No channel peers available to target") None]
      Return
| peers_policy_dismissed connection peers prompt selectPeers :
    getConnection mgr = Some connection →
    IFabricClientConnection.getChannelPeersInfo connection channelName = inr peers →
    peers ≠ [] → policy peers prompt selectPeers →
    truthy selectPeers = false →
    peerTargets_step channelName mgr
      (EGetChannelPeersInfo channelName :: prompt) Return
| peers_default connection peers prompt selectPeers :
    getConnection mgr = Some connection →
    IFabricClientConnection.getChannelPeersInfo connection channelName = inr peers →
    peers ≠ [] → policy peers prompt selectPeers →
    truthy selectPeers = true → selectPeers ≠ Some (CUSTOM cst) →
    peerTargets_step channelName mgr
      (EGetChannelPeersInfo channelName :: prompt)
      (Normal (connection, [], EmptyString))
| peers_custom_dismissed connection peers prompt :
    getConnection mgr = Some connection →
    IFabricClientConnection.getChannelPeersInfo connection channelName = inr peers →
    peers ≠ [] → policy peers prompt (Some (CUSTOM cst)) →
    showChannelPeersQuickPick w peers = None
    ∨ showChannelPeersQuickPick w peers = Some [] →
    peerTargets_step channelName mgr
      (EGetChannelPeersInfo channelName :: prompt
       ++ [EShowChannelPeersQuickPick peers])
      Return
| peers_custom connection peers prompt peerTargets :
    getConnection mgr = Some connection →
    IFabricClientConnection.getChannelPeersInfo connection channelName = inr peers →
    peers ≠ [] → policy peers prompt (Some (CUSTOM cst)) →
    showChannelPeersQuickPick w peers = Some peerTargets → peerTargets ≠ [] →
    peerTargets_step channelName mgr
      (EGetChannelPeersInfo channelName :: prompt
       ++ [EShowChannelPeersQuickPick peers])
      (Normal (connection, map data peerTargets,
               " to peers " +:+ String.concat "," (map data peerTargets))).

Lemma resolvePeerTargets_inv channelName mgr t mgr' r :
  resolvePeerTargets cst w channelName mgr = (t, mgr', r) →
  mgr' = mgr ∧ peerTargets_step channelName mgr t r.
Proof.
  unfold resolvePeerTargets. rewrite run_bind. cbn [get_manager app].
  destruct (getConnection mgr) as [connection|] eqn:Hconn.
  2:{ unfold_cmd. intros [= <- <- <-]. split; [done|]. by constructor. }
  rewrite run_emit, run_bind.
  destruct (IFabricClientConnection.getChannelPeersInfo connection channelName)
    as [error|peers] eqn:Hinfo.
  { unfold_cmd. intros [= <- <- <-]. split; [done|]. by econstructor. }
  cbn [lift]. rewrite run_ret. cbn beta iota. rewrite run_bind.
  match goal with
  | |- context [match ?c mgr with _ => _ end] =>
      destruct (c mgr) as [[prompt m1] choice] eqn:Hchoice
  end.
  destruct (Nat.eqb_spec (length peers) 0) as [Hlen|Hlen].
  { apply nil_length_inv in Hlen as ->. unfold_cmd. simplify_eq/=.
    intros [= <- <- <-]. split; [done|]. by econstructor. }
  assert (peers ≠ []) as Hne by (by intros ->).
  assert (∃ selectPeers, policy peers prompt selectPeers ∧ m1 = mgr
                         ∧ choice = Normal selectPeers)
    as (selectPeers & Hpolicy & -> & ->).
  { destruct (Nat.eqb_spec (length peers) 1); unfold_cmd; simplify_eq/=;
      eexists; (split; [|done]); by constructor. }
  clear Hchoice. unfold_cmd. cbn.
  destruct (truthy selectPeers) eqn:Htruthy; cbn.
  2:{ intros [= <- <- <-]. split; [done|]. rewrite !app_nil_r.
      by eapply peers_policy_dismissed. }
  destruct (strict_eq selectPeers (CUSTOM cst)) eqn:Hcustom.
  2:{ intros [= <- <- <-]. split; [done|]. rewrite !app_nil_r.
      eapply peers_default; [done..|]. intros ->. cbn in Hcustom.
      by rewrite String.eqb_refl in Hcustom. }
  assert (selectPeers = Some (CUSTOM cst)) as ->.
  { destruct selectPeers as [s|]; [|done]. cbn in Hcustom.
    by apply String.eqb_eq in Hcustom as ->. }
  destruct (showChannelPeersQuickPick w peers) as [[|target targets]|] eqn:Hpick;
    cbn; intros [= <- <- <-]; (split; [done|]).
  - eapply peers_custom_dismissed; eauto.
  - by eapply (peers_custom _ _ _ _ _ (target :: targets)).
  - eapply peers_custom_dismissed; eauto.
Qed.

(** The callback: it announces the call, makes it once with the request
    built from the values gathered, reports its result or its error, and
    completes normally either way. *)
Lemma invoke_run evaluate connection target args transientData names text mgr :
  let '(action, actioning, actioned) := action_words evaluate in
  let request := request_of evaluate target args transientData names in
  ∃ announce, Forall is_announcement announce ∧
    invoke cst evaluate action actioning actioned connection target args
      transientData names text mgr =
    (announce ++ ESubmitTransaction request ::
       match IFabricClientConnection.submitTransaction connection request with
       | inr result =>
           success_report action actioned (Target.transactionName target) result
       | inl error => failure_report actioning error
       end,
     mgr, Normal tt).
Proof.
  destruct (action_words evaluate) as [[action actioning] actioned] eqn:Hwords.
  intros request. unfold invoke.
  assert (∀ r : IFabricClientConnection.Request → IFabricClientConnection.Request,
    (if evaluate
     then call_submitTransaction connection
            (r (IFabricClientConnection.Build_Request (Target.smartContract target)
               (Target.transactionName target) (Target.channelName target) args
               (Target.namespace target) transientData true names))
     else call_submitTransaction connection
            (r (IFabricClientConnection.Build_Request (Target.smartContract target)
               (Target.transactionName target) (Target.channelName target) args
               (Target.namespace target) transientData false names)))
    = call_submitTransaction connection (r request)) as Hcall
    by (intros r; subst request; unfold request_of; by destruct evaluate).
  specialize (Hcall id). cbn [id] in Hcall. rewrite Hcall. clear Hcall.
  unfold call_submitTransaction, failure_report, success_report.
  unfold_cmd. cbn.
  destruct (IFabricClientConnection.submitTransaction connection request)
    as [[msg [ends|]]|result] eqn:Hsdk;
    destruct (Nat.eqb (length args) 0),
      (String.eqb (entry_name (getGatewayRegistryEntry mgr)) (LOCAL_FABRIC cst));
    cbn;
    first
      [eexists [_; _; _]; split; cycle 1;
       [rewrite ?run_forEach_event, ?app_nil_r; reflexivity|by repeat constructor]
      |eexists [_; _]; split; cycle 1;
       [rewrite ?run_forEach_event, ?app_nil_r; reflexivity|by repeat constructor]].
Qed.

(** ** The runs of the command

    A run stops at the first step that returns or throws, with that
    completion, or goes through the five steps and completes normally. *)

Inductive stopped {A B} : completion A → completion B → Prop :=
| stopped_Return : stopped Return Return
| stopped_Throw error : stopped (Throw error) (Throw error).

Definition action_of (evaluate : bool) : string := (action_words evaluate).1.1.
Definition actioning_of (evaluate : bool) : string := (action_words evaluate).1.2.
Definition actioned_of (evaluate : bool) : string := (action_words evaluate).2.

Definition first_log (evaluate : bool) : Event :=
  ELog INFO None (Some (action_of evaluate +:+ "Transaction")).

(** What follows the SDK call in the trace. *)
Definition report (evaluate : bool) (connection : IFabricClientConnection)
    (request : IFabricClientConnection.Request) : list Event :=
  match IFabricClientConnection.submitTransaction connection request with
  | inr result =>
      success_report (action_of evaluate) (actioned_of evaluate)
        (IFabricClientConnection.txName request) result
  | inl error => failure_report (actioning_of evaluate) error
  end.

Inductive command_run (evaluate : bool) (treeItem : option TreeItem)
    (channelName smartContract : option string) mgr :
  list Event → FabricConnectionManager → completion unit → Prop :=
| run_stops_at_target t1 m1 r1 r :
    resolveTarget cst w (action_of evaluate) treeItem channelName smartContract mgr
      = (t1, m1, r1) →
    stopped r1 r →
    command_run evaluate treeItem channelName smartContract mgr
      (first_log evaluate :: t1) m1 r
| run_stops_at_arguments t1 m1 target t2 r2 r :
    resolveTarget cst w (action_of evaluate) treeItem channelName smartContract mgr
      = (t1, m1, Normal target) →
    arguments_step t2 r2 → stopped r2 r →
    command_run evaluate treeItem channelName smartContract mgr
      (first_log evaluate :: t1 ++ t2) m1 r
| run_stops_at_transientData t1 m1 target t2 args t3 r3 r :
    resolveTarget cst w (action_of evaluate) treeItem channelName smartContract mgr
      = (t1, m1, Normal target) →
    arguments_step t2 (Normal args) →
    transientData_step t3 r3 → stopped r3 r →
    command_run evaluate treeItem channelName smartContract mgr
      (first_log evaluate :: t1 ++ t2 ++ t3) m1 r
| run_stops_at_peerTargets t1 m1 target t2 args t3 transientData t4 r4 r :
    resolveTarget cst w (action_of evaluate) treeItem channelName smartContract mgr
      = (t1, m1, Normal target) →
    arguments_step t2 (Normal args) →
    transientData_step t3 (Normal transientData) →
    peerTargets_step (Target.channelName target) m1 t4 r4 → stopped r4 r →
    command_run evaluate treeItem channelName smartContract mgr
      (first_log evaluate :: t1 ++ t2 ++ t3 ++ t4) m1 r
| run_complete t1 m1 target t2 args t3 transientData t4 connection names text
      announce :
    resolveTarget cst w (action_of evaluate) treeItem channelName smartContract mgr
      = (t1, m1, Normal target) →
    arguments_step t2 (Normal args) →
    transientData_step t3 (Normal transientData) →
    peerTargets_step (Target.channelName target) m1 t4
      (Normal (connection, names, text)) →
    Forall is_announcement announce →
    command_run evaluate treeItem channelName smartContract mgr
      (first_log evaluate :: t1 ++ t2 ++ t3 ++ t4 ++ announce
       ++ ESubmitTransaction (request_of evaluate target args transientData names)
       :: report evaluate connection
            (request_of evaluate target args transientData names))
      m1 (Normal tt).

Lemma submitTransaction_run evaluate treeItem channelName smartContract mgr t mgr' r :
  submitTransaction cst w evaluate treeItem channelName smartContract mgr
    = (t, mgr', r) →
  command_run evaluate treeItem channelName smartContract mgr t mgr' r.
Proof.
  assert (action_words evaluate
          = (action_of evaluate, actioning_of evaluate, actioned_of evaluate))
    as Hwords by (by destruct evaluate).
  unfold submitTransaction.
  pose proof (invoke_run evaluate) as Hinvoke.
  rewrite Hwords in Hinvoke |- *. cbn zeta in Hinvoke.
  unfold first_log, report. rewrite run_emit, run_bind.
  destruct (resolveTarget _ _ _ _ _ _ mgr) as [[t1 m1] [target| |e1]] eqn:H1.
  2,3: intros [= <- <- <-]; eapply run_stops_at_target; [done|constructor].
  rewrite run_bind.
  destruct (promptArguments w m1) as [[t2 m2] r2] eqn:H2.
  apply promptArguments_inv in H2 as [-> H2].
  destruct r2 as [args| |e2].
  2,3: intros [= <- <- <-]; eapply run_stops_at_arguments; [done..|constructor].
  rewrite run_bind.
  destruct (promptTransientData w m1) as [[t3 m3] r3] eqn:H3.
  apply promptTransientData_inv in H3 as [-> H3].
  destruct r3 as [transientData| |e3].
  2,3: intros [= <- <- <-];
       eapply run_stops_at_transientData; [done..|constructor].
  rewrite run_bind.
  destruct (resolvePeerTargets cst w (Target.channelName target) m1)
    as [[t4 m4] r4] eqn:H4.
  apply resolvePeerTargets_inv in H4 as [-> H4].
  destruct r4 as [[[connection names] text]| |e4].
  2,3: intros [= <- <- <-];
       eapply run_stops_at_peerTargets; [done..|constructor].
  destruct (Hinvoke connection target args transientData names text m1)
    as (announce & Hannounce & ->).
  intros [= <- <- <-]. by eapply run_complete.
Qed.

(** ** Calls and telemetry in a trace *)

Definition is_call (e : Event) : Prop :=
  match e with ESubmitTransaction _ => True | _ => False end.

Definition is_telemetry (e : Event) : Prop :=
  match e with ESendTelemetryEvent _ => True | _ => False end.

(** An event of the steps that come before the callback. *)
Definition is_quiet (e : Event) : Prop := ¬ is_call e ∧ ¬ is_telemetry e.

Lemma elem_of_submit_calls t request :
  request ∈ submit_calls t ↔ ESubmitTransaction request ∈ t.
Proof.
  unfold submit_calls. rewrite list_elem_of_omap. split.
  - intros (e & He & Heq). destruct e; by simplify_eq.
  - intros He. by exists (ESubmitTransaction request).
Qed.

Lemma submit_calls_app t t' :
  submit_calls (t ++ t') = submit_calls t ++ submit_calls t'.
Proof. apply omap_app. Qed.

Lemma telemetry_events_app t t' :
  telemetry_events (t ++ t') = telemetry_events t ++ telemetry_events t'.
Proof. apply omap_app. Qed.

Lemma submit_calls_none t : Forall (λ e, ¬ is_call e) t → submit_calls t = [].
Proof.
  induction 1 as [|e t He _ IH]; [done|].
  unfold submit_calls in *. cbn. rewrite IH. by destruct e; cbn in *.
Qed.

Lemma telemetry_events_none t :
  Forall (λ e, ¬ is_telemetry e) t → telemetry_events t = [].
Proof.
  induction 1 as [|e t He _ IH]; [done|].
  unfold telemetry_events in *. cbn. rewrite IH. by destruct e; cbn in *.
Qed.

Lemma quiet_no_call t : Forall is_quiet t → Forall (λ e, ¬ is_call e) t.
Proof. intros H. eapply Forall_impl; [exact H|]. by intros e [? ?]. Qed.

Lemma quiet_no_telemetry t : Forall is_quiet t → Forall (λ e, ¬ is_telemetry e) t.
Proof. intros H. eapply Forall_impl; [exact H|]. by intros e [? ?]. Qed.

Lemma target_resolution_quiet t : Forall is_target_resolution t → Forall is_quiet t.
Proof.
  intros H. eapply Forall_impl; [exact H|].
  intros e He. split; intros Hc; by destruct e.
Qed.

Lemma announcement_quiet t : Forall is_announcement t → Forall is_quiet t.
Proof.
  intros H. eapply Forall_impl; [exact H|].
  intros e He. split; intros Hc; by destruct e.
Qed.

Lemma arguments_step_quiet t r : arguments_step t r → Forall is_quiet t.
Proof. destruct 1; repeat constructor; by intros []. Qed.

Lemma transientData_step_quiet t r : transientData_step t r → Forall is_quiet t.
Proof. destruct 1; repeat constructor; by intros []. Qed.

Lemma policy_quiet peers prompt selectPeers :
  policy peers prompt selectPeers → Forall is_quiet prompt.
Proof. destruct 1; repeat constructor; by intros []. Qed.

Lemma peerTargets_step_quiet channelName mgr t r :
  peerTargets_step channelName mgr t r → Forall is_quiet t.
Proof.
  destruct 1;
    repeat first [apply Forall_cons; split | apply Forall_app; split
                 | by apply Forall_nil | by eapply policy_quiet ];
    split; by intros [].
Qed.

Lemma report_no_call evaluate connection request :
  Forall (λ e, ¬ is_call e) (report evaluate connection request).
Proof.
  unfold report. destruct (IFabricClientConnection.submitTransaction _ _).
  - unfold failure_report. constructor; [by intros []|].
    apply Forall_map, Forall_true. by intros ? [].
  - unfold success_report. repeat constructor; by intros [].
Qed.

End Steps.

(** ** Reading a run *)

Lemma first_log_quiet evaluate : is_quiet (first_log evaluate).
Proof. split; by intros []. Qed.

(** Splits the membership hypotheses on a trace into its steps and closes
    the cases that the kind of event rules out. *)
Ltac split_elem :=
  repeat match goal with
  | H : _ ∈ [] |- _ => by apply elem_of_nil in H
  | H : _ ∈ _ :: _ |- _ => apply elem_of_cons in H as [H|H]
  | H : _ ∈ _ ++ _ |- _ => apply elem_of_app in H as [H|H]
  | H : _ = first_log _ |- _ => by (unfold first_log in H; inversion H)
  | H : ESubmitTransaction _ = ESubmitTransaction _ |- _ =>
      injection H as H; try subst
  | H : ?x = ?y :> Event |- _ => by inversion H
  end.

(** The run of the command as a trace, a final state of the connection
    manager and a completion. *)
Ltac get_run Hrun :=
  match goal with
  | |- context [submitTransaction ?cst ?w ?ev ?ti ?ch ?sc ?mgr] =>
      let t := fresh "t" in
      let m := fresh "mgr'" in
      let r := fresh "r" in
      destruct (submitTransaction cst w ev ti ch sc mgr) as [[t m] r] eqn:Hrun;
      apply submitTransaction_run in Hrun;
      cbn [trace outcome fst snd] in *
  end.

Section Runs.

Context `{rt : JsRuntime} (cst : Constants) (w : World).

(** A run that does not complete normally makes no SDK call and sends no
    telemetry. *)
Lemma stopped_run_quiet evaluate treeItem channelName smartContract mgr t mgr' r :
  command_run cst w evaluate treeItem channelName smartContract mgr t mgr' r →
  r ≠ Normal tt → Forall is_quiet t.
Proof.
  pose proof (resolveTarget_events cst w (action_of evaluate) treeItem
                channelName smartContract mgr) as H1.
  destruct 1 as [? ? ? ? Heq|? ? ? ? ? ? Heq H2|? ? ? ? ? ? ? ? Heq H2 H3
                |? ? ? ? ? ? ? ? ? ? Heq H2 H3 H4|]; [..|done]; intros _;
    rewrite Heq in H1; cbn [trace fst] in H1;
    apply target_resolution_quiet in H1;
    try apply arguments_step_quiet in H2;
    try apply transientData_step_quiet in H3;
    try apply peerTargets_step_quiet in H4;
    (apply Forall_cons; split; [apply first_log_quiet|]);
    by rewrite ?Forall_app.
Qed.

(** A run that completes normally makes exactly one SDK call. *)
Lemma complete_run_calls t1 t2 t3 t4 announce evaluate connection request channelName mgr r2 r3 r4 :
  Forall is_target_resolution t1 → arguments_step w t2 r2 →
  transientData_step w t3 r3 → peerTargets_step cst w channelName mgr t4 r4 →
  Forall is_announcement announce →
  submit_calls (first_log evaluate :: t1 ++ t2 ++ t3 ++ t4 ++ announce
                ++ ESubmitTransaction request :: report evaluate connection request)
  = [request].
Proof.
  intros H1%target_resolution_quiet%quiet_no_call%submit_calls_none
    H2%arguments_step_quiet%quiet_no_call%submit_calls_none
    H3%transientData_step_quiet%quiet_no_call%submit_calls_none
    H4%peerTargets_step_quiet%quiet_no_call%submit_calls_none
    H5%announcement_quiet%quiet_no_call%submit_calls_none.
  change (first_log evaluate :: ?t) with ([first_log evaluate] ++ t).
  change (ESubmitTransaction request :: ?t)
    with ([ESubmitTransaction request] ++ t).
  rewrite !submit_calls_app, H1, H2, H3, H4, H5.
  by rewrite (submit_calls_none _ (report_no_call _ _ _)).
Qed.

End Runs.

Section Members.

Context `{rt : JsRuntime} (cst : Constants) (w : World).

(** The events of each step. *)
Lemma arguments_step_elem t r e :
  arguments_step w t r → e ∈ t →
  e = EShowInputBox argsPrompt "[]"
  ∨ ∃ msg, e = ELog ERROR (Some ("Error with transaction arguments: " +:+ msg)) None.
Proof. destruct 1; intros He; split_elem; subst; eauto. Qed.

Lemma transientData_step_elem t r e :
  transientData_step w t r → e ∈ t →
  e = EShowInputBox transientDataPrompt "{}"
  ∨ ∃ msg, e = ELog ERROR
                 (Some ("Error with transaction transient data: " +:+ msg)) None.
Proof. destruct 1; intros He; split_elem; subst; eauto. Qed.

Lemma policy_elem peers prompt selectPeers e :
  policy cst w peers prompt selectPeers → e ∈ prompt →
  e = EShowQuickPick peerPolicyPrompt [DEFAULT cst; CUSTOM cst] ∧ length peers ≠ 1.
Proof. destruct 1; intros He; split_elem; by subst. Qed.

Lemma peerTargets_step_elem channelName mgr t r e :
  peerTargets_step cst w channelName mgr t r → e ∈ t →
  e = EGetChannelPeersInfo channelName
  ∨ e = ELog ERROR (Some "No channel peers available to target") None
  ∨ is_peer_prompt e.
Proof.
  destruct 1; intros He; split_elem; subst; eauto;
    try (match goal with
         | Hp : policy _ _ _ _ _, H : _ ∈ _ |- _ =>
             destruct (policy_elem _ _ _ _ Hp H) as [-> _]
         end);
    by (right; right).
Qed.

(** A step that hands over peer targets has asked for the channel peers and
    then shown only peer prompts. *)
Lemma peerTargets_step_Normal channelName mgr t connection names text :
  peerTargets_step cst w channelName mgr t (Normal (connection, names, text)) →
  ∃ prompts, t = EGetChannelPeersInfo channelName :: prompts
             ∧ Forall is_peer_prompt prompts
             ∧ getConnection mgr = Some connection.
Proof.
  inversion 1 as [| | | |? ? ? ? ? ? ? Hpolicy|
                 |? ? ? ? ? ? ? Hpolicy]; subst;
    eexists; (split; [done|]); (split; [|done]);
    destruct Hpolicy; by repeat constructor.
Qed.

(** A run in which the SDK is called is a complete run, and the request is
    the one built from what the four steps before gathered. *)
Lemma call_inv evaluate treeItem channelName smartContract mgr t mgr' r request :
  command_run cst w evaluate treeItem channelName smartContract mgr t mgr' r →
  ESubmitTransaction request ∈ t →
  ∃ t1 target t2 args t3 transientData t4 connection names text announce,
    resolveTarget cst w (action_of evaluate) treeItem channelName smartContract mgr
      = (t1, mgr', Normal target)
    ∧ arguments_step w t2 (Normal args)
    ∧ transientData_step w t3 (Normal transientData)
    ∧ peerTargets_step cst w (Target.channelName target) mgr' t4
        (Normal (connection, names, text))
    ∧ Forall is_announcement announce
    ∧ request = request_of evaluate target args transientData names
    ∧ t = first_log evaluate :: t1 ++ t2 ++ t3 ++ t4 ++ announce
          ++ ESubmitTransaction request :: report evaluate connection request
    ∧ r = Normal tt.
Proof.
  intros Hrun Hreq%elem_of_submit_calls.
  pose proof (stopped_run_quiet _ _ _ _ _ _ _ _ _ _ Hrun) as Hquiet.
  pose proof (resolveTarget_events cst w (action_of evaluate) treeItem
                channelName smartContract mgr) as H1.
  destruct Hrun as [? ? ? ? Heq Hstop|? ? ? ? ? ? Heq H2 Hstop
                   |? ? ? ? ? ? ? ? Heq H2 H3 Hstop
                   |? ? ? ? ? ? ? ? ? ? Heq H2 H3 H4 Hstop
                   |? ? ? ? ? ? ? ? ? ? ? ? Heq H2 H3 H4 H5].
  1-4: assert (r ≠ Normal ()) as Hr by (by inversion Hstop);
       apply Hquiet, quiet_no_call, submit_calls_none in Hr;
       rewrite Hr in Hreq; by apply elem_of_nil in Hreq.
  rewrite Heq in H1. cbn [trace fst] in H1.
  erewrite complete_run_calls in Hreq by done.
  apply list_elem_of_singleton in Hreq as ->.
  by repeat eexists.
Qed.

End Members.

(** * The claims *)

(** C1.  Once the argument prompt has been answered with a non-empty string
    [s]: if [s] is malformed (it does not both start with an opening and end
    with a closing bracket, or [JSON.parse] rejects it), the command logs an
    error that names the arguments, never calls the SDK and returns; and a
    request reaches the SDK only with [s] of the bracketed shape, its
    arguments being the array [s] parses to. *)
Theorem C1_malformed_arguments `{rt : JsRuntime} (cst : Constants) (w : World)
    (evaluate : bool) (treeItem : option TreeItem)
    (channelName smartContract : option string) (mgr : FabricConnectionManager)
    (s : string) :
  let run := submitTransaction cst w evaluate treeItem channelName smartContract mgr in
  EShowInputBox argsPrompt "[]" ∈ trace run →
  showInputBox w argsPrompt "[]" = Some s →
  s ≠ EmptyString →
  (startsWith s "[" && endsWith s "]" = false ∨ (∃ e, JSON_parse s = inl e) →
   (∃ msg, ELog ERROR (Some ("Error with transaction arguments: " +:+ msg)) None
           ∈ trace run)
   ∧ submit_calls (trace run) = []
   ∧ outcome run = Return)
  ∧ (∀ request, ESubmitTransaction request ∈ trace run →
       startsWith s "[" = true ∧ endsWith s "]" = true
       ∧ JSON_parse s = inr (JsArray (IFabricClientConnection.args request))).
Proof.
  intros run. subst run. get_run Hrun. intros Hbox Hs Hne.
  pose proof (resolveTarget_events cst w (action_of evaluate) treeItem
                channelName smartContract mgr) as H1.
  assert (∀ a, arguments_step w [EShowInputBox argsPrompt "[]"] (Normal a) →
            startsWith s "[" = true ∧ endsWith s "]" = true
            ∧ JSON_parse s = inr (JsArray a)) as Hparsed.
  { intros a Hstep. inversion Hstep; simplify_eq. done. }
  assert (∀ t2 a, arguments_step w t2 (Normal a) →
            t2 = [EShowInputBox argsPrompt "[]"]) as Hshape
    by (intros t2 a Hstep; by inversion Hstep).
  assert (∀ (P : Prop) a, arguments_step w [EShowInputBox argsPrompt "[]"] (Normal a) →
            startsWith s "[" && endsWith s "]" = false ∨ (∃ e, JSON_parse s = inl e) →
            P) as Hwell.
  { intros P a (Hstart & Hend & Hparse)%Hparsed [Hbad|[e He]].
    - by rewrite Hstart, Hend in Hbad.
    - by rewrite Hparse in He. }
  pose proof (stopped_run_quiet _ _ _ _ _ _ _ _ _ _ Hrun) as Hquiet.
  inversion Hrun as [? ? ? ? Heq Hstop|? ? ? ? ? ? Heq H2 Hstop
                    |? ? ? ? ? ? ? ? Heq H2 H3 Hstop
                    |? ? ? ? ? ? ? ? ? ? Heq H2 H3 H4 Hstop
                    |? ? ? ? ? ? ? ? ? ? ? ? Heq H2 H3 H4 H5];
    subst; rewrite Heq in H1; cbn [trace fst] in H1.
  - (* stopped while resolving the target: the prompt was not shown *)
    split_elem. rewrite Forall_forall in H1. by apply H1 in Hbox.
  - (* stopped at the argument prompt *)
    assert (r ≠ Normal ()) as Hr by (by inversion Hstop).
    apply Hquiet, quiet_no_call, submit_calls_none in Hr.
    split.
    + intros _. inversion H2; simplify_eq; [inversion Hstop|].
      split; [|split; [done|by inversion Hstop]].
      eexists. rewrite elem_of_cons, !elem_of_app, !elem_of_cons. eauto 10.
    + intros request Hreq%elem_of_submit_calls. rewrite Hr in Hreq.
      by apply elem_of_nil in Hreq.
  - assert (r ≠ Normal ()) as Hr by (by inversion Hstop).
    apply Hquiet, quiet_no_call, submit_calls_none in Hr.
    pose proof (Hshape _ _ H2) as ->. split; [by eapply Hwell|].
    intros request Hreq%elem_of_submit_calls. rewrite Hr in Hreq.
    by apply elem_of_nil in Hreq.
  - assert (r ≠ Normal ()) as Hr by (by inversion Hstop).
    apply Hquiet, quiet_no_call, submit_calls_none in Hr.
    pose proof (Hshape _ _ H2) as ->. split; [by eapply Hwell|].
    intros request Hreq%elem_of_submit_calls. rewrite Hr in Hreq.
    by apply elem_of_nil in Hreq.
  - pose proof (Hshape _ _ H2) as ->. split; [by eapply Hwell|].
    intros request Hreq%elem_of_submit_calls.
    erewrite complete_run_calls in Hreq by done.
    apply list_elem_of_singleton in Hreq as ->. by apply Hparsed.
Qed.

(** Finds an event in the trace of a concrete run. *)
Ltac in_trace :=
  vm_compute;
  repeat first [apply list_elem_of_here | apply list_elem_of_further].

Lemma C1_malformed_arguments_witness :
  let w := Scenario.user (Some "[1, 2") (Some "{}") None None in
  let run :=
    submitTransaction Scenario.constants w false (Some Scenario.transactionItem)
      None None (Scenario.connected (Scenario.connection [Scenario.peer0] (inr None))) in
  (∃ msg, ELog ERROR (Some ("Error with transaction arguments: " +:+ msg)) None
          ∈ trace run)
  ∧ submit_calls (trace run) = []
  ∧ outcome run = Return.
Proof.
  intros w run.
  refine (proj1 (C1_malformed_arguments Scenario.constants w false
                   (Some Scenario.transactionItem) None None
                   (Scenario.connected (Scenario.connection [Scenario.peer0] (inr None)))
                   "[1, 2" _ _ _) _).
  - in_trace.
  - reflexivity.
  - discriminate.
  - left. reflexivity.
Defined.

(** Turns the membership of an event in the trace of a step into what the
    event can be. *)
Ltac elem_kinds :=
  repeat match goal with
  | H : ?e ∈ ?t, F : Forall is_target_resolution ?t |- _ =>
      let K := fresh "K" in
      pose proof (proj1 (Forall_forall _ _) F _ H) as K; clear H;
      try (by destruct K)
  | H : ?e ∈ ?t, S : arguments_step _ ?t _ |- _ =>
      eapply arguments_step_elem in H as [H|[? H]]; [| |exact S]
  | H : ?e ∈ ?t, S : transientData_step _ ?t _ |- _ =>
      eapply transientData_step_elem in H as [H|[? H]]; [| |exact S]
  | H : ?e ∈ ?t, S : peerTargets_step _ _ _ _ ?t _ |- _ =>
      eapply peerTargets_step_elem in H as [H|[H|H]]; [| | |exact S]
  end.

(** Identifies the connection and the list of peers of a peer-targeting
    step with the ones at hand. *)
Ltac same_connection Hconn Hinfo :=
  try match goal with
      | H : getConnection _ = _ |- _ =>
          rewrite Hconn in H; first [discriminate H | injection H as <-]
      end;
  try match goal with
      | H : IFabricClientConnection.getChannelPeersInfo _ _ = _ |- _ =>
          rewrite Hinfo in H; first [discriminate H | injection H as <-]
      end.

(** C2.  When the channel has no peers, the command logs the error, returns,
    shows no peer prompt and never calls the SDK. *)
Theorem C2_no_channel_peers `{rt : JsRuntime} (cst : Constants) (w : World)
    (evaluate : bool) (treeItem : option TreeItem)
    (channelName smartContract : option string) (mgr : FabricConnectionManager)
    (connection : IFabricClientConnection) (channel : option string) :
  let run := submitTransaction cst w evaluate treeItem channelName smartContract mgr in
  EGetChannelPeersInfo channel ∈ trace run →
  getConnection (final_manager run) = Some connection →
  IFabricClientConnection.getChannelPeersInfo connection channel = inr [] →
  ELog ERROR (Some "No channel peers available to target") None ∈ trace run
  ∧ outcome run = Return
  ∧ (∀ e, e ∈ trace run → ¬ is_peer_prompt e)
  ∧ submit_calls (trace run) = [].
Proof.
  intros run. subst run. get_run Hrun. cbn [final_manager fst snd].
  intros Hget Hconn Hinfo.
  pose proof (stopped_run_quiet _ _ _ _ _ _ _ _ _ _ Hrun) as Hquiet.
  pose proof (resolveTarget_events cst w (action_of evaluate) treeItem
                channelName smartContract mgr) as H1.
  inversion Hrun as [? ? ? ? Heq Hstop|? ? ? ? ? ? Heq H2 Hstop
                    |? ? ? ? ? ? ? ? Heq H2 H3 Hstop
                    |? ? ? ? ? ? ? ? ? ? Heq H2 H3 H4 Hstop
                    |? ? ? ? ? ? ? ? ? ? ? ? Heq H2 H3 H4 H5];
    subst; rewrite Heq in H1; cbn [trace fst] in H1.
  1-3: split_elem; elem_kinds; done.
  - assert (channel = Target.channelName target) as ->.
    { split_elem; elem_kinds; try done. by simplify_eq. }
    clear Hget.
    inversion H4; subst; same_connection Hconn Hinfo; try done.
    split; [|split; [by inversion Hstop|split]].
    + rewrite elem_of_cons, !elem_of_app, !elem_of_cons. eauto 10.
    + intros e He Hprompt. split_elem; elem_kinds; subst; try done.
      by destruct e.
    + apply submit_calls_none, quiet_no_call, Hquiet. by inversion Hstop.
  - assert (channel = Target.channelName target) as ->.
    { apply peerTargets_step_Normal in H4 as (prompts & -> & Hprompts & _).
      rewrite Forall_forall in Hprompts.
      split_elem; elem_kinds; try done.
      - by apply Hprompts in Hget.
      - rewrite Forall_forall in H5. by apply H5 in Hget.
      - unfold report in Hget. case_match; unfold failure_report, success_report in Hget;
          split_elem. apply list_elem_of_fmap in Hget as (? & ? & ?). done. }
    inversion H4; subst; same_connection Hconn Hinfo; done.
Qed.

Lemma C2_no_channel_peers_witness :
  let w := Scenario.user (Some "[]") (Some "{}") None None in
  let connection := Scenario.connection [] (inr None) in
  let run :=
    submitTransaction Scenario.constants w false (Some Scenario.transactionItem)
      None None (Scenario.connected connection) in
  ELog ERROR (Some "No channel peers available to target") None ∈ trace run
  ∧ outcome run = Return
  ∧ (∀ e, e ∈ trace run → ¬ is_peer_prompt e)
  ∧ submit_calls (trace run) = [].
Proof.
  intros w connection run.
  apply (C2_no_channel_peers Scenario.constants w false
           (Some Scenario.transactionItem) None None
           (Scenario.connected connection) connection (Some "mychannel")).
  - in_trace.
  - reflexivity.
  - reflexivity.
Defined.

(** The SDK is called at most once in a run. *)
Lemma at_most_one_call `{rt : JsRuntime} (cst : Constants) (w : World)
    evaluate treeItem channelName smartContract mgr t mgr' r :
  command_run cst w evaluate treeItem channelName smartContract mgr t mgr' r →
  (length (submit_calls t) ≤ 1)%nat.
Proof.
  intros Hrun.
  pose proof (stopped_run_quiet _ _ _ _ _ _ _ _ _ _ Hrun) as Hquiet.
  pose proof (resolveTarget_events cst w (action_of evaluate) treeItem
                channelName smartContract mgr) as H1.
  destruct Hrun as [? ? ? ? Heq Hstop|? ? ? ? ? ? Heq H2 Hstop
                   |? ? ? ? ? ? ? ? Heq H2 H3 Hstop
                   |? ? ? ? ? ? ? ? ? ? Heq H2 H3 H4 Hstop
                   |? ? ? ? ? ? ? ? ? ? ? ? Heq H2 H3 H4 H5].
  1-4: assert (r ≠ Normal ()) as Hr by (by inversion Hstop);
       apply Hquiet, quiet_no_call, submit_calls_none in Hr; by rewrite Hr; cbn; lia.
  rewrite Heq in H1. cbn [trace fst] in H1.
  by erewrite complete_run_calls.
Qed.

(** C3.  The SDK is called at most once in a run, and a run that reaches the
    call completes normally: when the call throws, the error is logged under
    the words of the action, nothing is retried and nothing escapes. *)
Theorem C3_sdk_errors_are_caught `{rt : JsRuntime} (cst : Constants) (w : World)
    (evaluate : bool) (treeItem : option TreeItem)
    (channelName smartContract : option string) (mgr : FabricConnectionManager) :
  let run := submitTransaction cst w evaluate treeItem channelName smartContract mgr in
  (length (submit_calls (trace run)) ≤ 1)%nat
  ∧ ∀ request, ESubmitTransaction request ∈ trace run →
      outcome run = Normal tt
      ∧ ∀ connection error,
          getConnection (final_manager run) = Some connection →
          IFabricClientConnection.submitTransaction connection request = inl error →
          ELog ERROR
            (Some ("Error " +:+ actioning_of evaluate +:+ " transaction: "
                   +:+ message error)) None
          ∈ trace run.
Proof.
  intros run. subst run. get_run Hrun. cbn [final_manager fst snd].
  split; [by eapply at_most_one_call|].
  intros request Hreq.
  destruct (call_inv _ _ _ _ _ _ _ _ _ _ _ Hrun Hreq)
    as (t1 & target & t2 & args & t3 & td & t4 & conn & names & text & announce
        & H1 & H2 & H3 & H4 & H5 & -> & -> & ->).
  split; [done|]. intros connection error Hconn Hsdk.
  apply peerTargets_step_Normal in H4 as (prompts & -> & _ & Hconn').
  rewrite Hconn in Hconn'. injection Hconn' as <-.
  unfold report. rewrite Hsdk. unfold failure_report.
  rewrite elem_of_cons, !elem_of_app, !elem_of_cons. eauto 15.
Qed.

Lemma C3_sdk_errors_are_caught_witness :
  let w := Scenario.user (Some "[]") (Some "{}") None None in
  let connection := Scenario.connection [Scenario.peer0] (inl Scenario.endorsementError) in
  let run :=
    submitTransaction Scenario.constants w false (Some Scenario.transactionItem)
      None None (Scenario.connected connection) in
  (length (submit_calls (trace run)) = 1)%nat
  ∧ outcome run = Normal tt
  ∧ ELog ERROR
      (Some "Error submitting transaction: No valid responses from any peers") None
    ∈ trace run.
Proof.
  intros w connection run.
  pose proof (C3_sdk_errors_are_caught Scenario.constants w false
                (Some Scenario.transactionItem) None None
                (Scenario.connected connection)) as [_ Hcaught].
  split; [reflexivity|].
  destruct (Hcaught (hd (request_of false (Target.Build_t None EmptyString None EmptyString)
                           [] None [])
                        (submit_calls (trace run)))) as [Hnormal Hlogged].
  { in_trace. }
  split; [exact Hnormal|].
  exact (Hlogged connection Scenario.endorsementError eq_refl eq_refl).
Defined.

Lemma failure_report_no_telemetry actioning error :
  telemetry_events (failure_report actioning error) = [].
Proof.
  apply telemetry_events_none. unfold failure_report.
  constructor; [by intros []|]. apply Forall_map, Forall_true. by intros ? [].
Qed.

(** C4, amended.  In a run that reaches the SDK call, one telemetry event,
    named after the action, is sent when the call returns, and none when it
    throws. *)
Theorem C4_telemetry_after_success `{rt : JsRuntime} (cst : Constants) (w : World)
    (evaluate : bool) (treeItem : option TreeItem)
    (channelName smartContract : option string) (mgr : FabricConnectionManager)
    (request : IFabricClientConnection.Request)
    (connection : IFabricClientConnection) :
  let run := submitTransaction cst w evaluate treeItem channelName smartContract mgr in
  ESubmitTransaction request ∈ trace run →
  getConnection (final_manager run) = Some connection →
  telemetry_events (trace run) =
  match IFabricClientConnection.submitTransaction connection request with
  | inr _ => [(if evaluate then "evaluate" else "submit") +:+ " transaction"]
  | inl _ => []
  end.
Proof.
  intros run. subst run. get_run Hrun. cbn [final_manager fst snd].
  intros Hreq Hconn.
  destruct (call_inv _ _ _ _ _ _ _ _ _ _ _ Hrun Hreq)
    as (t1 & target & t2 & args & t3 & td & t4 & conn & names & text & announce
        & H1 & H2 & H3 & H4 & H5 & -> & -> & ->).
  pose proof (resolveTarget_events cst w (action_of evaluate) treeItem
                channelName smartContract mgr) as E1.
  rewrite H1 in E1. cbn [trace fst] in E1.
  apply target_resolution_quiet, quiet_no_telemetry, telemetry_events_none in E1.
  apply arguments_step_quiet, quiet_no_telemetry, telemetry_events_none in H2.
  apply transientData_step_quiet, quiet_no_telemetry, telemetry_events_none in H3.
  apply announcement_quiet, quiet_no_telemetry, telemetry_events_none in H5.
  pose proof (peerTargets_step_quiet _ _ _ _ _ _ H4) as E4.
  apply quiet_no_telemetry, telemetry_events_none in E4.
  apply peerTargets_step_Normal in H4 as (prompts & -> & _ & Hconn').
  rewrite Hconn in Hconn'. injection Hconn' as <-.
  change (first_log evaluate :: ?t) with ([first_log evaluate] ++ t).
  change (ESubmitTransaction ?r :: ?t) with ([ESubmitTransaction r] ++ t).
  rewrite !telemetry_events_app, E1, H2, H3, E4, H5. cbn [app].
  unfold report.
  destruct (IFabricClientConnection.submitTransaction connection _).
  - by rewrite failure_report_no_telemetry.
  - by destruct evaluate.
Qed.

Lemma C4_telemetry_after_success_witness :
  let w := Scenario.user (Some "[]") (Some "{}") None None in
  let connection := Scenario.connection [Scenario.peer0] (inr (Some "ok")) in
  let run :=
    submitTransaction Scenario.constants w true (Some Scenario.transactionItem)
      None None (Scenario.connected connection) in
  telemetry_events (trace run) = ["evaluate transaction"].
Proof.
  intros w connection run.
  apply (C4_telemetry_after_success Scenario.constants w true
           (Some Scenario.transactionItem) None None
           (Scenario.connected connection)
           (request_of true
              {| Target.smartContract := Some "asset-chaincode";
                 Target.transactionName := "transfer";
                 Target.channelName := Some "mychannel";
                 Target.namespace := "Asset" |} [] None [])
           connection).
  - in_trace.
  - reflexivity.
Defined.

(** C4, as stated, fails: when the SDK call throws, the run has reached the
    call and has sent no telemetry event. *)
Lemma C4_counterexample :
  let w := Scenario.user (Some "[]") (Some "{}") None None in
  let connection := Scenario.connection [Scenario.peer0] (inl Scenario.endorsementError) in
  let run :=
    submitTransaction Scenario.constants w false (Some Scenario.transactionItem)
      None None (Scenario.connected connection) in
  (∃ request, ESubmitTransaction request ∈ trace run)
  ∧ length (telemetry_events (trace run)) ≠ 1%nat.
Proof.
  split.
  - eexists. in_trace.
  - vm_compute. discriminate.
Qed.

(** C5.  A run that reaches the SDK call has gone, in this order, through
    the resolution of the target, the argument prompt, the transient-data
    prompt, the resolution of the peer targets and the announcement of the
    call; the call is followed by the report of its success or of its
    failure to the logger, and by nothing else. *)
Theorem C5_order_of_steps `{rt : JsRuntime} (cst : Constants) (w : World)
    (evaluate : bool) (treeItem : option TreeItem)
    (channelName smartContract : option string) (mgr : FabricConnectionManager)
    (request : IFabricClientConnection.Request) :
  let run := submitTransaction cst w evaluate treeItem channelName smartContract mgr in
  ESubmitTransaction request ∈ trace run →
  ∃ resolve channel prompts announce final,
    trace run =
      first_log evaluate :: resolve
      ++ [EShowInputBox argsPrompt "[]"]
      ++ [EShowInputBox transientDataPrompt "{}"]
      ++ (EGetChannelPeersInfo channel :: prompts)
      ++ announce
      ++ [ESubmitTransaction request]
      ++ final
    ∧ Forall is_target_resolution resolve
    ∧ Forall is_peer_prompt prompts
    ∧ Forall is_announcement announce
    ∧ ((∃ name popup output,
          final = [ESendTelemetryEvent name;
                   ELog SUCCESS (Some popup) (Some output);
                   EOutputShow])
       ∨ (∃ popup endorsements,
            final = ELog ERROR (Some popup) None :: endorsements
            ∧ Forall is_error_log endorsements)).
Proof.
  intros run. subst run. get_run Hrun. intros Hreq.
  destruct (call_inv _ _ _ _ _ _ _ _ _ _ _ Hrun Hreq)
    as (t1 & target & t2 & args & t3 & td & t4 & conn & names & text & announce
        & H1 & H2 & H3 & H4 & H5 & -> & -> & ->).
  pose proof (resolveTarget_events cst w (action_of evaluate) treeItem
                channelName smartContract mgr) as E1.
  rewrite H1 in E1. cbn [trace fst] in E1.
  apply peerTargets_step_Normal in H4 as (prompts & -> & Hprompts & _).
  assert (t2 = [EShowInputBox argsPrompt "[]"]) as -> by (by inversion H2).
  assert (t3 = [EShowInputBox transientDataPrompt "{}"]) as -> by (by inversion H3).
  eexists t1, _, prompts, announce, _. split; [reflexivity|].
  do 3 (split; [done|]).
  unfold report.
  destruct (IFabricClientConnection.submitTransaction conn _) as [error|result].
  - right. eexists _, _. split; [reflexivity|].
    apply Forall_map, Forall_true. done.
  - left. by eexists _, _, _.
Qed.

Lemma C5_order_of_steps_witness :
  let w := Scenario.user (Some "[1, 2]") (Some "{}")
             (Some "Custom peer targeting policy")
             (Some [{| item_label := "peer0.org2.example.com";
                       data := "peer0.org2.example.com" |}]) in
  let connection :=
    Scenario.connection [Scenario.peer0; Scenario.peer1] (inr (Some "moved")) in
  let run :=
    submitTransaction Scenario.constants w false None (Some "mychannel")
      (Some "asset-chaincode") (Scenario.connected connection) in
  let request :=
    request_of false
      {| Target.smartContract := Some "asset-chaincode";
         Target.transactionName := "transfer";
         Target.channelName := Some "mychannel";
         Target.namespace := "Asset" |}
      [JsNumber (Example.double_of_Z false 1); JsNumber (Example.double_of_Z false 2)]
      None ["peer0.org2.example.com"] in
  ESubmitTransaction request ∈ trace run
  ∧ ∃ resolve channel prompts announce final,
      trace run =
        first_log false :: resolve
        ++ [EShowInputBox argsPrompt "[]"]
        ++ [EShowInputBox transientDataPrompt "{}"]
        ++ (EGetChannelPeersInfo channel :: prompts)
        ++ announce
        ++ [ESubmitTransaction request]
        ++ final
      ∧ Forall is_target_resolution resolve
      ∧ Forall is_peer_prompt prompts
      ∧ Forall is_announcement announce
      ∧ ((∃ name popup output,
            final = [ESendTelemetryEvent name;
                     ELog SUCCESS (Some popup) (Some output);
                     EOutputShow])
         ∨ (∃ popup endorsements,
              final = ELog ERROR (Some popup) None :: endorsements
              ∧ Forall is_error_log endorsements)).
Proof.
  intros w connection run request.
  assert (ESubmitTransaction request ∈ trace run) as Hreq by in_trace.
  split; [exact Hreq|].
  exact (C5_order_of_steps Scenario.constants w false None (Some "mychannel")
           (Some "asset-chaincode") (Scenario.connected connection) request Hreq).
Defined.

(** C6.  The request handed to the SDK is built, in the order of the
    interface, from the contract, the transaction and the channel of the
    resolved target, the parsed arguments, the namespace of the target, the
    transient data, the flag the command was invoked with and the peer
    targets. *)
Theorem C6_request `{rt : JsRuntime} (cst : Constants) (w : World)
    (evaluate : bool) (treeItem : option TreeItem)
    (channelName smartContract : option string) (mgr : FabricConnectionManager)
    (request : IFabricClientConnection.Request) :
  let run := submitTransaction cst w evaluate treeItem channelName smartContract mgr in
  ESubmitTransaction request ∈ trace run →
  IFabricClientConnection.evaluateOnly request = evaluate
  ∧ ∃ t1 target t2 args t3 transientData t4 connection names text,
      resolveTarget cst w (if evaluate then "evaluate" else "submit")
        treeItem channelName smartContract mgr
        = (t1, final_manager run, Normal target)
      ∧ arguments_step w t2 (Normal args)
      ∧ transientData_step w t3 (Normal transientData)
      ∧ peerTargets_step cst w (Target.channelName target) (final_manager run) t4
          (Normal (connection, names, text))
      ∧ request =
          IFabricClientConnection.Build_Request
            (Target.smartContract target) (Target.transactionName target)
            (Target.channelName target) args (Target.namespace target)
            transientData evaluate names.
Proof.
  intros run. subst run. get_run Hrun. cbn [final_manager fst snd]. intros Hreq.
  destruct (call_inv _ _ _ _ _ _ _ _ _ _ _ Hrun Hreq)
    as (t1 & target & t2 & args & t3 & td & t4 & conn & names & text & announce
        & H1 & H2 & H3 & H4 & H5 & -> & -> & ->).
  split; [done|].
  exists t1, target, t2, args, t3, td, t4, conn, names, text.
  replace (if evaluate then "evaluate" else "submit") with (action_of evaluate)
    by (by destruct evaluate).
  done.
Qed.

Lemma C6_request_witness :
  let w := Scenario.user (Some "[1, 2]") (Some "{}") None None in
  let connection := Scenario.connection [Scenario.peer0] (inr None) in
  let run :=
    submitTransaction Scenario.constants w true (Some Scenario.transactionItem)
      None None (Scenario.connected connection) in
  let request :=
    IFabricClientConnection.Build_Request (Some "asset-chaincode") "transfer"
      (Some "mychannel")
      [JsNumber (Example.double_of_Z false 1); JsNumber (Example.double_of_Z false 2)]
      "Asset" None true [] in
  ESubmitTransaction request ∈ trace run
  ∧ IFabricClientConnection.evaluateOnly request = true.
Proof.
  intros w connection run request.
  assert (ESubmitTransaction request ∈ trace run) as Hreq by in_trace.
  split; [exact Hreq|].
  exact (proj1 (C6_request Scenario.constants w true (Some Scenario.transactionItem)
                  None None (Scenario.connected connection) request Hreq)).
Defined.

(** C8.  When the transient-data prompt was answered with a string other
    than the empty one and the text of the empty object, a request that
    reaches the SDK carries the object the string parses to, with every
    value replaced by a buffer made from it. *)
Theorem C8_transient_data_buffers `{rt : JsRuntime} (cst : Constants) (w : World)
    (evaluate : bool) (treeItem : option TreeItem)
    (channelName smartContract : option string) (mgr : FabricConnectionManager)
    (request : IFabricClientConnection.Request) (s : string) :
  let run := submitTransaction cst w evaluate treeItem channelName smartContract mgr in
  ESubmitTransaction request ∈ trace run →
  showInputBox w transientDataPrompt "{}" = Some s →
  s ≠ EmptyString → s ≠ "{}" →
  ∃ m td,
    JSON_parse s = inr (JsObject m)
    ∧ IFabricClientConnection.transientData request = Some td
    ∧ ∀ key,
        td !! key = None ∧ m !! key = None
        ∨ ∃ v bytes, m !! key = Some v ∧ Buffer_from v = inr bytes
                     ∧ td !! key = Some (JsBuffer bytes).
Proof.
  intros run. subst run. get_run Hrun. intros Hreq Hbox Hne1 Hne2.
  destruct (call_inv _ _ _ _ _ _ _ _ _ _ _ Hrun Hreq)
    as (t1 & target & t2 & args & t3 & td & t4 & conn & names & text & announce
        & H1 & H2 & H3 & H4 & H5 & -> & -> & ->).
  inversion H3 as [|s' Hbox' [?|?]|s' m td' Hbox' ? ? ? ? Hparse Hbuffers|];
    subst; rewrite Hbox in Hbox'; simplify_eq.
  by exists m, td'.
Qed.

(** C10.  When the transient-data prompt was answered with the empty string
    or with the text of the empty object, a request that reaches the SDK
    carries no transient data ([undefined]). *)
Theorem C10_no_transient_data `{rt : JsRuntime} (cst : Constants) (w : World)
    (evaluate : bool) (treeItem : option TreeItem)
    (channelName smartContract : option string) (mgr : FabricConnectionManager)
    (request : IFabricClientConnection.Request) (s : string) :
  let run := submitTransaction cst w evaluate treeItem channelName smartContract mgr in
  ESubmitTransaction request ∈ trace run →
  showInputBox w transientDataPrompt "{}" = Some s →
  s = EmptyString ∨ s = "{}" →
  IFabricClientConnection.transientData request = None.
Proof.
  intros run. subst run. get_run Hrun. intros Hreq Hbox Hs.
  destruct (call_inv _ _ _ _ _ _ _ _ _ _ _ Hrun Hreq)
    as (t1 & target & t2 & args & t3 & td & t4 & conn & names & text & announce
        & H1 & H2 & H3 & H4 & H5 & -> & -> & ->).
  inversion H3 as [|s' Hbox' ?|s' m td' Hbox' ? ? ? ? Hparse Hbuffers|];
    subst; rewrite Hbox in Hbox'; simplify_eq; [done|].
  by destruct Hs.
Qed.

Lemma C8_transient_data_buffers_witness :
  let s := "{" +:+ quoted "key" +:+ ": " +:+ quoted "value" +:+ "}" in
  let w := Scenario.user (Some "[]") (Some s) None None in
  let connection := Scenario.connection [Scenario.peer0] (inr None) in
  let run :=
    submitTransaction Scenario.constants w false (Some Scenario.transactionItem)
      None None (Scenario.connected connection) in
  let request :=
    IFabricClientConnection.Build_Request (Some "asset-chaincode") "transfer"
      (Some "mychannel") [] "Asset"
      (Some {[ "key" := JsBuffer (list_byte_of_string "value") ]}) false [] in
  ESubmitTransaction request ∈ trace run
  ∧ ∃ m td,
      JSON_parse s = inr (JsObject m)
      ∧ IFabricClientConnection.transientData request = Some td
      ∧ ∀ key,
          td !! key = None ∧ m !! key = None
          ∨ ∃ v bytes, m !! key = Some v ∧ Buffer_from v = inr bytes
                       ∧ td !! key = Some (JsBuffer bytes).
Proof.
  intros s w connection run request.
  assert (ESubmitTransaction request ∈ trace run) as Hreq by in_trace.
  split; [exact Hreq|].
  apply (C8_transient_data_buffers Scenario.constants w false
           (Some Scenario.transactionItem) None None
           (Scenario.connected connection) request s Hreq).
  - reflexivity.
  - discriminate.
  - discriminate.
Defined.

Lemma C10_no_transient_data_witness :
  let w := Scenario.user (Some "[]") (Some "{}") None None in
  let connection := Scenario.connection [Scenario.peer0] (inr None) in
  let run :=
    submitTransaction Scenario.constants w false (Some Scenario.transactionItem)
      None None (Scenario.connected connection) in
  let request :=
    IFabricClientConnection.Build_Request (Some "asset-chaincode") "transfer"
      (Some "mychannel") [] "Asset" None false [] in
  ESubmitTransaction request ∈ trace run
  ∧ IFabricClientConnection.transientData request = None.
Proof.
  intros w connection run request.
  assert (ESubmitTransaction request ∈ trace run) as Hreq by in_trace.
  split; [exact Hreq|].
  apply (C10_no_transient_data Scenario.constants w false
           (Some Scenario.transactionItem) None None
           (Scenario.connected connection) request "{}" Hreq).
  - reflexivity.
  - right. reflexivity.
Defined.

Section DefaultPolicy.

Context `{rt : JsRuntime} (cst : Constants) (w : World).

(** The report holds neither a peer prompt nor a request for the peers. *)
Lemma report_elem evaluate connection request e :
  e ∈ report evaluate connection request →
  ¬ is_peer_prompt e ∧ ∀ c, e ≠ EGetChannelPeersInfo c.
Proof.
  unfold report.
  destruct (IFabricClientConnection.submitTransaction connection _);
    unfold failure_report, success_report;
    intros He; split_elem; subst; try (split; [by intros []|done]).
  apply list_elem_of_fmap in He as (? & -> & ?). split; [by intros []|done].
Qed.

(** A run that asks for the channel peers has reached the peer-targeting
    step; every peer prompt of the run is shown in that step, and the peer
    targets of a request are the ones the step hands over. *)
Lemma peers_inv evaluate treeItem channelName smartContract mgr t mgr' r channel :
  command_run cst w evaluate treeItem channelName smartContract mgr t mgr' r →
  EGetChannelPeersInfo channel ∈ t →
  ∃ t4 r4,
    peerTargets_step cst w channel mgr' t4 r4
    ∧ (∀ e, e ∈ t → is_peer_prompt e → e ∈ t4)
    ∧ (∀ request, ESubmitTransaction request ∈ t →
         ∃ connection text,
           r4 = Normal (connection,
                        IFabricClientConnection.peerTargets request, text)).
Proof.
  intros Hrun Hget.
  pose proof (stopped_run_quiet _ _ _ _ _ _ _ _ _ _ Hrun) as Hquiet.
  pose proof (resolveTarget_events cst w (action_of evaluate) treeItem
                channelName smartContract mgr) as H1.
  inversion Hrun as [? ? ? ? Heq Hstop|? ? ? ? ? ? Heq H2 Hstop
                    |? ? ? ? ? ? ? ? Heq H2 H3 Hstop
                    |? ? ? ? ? ? ? ? ? ? Heq H2 H3 H4 Hstop
                    |? ? ? ? ? ? ? ? ? ? ? ? Heq H2 H3 H4 H5];
    subst; rewrite Heq in H1; cbn [trace fst] in H1.
  1-3: split_elem; elem_kinds; done.
  - assert (channel = Target.channelName target) as ->.
    { split_elem; elem_kinds; try done. by simplify_eq. }
    clear Hget. exists t4, r4. split; [done|split].
    + intros e He Hprompt.
      apply elem_of_cons in He as [->|He]; [by destruct Hprompt|].
      apply elem_of_app in He as [He|He]; [elem_kinds; by destruct e|].
      apply elem_of_app in He as [He|He]; [elem_kinds; by subst|].
      apply elem_of_app in He as [He|He]; [elem_kinds; by subst|done].
    + intros request Hreq%elem_of_submit_calls.
      rewrite submit_calls_none in Hreq; [by apply elem_of_nil in Hreq|].
      apply quiet_no_call, Hquiet. by inversion Hstop.
  - pose proof (peerTargets_step_Normal _ _ _ _ _ _ _ _ H4)
      as (prompts & Ht4 & Hprompts & _).
    rewrite Forall_forall in Hprompts.
    pose proof (proj1 (Forall_forall _ _) H5) as H5'.
    pose proof (report_elem evaluate connection
                  (request_of evaluate target args transientData names))
      as Hreport.
    assert (channel = Target.channelName target) as ->.
    { subst t4. split_elem; elem_kinds; try done.
      - by apply Hprompts in Hget.
      - by apply H5' in Hget.
      - apply Hreport in Hget as [_ Hget]. by specialize (Hget channel). }
    clear Hget. exists t4, (Normal (connection, names, text)).
    split; [done|split].
    + intros e He Hprompt.
      apply elem_of_cons in He as [->|He]; [by destruct Hprompt|].
      apply elem_of_app in He as [He|He]; [elem_kinds; by destruct e|].
      apply elem_of_app in He as [He|He]; [elem_kinds; by subst|].
      apply elem_of_app in He as [He|He]; [elem_kinds; by subst|].
      apply elem_of_app in He as [He|He]; [done|].
      apply elem_of_app in He as [He|He].
      { apply H5' in He. by destruct e as [[] [] []| | | | | | | | | | | |]. }
      apply elem_of_cons in He as [->|He]; [by destruct Hprompt|].
      by apply Hreport in He as [He _].
    + intros request Hreq%elem_of_submit_calls.
      erewrite complete_run_calls in Hreq by done.
      apply list_elem_of_singleton in Hreq as ->. by eexists _, _.
Qed.

(** With distinct policy names: a single peer means no peer prompt, and
    under the default policy, implied by a single peer or chosen at the
    prompt, the step hands over no peer target. *)
Lemma peerTargets_step_default channel mgr t r connection peers :
  DEFAULT cst ≠ CUSTOM cst →
  peerTargets_step cst w channel mgr t r →
  getConnection mgr = Some connection →
  IFabricClientConnection.getChannelPeersInfo connection channel = inr peers →
  (length peers = 1 → ∀ e, e ∈ t → ¬ is_peer_prompt e)
  ∧ (length peers = 1
     ∨ showQuickPick w peerPolicyPrompt [DEFAULT cst; CUSTOM cst]
       = Some (DEFAULT cst) →
     ∀ c names text, r = Normal (c, names, text) → names = []).
Proof.
  intros Hdistinct Hstep Hconn Hinfo.
  assert (∀ prompt, policy cst w peers prompt (Some (CUSTOM cst)) →
            length peers ≠ 1
            ∧ showQuickPick w peerPolicyPrompt [DEFAULT cst; CUSTOM cst]
              = Some (CUSTOM cst)) as Hcustom.
  { intros prompt Hp. inversion Hp; by simplify_eq. }
  assert (∀ prompt selectPeers, policy cst w peers prompt selectPeers →
            length peers = 1 → prompt = []) as Himplied.
  { intros prompt selectPeers Hp Hone. by inversion Hp. }
  inversion Hstep; subst; same_connection Hconn Hinfo;
    (split; [intros Hone e He Hprompt|intros Hdefault c names' text' Heq]);
    try done; try (by simplify_eq);
    try match goal with
        | Hp : policy _ _ _ _ (Some (CUSTOM cst)) |- _ =>
            apply Hcustom in Hp as [Hmany Hpick];
            by destruct Hdefault as [?|Hd]; [|rewrite Hd in Hpick; simplify_eq]
        end;
    try match goal with
        | Hp : policy _ _ _ _ (Some (CUSTOM cst)) |- _ =>
            by apply Hcustom in Hp as [Hmany Hpick]
        end;
    try match goal with
        | Hp : policy _ _ _ _ _ |- _ => rewrite (Himplied _ _ Hp Hone) in He
        end;
    split_elem; by subst.
Qed.

End DefaultPolicy.

(** C9.  With distinct names for the two policies: when the channel has
    exactly one peer no peer prompt is shown, and when the default policy is
    in effect, implied by the single peer or chosen at the policy prompt,
    every request that reaches the SDK has the empty list of peer
    targets. *)
Theorem C9_default_policy `{rt : JsRuntime} (cst : Constants) (w : World)
    (evaluate : bool) (treeItem : option TreeItem)
    (channelName smartContract : option string) (mgr : FabricConnectionManager)
    (connection : IFabricClientConnection) (channel : option string)
    (peers : list PeerInfo) :
  let run := submitTransaction cst w evaluate treeItem channelName smartContract mgr in
  DEFAULT cst ≠ CUSTOM cst →
  EGetChannelPeersInfo channel ∈ trace run →
  getConnection (final_manager run) = Some connection →
  IFabricClientConnection.getChannelPeersInfo connection channel = inr peers →
  (length peers = 1 → ∀ e, e ∈ trace run → ¬ is_peer_prompt e)
  ∧ (length peers = 1
     ∨ showQuickPick w peerPolicyPrompt [DEFAULT cst; CUSTOM cst]
       = Some (DEFAULT cst) →
     ∀ request, ESubmitTransaction request ∈ trace run →
       IFabricClientConnection.peerTargets request = []).
Proof.
  intros run. subst run. get_run Hrun. cbn [final_manager fst snd].
  intros Hdistinct Hget Hconn Hinfo.
  destruct (peers_inv _ _ _ _ _ _ _ _ _ _ _ Hrun Hget)
    as (t4 & r4 & Hstep & Hprompts & Hrequest).
  destruct (peerTargets_step_default _ _ _ _ _ _ _ _ Hdistinct Hstep Hconn Hinfo)
    as [Hnone Hdefault].
  split.
  - intros Hone e He Hprompt. by eapply Hnone, Hprompt; [|apply Hprompts].
  - intros Hd request Hreq.
    destruct (Hrequest request Hreq) as (c & text & Hr4).
    by eapply Hdefault.
Qed.

Lemma C9_default_policy_witness :
  let w := Scenario.user (Some "[]") (Some "{}") None None in
  let connection := Scenario.connection [Scenario.peer0] (inr None) in
  let run :=
    submitTransaction Scenario.constants w false (Some Scenario.transactionItem)
      None None (Scenario.connected connection) in
  (∀ e, e ∈ trace run → ¬ is_peer_prompt e)
  ∧ (∀ request, ESubmitTransaction request ∈ trace run →
       IFabricClientConnection.peerTargets request = []).
Proof.
  intros w connection run.
  destruct (C9_default_policy Scenario.constants w false
              (Some Scenario.transactionItem) None None
              (Scenario.connected connection) connection (Some "mychannel")
              [Scenario.peer0]) as [Hprompt Htargets].
  - discriminate.
  - in_trace.
  - reflexivity.
  - reflexivity.
  - split.
    + exact (Hprompt eq_refl).
    + exact (Htargets (or_introl eq_refl)).
Defined.

(** ** The template *)

Section TemplateStubs.

Import Template.

Implicit Types (parameter : Param) (ty : string).

Definition declares parameter ty : Prop :=
  ∃ s, schema parameter = Some s ∧ type s = Some ty.

Definition stub_name parameter : string := replace (name parameter) dquote_char.

Definition const_line parameter (value : string) : string :=
  indent +:+ "const " +:+ escapeXML (stub_name parameter) +:+ " = " +:+ value +:+ ";".

(** The four declared types the template knows, and a parameter whose
    schema declares no type, get a declaration and an entry in [args]. *)
Lemma stub_string parameter :
  declares parameter "string" →
  stub parameter = ([" " +:+ stub_name parameter], [const_line parameter "'EXAMPLE'"]).
Proof. intros (s & Hs & Hty). unfold stub. by rewrite Hs; cbn; rewrite Hty. Qed.

Lemma stub_number parameter :
  declares parameter "number" →
  stub parameter
  = ([" " +:+ stub_name parameter +:+ ".toString()"], [const_line parameter "0"]).
Proof. intros (s & Hs & Hty). unfold stub. by rewrite Hs; cbn; rewrite Hty. Qed.

Lemma stub_boolean parameter :
  declares parameter "boolean" →
  stub parameter
  = ([" " +:+ stub_name parameter +:+ ".toString()"], [const_line parameter "true"]).
Proof. intros (s & Hs & Hty). unfold stub. by rewrite Hs; cbn; rewrite Hty. Qed.

Lemma stub_array parameter :
  declares parameter "array" →
  stub parameter
  = ([" JSON.stringify(" +:+ stub_name parameter +:+ ")"], [const_line parameter "[]"]).
Proof. intros (s & Hs & Hty). unfold stub. by rewrite Hs; cbn; rewrite Hty. Qed.

Lemma stub_untyped parameter :
  truthy (schema parameter ≫= type) = false →
  stub parameter
  = ([" JSON.stringify(" +:+ stub_name parameter +:+ ")"], [const_line parameter "{}"]).
Proof. intros Hty. unfold stub. by rewrite Hty. Qed.

(** Any other declared type, the type [object] among them, gets nothing. *)
Lemma stub_other parameter ty :
  declares parameter ty → ty ≠ EmptyString →
  ty ≠ "string" → ty ≠ "number" → ty ≠ "boolean" → ty ≠ "array" →
  stub parameter = ([], []).
Proof.
  intros (s & Hs & Hty) H0 H1 H2 H3 H4. unfold stub. rewrite Hs. cbn. rewrite Hty. cbn.
  by repeat match goal with
            | |- context [String.eqb ty ?c] => destruct (String.eqb_spec ty c)
            end.
Qed.

End TemplateStubs.

(** C7, at a parameter whose schema declares the type [object]: the template
    renders no declaration and no entry of [args] for it. *)
Theorem C7_object_parameter_dropped :
  let payload :=
    {| Template.name := "payload";
       Template.schema := Some {| Template.type := Some "object" |} |} in
  Template.stub payload = ([], [])
  ∧ Template.parameterBlock
      {| Template.transaction_name := "createAsset";
         Template.parameters := Some [payload] |}
    = ["            // TODO: populate transaction parameters";
       "            const args = [];"].
Proof. split; reflexivity. Qed.

(** * Further properties of the command *)

(** ** The steps of a run, with their equations *)

Section RunSteps.

Context `{rt : JsRuntime} (cst : Constants) (w : World).

Implicit Types (mgr : FabricConnectionManager) (t : list Event).

(** As [command_run], with the run of each step instead of its relation. *)
Inductive run_steps (evaluate : bool) (treeItem : option TreeItem)
    (channelName smartContract : option string) mgr :
  list Event → FabricConnectionManager → completion unit → Prop :=
| steps_target t1 m1 r1 r :
    resolveTarget cst w (action_of evaluate) treeItem channelName smartContract mgr
      = (t1, m1, r1) →
    stopped r1 r →
    run_steps evaluate treeItem channelName smartContract mgr
      (first_log evaluate :: t1) m1 r
| steps_arguments t1 m1 target t2 r2 r :
    resolveTarget cst w (action_of evaluate) treeItem channelName smartContract mgr
      = (t1, m1, Normal target) →
    promptArguments w m1 = (t2, m1, r2) → stopped r2 r →
    run_steps evaluate treeItem channelName smartContract mgr
      (first_log evaluate :: t1 ++ t2) m1 r
| steps_transientData t1 m1 target t2 args t3 r3 r :
    resolveTarget cst w (action_of evaluate) treeItem channelName smartContract mgr
      = (t1, m1, Normal target) →
    promptArguments w m1 = (t2, m1, Normal args) →
    promptTransientData w m1 = (t3, m1, r3) → stopped r3 r →
    run_steps evaluate treeItem channelName smartContract mgr
      (first_log evaluate :: t1 ++ t2 ++ t3) m1 r
| steps_peerTargets t1 m1 target t2 args t3 transientData t4 r4 r :
    resolveTarget cst w (action_of evaluate) treeItem channelName smartContract mgr
      = (t1, m1, Normal target) →
    promptArguments w m1 = (t2, m1, Normal args) →
    promptTransientData w m1 = (t3, m1, Normal transientData) →
    resolvePeerTargets cst w (Target.channelName target) m1 = (t4, m1, r4) →
    stopped r4 r →
    run_steps evaluate treeItem channelName smartContract mgr
      (first_log evaluate :: t1 ++ t2 ++ t3 ++ t4) m1 r
| steps_invoke t1 m1 target t2 args t3 transientData t4 connection names text t5 :
    resolveTarget cst w (action_of evaluate) treeItem channelName smartContract mgr
      = (t1, m1, Normal target) →
    promptArguments w m1 = (t2, m1, Normal args) →
    promptTransientData w m1 = (t3, m1, Normal transientData) →
    resolvePeerTargets cst w (Target.channelName target) m1
      = (t4, m1, Normal (connection, names, text)) →
    invoke cst evaluate (action_of evaluate) (actioning_of evaluate)
      (actioned_of evaluate) connection target args transientData names text m1
      = (t5, m1, Normal tt) →
    run_steps evaluate treeItem channelName smartContract mgr
      (first_log evaluate :: t1 ++ t2 ++ t3 ++ t4 ++ t5) m1 (Normal tt).

Lemma submitTransaction_steps evaluate treeItem channelName smartContract mgr t mgr' r :
  submitTransaction cst w evaluate treeItem channelName smartContract mgr
    = (t, mgr', r) →
  run_steps evaluate treeItem channelName smartContract mgr t mgr' r.
Proof.
  assert (action_words evaluate
          = (action_of evaluate, actioning_of evaluate, actioned_of evaluate))
    as Hwords by (by destruct evaluate).
  unfold submitTransaction.
  pose proof (invoke_run cst evaluate) as Hinvoke.
  rewrite Hwords in Hinvoke |- *. cbn zeta in Hinvoke.
  rewrite run_emit, run_bind.
  destruct (resolveTarget _ _ _ _ _ _ mgr) as [[t1 m1] [target| |e1]] eqn:H1.
  2,3: intros [= <- <- <-]; eapply steps_target; [done|constructor].
  rewrite run_bind.
  destruct (promptArguments w m1) as [[t2 m2] r2] eqn:H2.
  pose proof (promptArguments_inv _ _ _ _ _ H2) as [-> _].
  destruct r2 as [args| |e2].
  2,3: intros [= <- <- <-]; eapply steps_arguments; [done..|constructor].
  rewrite run_bind.
  destruct (promptTransientData w m1) as [[t3 m3] r3] eqn:H3.
  pose proof (promptTransientData_inv _ _ _ _ _ H3) as [-> _].
  destruct r3 as [transientData| |e3].
  2,3: intros [= <- <- <-]; eapply steps_transientData; [done..|constructor].
  rewrite run_bind.
  destruct (resolvePeerTargets cst w (Target.channelName target) m1)
    as [[t4 m4] r4] eqn:H4.
  pose proof (resolvePeerTargets_inv _ _ _ _ _ _ _ H4) as [-> _].
  destruct r4 as [[[connection names] text]| |e4].
  2,3: intros [= <- <- <-]; eapply steps_peerTargets; [done..|constructor].
  destruct (Hinvoke connection target args transientData names text m1)
    as (announce & Hannounce & Heq).
  rewrite Heq. intros [= <- <- <-]. by eapply steps_invoke.
Qed.

End RunSteps.

(** ** More on the steps *)

(** The command was invoked with no target and finds no connection: the one
    situation in which it runs the connect command. *)
Definition needs_gateway (treeItem : option TreeItem)
    (channelName smartContract : option string) (mgr : FabricConnectionManager) : bool :=
  is_undefined treeItem && negb (truthy channelName) && negb (truthy smartContract)
  && is_undefined (getConnection mgr).

(** Lines 165 to 175: what the callback tells the user before the call. *)
Definition announcement `{rt : JsRuntime} (cst : Constants) (actioning : string)
    (target : Target) (args : list JsValue) (text : string)
    (mgr : FabricConnectionManager) : list Event :=
  [EProgressReport (actioning +:+ " transaction " +:+ Target.transactionName target);
   ELog INFO None
     (Some (actioning +:+ " transaction " +:+ Target.transactionName target
            +:+ (if Nat.eqb (length args) 0 then " with no args"
                 else " with args " +:+ Array_toString args)
            +:+ " on channel " +:+ show (Target.channelName target) +:+ text))]
  ++ (if String.eqb (entry_name (getGatewayRegistryEntry mgr)) (LOCAL_FABRIC cst)
      then [EDockerOutputShow] else []).

Section MoreSteps.

Context `{rt : JsRuntime} (cst : Constants) (w : World).

Implicit Types (mgr : FabricConnectionManager) (t : list Event).

(** The connect command runs first and only when a gateway is needed; the
    manager changes only through it; and when it leaves the manager without a
    connection, the step returns at once. *)
Lemma resolveTarget_gateway action treeItem channelName smartContract mgr t mgr' r :
  resolveTarget cst w action treeItem channelName smartContract mgr = (t, mgr', r) →
  if needs_gateway treeItem channelName smartContract mgr
  then ∃ t', t = EExecuteCommand (CONNECT_TO_GATEWAY cst) :: t'
             ∧ mgr' = executeCommand w (CONNECT_TO_GATEWAY cst)
             ∧ (∀ c, EExecuteCommand c ∉ t')
             ∧ (getConnection mgr' = None → t' = [] ∧ r = Return)
  else mgr' = mgr ∧ ∀ c, EExecuteCommand c ∉ t.
Proof.
  unfold resolveTarget, needs_gateway.
  destruct treeItem as [[? ? ? ?|? [|? ?]]|]; cbn [is_undefined andb].
  1-3: unfold_cmd; cbn; repeat case_match; intros; simplify_eq/=;
       (split; [done|]); intros cmd Hcmd; by split_elem.
  destruct (truthy channelName), (truthy smartContract); cbn [negb andb].
  1-3: unfold_cmd; cbn; repeat case_match; intros; simplify_eq/=;
       (split; [done|]); intros cmd Hcmd; by split_elem.
  destruct (getConnection mgr) as [connection|] eqn:Hconn; cbn [is_undefined].
  - unfold_cmd; cbn. rewrite Hconn. cbn.
    repeat case_match; intros; simplify_eq/=;
      (split; [done|]); intros cmd Hcmd; by split_elem.
  - unfold_cmd; cbn. rewrite Hconn. cbn.
    destruct (getConnection (executeCommand w (CONNECT_TO_GATEWAY cst))) eqn:Hafter;
      cbn; repeat case_match; intros; simplify_eq/=;
      eexists; (split; [reflexivity|]); (split; [done|]);
      (split; [intros cmd Hcmd; by split_elem|]); intros ?; by simplify_eq.
Qed.


(** The target of a transaction tree item is read off the item, silently. *)
Lemma resolveTarget_transaction action chaincodeName name channel contractName
    channelName smartContract mgr :
  resolveTarget cst w action
    (Some (TransactionTreeItem chaincodeName name channel contractName))
    channelName smartContract mgr
  = ([], mgr,
     Normal {| Target.smartContract := Some chaincodeName;
               Target.transactionName := name;
               Target.channelName := Some channel;
               Target.namespace := contractName |}).
Proof. reflexivity. Qed.

(** For the tree item of an instantiated smart contract, the transaction is
    asked for with the name of the item and the label of its first channel. *)
Lemma resolveTarget_instantiated action name channel0 channels channelName
    smartContract mgr :
  resolveTarget cst w action (Some (InstantiatedTreeItem name (channel0 :: channels)))
    channelName smartContract mgr
  = ([EShowTransactionQuickPick ("Choose a transaction to " +:+ action)
        (Some name) (Some (label channel0))],
     mgr,
     match showTransactionQuickPick w ("Choose a transaction to " +:+ action)
             (Some name) (Some (label channel0)) with
     | None => Return
     | Some chosenTransaction =>
         Normal {| Target.smartContract := Some name;
                   Target.transactionName := tx_name (data chosenTransaction);
                   Target.channelName := Some (label channel0);
                   Target.namespace := tx_contract (data chosenTransaction) |}
     end).
Proof.
  unfold resolveTarget. unfold_cmd. cbn.
  destruct (showTransactionQuickPick w _ _ _); reflexivity.
Qed.


(** The callback, event by event. *)
Lemma invoke_trace evaluate connection target args transientData names text mgr :
  invoke cst evaluate (action_of evaluate) (actioning_of evaluate)
    (actioned_of evaluate) connection target args transientData names text mgr
  = (announcement cst (actioning_of evaluate) target args text mgr
     ++ ESubmitTransaction (request_of evaluate target args transientData names)
     :: report evaluate connection (request_of evaluate target args transientData names),
     mgr, Normal tt).
Proof.
  unfold invoke, announcement, report.
  assert ((if evaluate
   then call_submitTransaction connection
          (IFabricClientConnection.Build_Request (Target.smartContract target)
             (Target.transactionName target) (Target.channelName target) args
             (Target.namespace target) transientData true names)
   else call_submitTransaction connection
          (IFabricClientConnection.Build_Request (Target.smartContract target)
             (Target.transactionName target) (Target.channelName target) args
             (Target.namespace target) transientData false names))
   = call_submitTransaction connection
       (request_of evaluate target args transientData names)) as ->
    by (by destruct evaluate).
  unfold call_submitTransaction, failure_report, success_report.
  set (request := request_of evaluate target args transientData names).
  unfold_cmd. cbn.
  destruct (IFabricClientConnection.submitTransaction connection request)
    as [[msg [ends|]]|result] eqn:Hsdk;
    destruct (Nat.eqb (length args) 0),
      (String.eqb (entry_name (getGatewayRegistryEntry mgr)) (LOCAL_FABRIC cst));
    cbn; rewrite ?run_forEach_event, ?app_nil_r; reflexivity.
Qed.

End MoreSteps.

(** ** The anatomy of a run *)

Ltac get_steps Hrun :=
  match goal with
  | |- context [submitTransaction ?cst ?w ?ev ?ti ?ch ?sc ?mgr] =>
      let t := fresh "t" in
      let m := fresh "mgr'" in
      let r := fresh "r" in
      destruct (submitTransaction cst w ev ti ch sc mgr) as [[t m] r] eqn:Hrun;
      apply submitTransaction_steps in Hrun;
      cbn [trace outcome final_manager fst snd] in *
  end.

Section Anatomy.

Context `{rt : JsRuntime} (cst : Constants) (w : World).

Implicit Types (mgr : FabricConnectionManager) (t : list Event).

Lemma needs_gateway_spec treeItem channelName smartContract mgr :
  needs_gateway treeItem channelName smartContract mgr = true
  ↔ treeItem = None ∧ truthy channelName = false ∧ truthy smartContract = false
    ∧ getConnection mgr = None.
Proof.
  unfold needs_gateway.
  destruct treeItem, (truthy channelName), (truthy smartContract),
    (getConnection mgr); cbn;
    (split; [try done|by intros (? & ? & ? & ?)]).
Qed.

(** The events after the resolution of the target are of other kinds. *)
Lemma promptArguments_later mgr t mgr' r :
  promptArguments w mgr = (t, mgr', r) → Forall (λ e, ¬ is_target_resolution e) t.
Proof.
  intros [_ Hstep]%promptArguments_inv. destruct Hstep; repeat constructor; by intros [].
Qed.

Lemma promptTransientData_later mgr t mgr' r :
  promptTransientData w mgr = (t, mgr', r) →
  Forall (λ e, ¬ is_target_resolution e) t.
Proof.
  intros [_ Hstep]%promptTransientData_inv.
  destruct Hstep; repeat constructor; by intros [].
Qed.

Lemma resolvePeerTargets_later channelName mgr t mgr' r :
  resolvePeerTargets cst w channelName mgr = (t, mgr', r) →
  Forall (λ e, ¬ is_target_resolution e) t.
Proof.
  intros [_ Hstep]%resolvePeerTargets_inv. apply Forall_forall. intros e He.
  destruct (peerTargets_step_elem _ _ _ _ _ _ _ Hstep He) as [->|[->|Hprompt]];
    [by intros []..|].
  destruct e; first [by destruct Hprompt|by intros []].
Qed.

Lemma invoke_later evaluate connection target args transientData names text mgr t mgr' r :
  invoke cst evaluate (action_of evaluate) (actioning_of evaluate)
    (actioned_of evaluate) connection target args transientData names text mgr
  = (t, mgr', r) →
  Forall (λ e, ¬ is_target_resolution e) t.
Proof.
  rewrite invoke_trace. intros [= <- <- <-]. unfold announcement, report.
  cbn [app]. do 2 (constructor; [by intros []|]).
  apply Forall_app. split.
  - case_match; repeat constructor. by intros [].
  - constructor; [by intros []|].
    destruct (IFabricClientConnection.submitTransaction _ _).
    + unfold failure_report. constructor; [by intros []|].
      apply Forall_map, Forall_true. by intros ? [].
    + unfold success_report. repeat constructor; by intros [].
Qed.

(** A run is the first log, the resolution of the target and, when the
    target is resolved, events of other kinds; the final state of the manager
    is the one the resolution leaves. *)
Lemma run_anatomy evaluate treeItem channelName smartContract mgr t mgr' r :
  run_steps cst w evaluate treeItem channelName smartContract mgr t mgr' r →
  ∃ t1 r1 rest,
    resolveTarget cst w (action_of evaluate) treeItem channelName smartContract mgr
      = (t1, mgr', r1)
    ∧ t = first_log evaluate :: t1 ++ rest
    ∧ Forall (λ e, ¬ is_target_resolution e) rest
    ∧ ((∀ target, r1 ≠ Normal target) → rest = [] ∧ stopped r1 r).
Proof.
  destruct 1 as [? ? ? ? H1 Hstop|? ? ? ? ? ? H1 H2 Hstop
                |? ? ? ? ? ? ? ? H1 H2 H3 Hstop
                |? ? ? ? ? ? ? ? ? ? H1 H2 H3 H4 Hstop
                |? ? ? ? ? ? ? ? ? ? ? ? H1 H2 H3 H4 H5];
    try apply promptArguments_later in H2;
    try apply promptTransientData_later in H3;
    try apply resolvePeerTargets_later in H4;
    try apply invoke_later in H5.
  - exists t1, r1, []. rewrite app_nil_r. by split_and!.
  - exists t1, (Normal target), t2.
    split_and!; [done..|]. intros Hn; by destruct (Hn target).
  - exists t1, (Normal target), (t2 ++ t3).
    split_and!; [done|done|by apply Forall_app|].
    intros Hn; by destruct (Hn target).
  - exists t1, (Normal target), (t2 ++ t3 ++ t4).
    split_and!; [done|done|by rewrite !Forall_app|].
    intros Hn; by destruct (Hn target).
  - exists t1, (Normal target), (t2 ++ t3 ++ t4 ++ t5).
    split_and!; [done|done|by rewrite !Forall_app|].
    intros Hn; by destruct (Hn target).
Qed.

End Anatomy.

(** ** The gateway connection *)

(** X1.  The command runs the connect command exactly when it is invoked
    with no tree item, no channel and no smart contract while the manager has
    no connection, and it runs no other command; the state of the connection
    manager at the end of the run is the one the connect command leaves when
    it ran, and the initial one otherwise. *)
Theorem X1_connects_only_when_needed `{rt : JsRuntime} (cst : Constants) (w : World)
    (evaluate : bool) (treeItem : option TreeItem)
    (channelName smartContract : option string) (mgr : FabricConnectionManager) :
  let run := submitTransaction cst w evaluate treeItem channelName smartContract mgr in
  let needed :=
    treeItem = None ∧ truthy channelName = false ∧ truthy smartContract = false
    ∧ getConnection mgr = None in
  (∀ command, EExecuteCommand command ∈ trace run
              ↔ command = CONNECT_TO_GATEWAY cst ∧ needed)
  ∧ (needed → final_manager run = executeCommand w (CONNECT_TO_GATEWAY cst))
  ∧ (¬ needed → final_manager run = mgr).
Proof.
  intros run needed. subst run. get_steps Hrun.
  destruct (run_anatomy _ _ _ _ _ _ _ _ _ _ Hrun)
    as (t1 & r1 & rest & H1 & -> & Hrest & _).
  pose proof (resolveTarget_gateway _ _ _ _ _ _ _ _ _ _ H1) as Hgateway.
  pose proof (needs_gateway_spec treeItem channelName smartContract mgr) as Hspec.
  fold needed in Hspec. rewrite Forall_forall in Hrest.
  destruct (needs_gateway treeItem channelName smartContract mgr).
  - destruct Hgateway as (t' & -> & -> & Hnone & _).
    assert needed as Hneeded by (by apply Hspec).
    split_and!; [|done|done].
    intros command. split.
    + intros Hc. apply elem_of_cons in Hc as [Hc|Hc]; [by inversion Hc|].
      apply elem_of_app in Hc as [Hc|Hc]; [|by apply Hrest in Hc].
      apply elem_of_cons in Hc as [Hc|Hc]; [by simplify_eq|by apply Hnone in Hc].
    + intros [-> _]. apply list_elem_of_further, elem_of_app. left.
      apply list_elem_of_here.
  - destruct Hgateway as [-> Hnone].
    assert (¬ needed) as Hneeded by (intros Hn; by apply Hspec in Hn).
    split_and!; [|done|done].
    intros command. split; [|by intros [_ ?]].
    intros Hc. apply elem_of_cons in Hc as [Hc|Hc]; [by inversion Hc|].
    apply elem_of_app in Hc as [Hc|Hc]; [by apply Hnone in Hc|by apply Hrest in Hc].
Qed.

(** X2.  When the connect command leaves the manager without a connection
    (the user cancelled, or connecting failed), the command returns at once:
    the run is the first log and the connect command, and no prompt is
    shown. *)
Theorem X2_gateway_not_connected `{rt : JsRuntime} (cst : Constants) (w : World)
    (evaluate : bool) (channelName smartContract : option string)
    (mgr : FabricConnectionManager) :
  truthy channelName = false → truthy smartContract = false →
  getConnection mgr = None →
  getConnection (executeCommand w (CONNECT_TO_GATEWAY cst)) = None →
  submitTransaction cst w evaluate None channelName smartContract mgr
  = ([ELog INFO None (Some ((if evaluate then "evaluate" else "submit") +:+ "Transaction"));
      EExecuteCommand (CONNECT_TO_GATEWAY cst)],
     executeCommand w (CONNECT_TO_GATEWAY cst), Return).
Proof.
  intros Hch Hsc Hconn Hafter.
  destruct (submitTransaction cst w evaluate None channelName smartContract mgr)
    as [[t mgr'] r] eqn:Hrun.
  apply submitTransaction_steps in Hrun.
  destruct (run_anatomy _ _ _ _ _ _ _ _ _ _ Hrun)
    as (t1 & r1 & rest & H1 & -> & _ & Hstop).
  pose proof (resolveTarget_gateway _ _ _ _ _ _ _ _ _ _ H1) as Hgateway.
  assert (needs_gateway None channelName smartContract mgr = true) as Hneeded
    by (by apply needs_gateway_spec).
  rewrite Hneeded in Hgateway.
  destruct Hgateway as (t' & -> & -> & _ & Hreturn).
  destruct (Hreturn Hafter) as [-> ->].
  destruct Hstop as [-> Hstop]; [done|]. inversion Hstop.
  by destruct evaluate.
Qed.

Lemma X1_connects_only_when_needed_witness :
  let w := Scenario.user (Some "[]") (Some "{}") None None in
  let run :=
    submitTransaction Scenario.constants w false None None None Scenario.disconnected in
  EExecuteCommand "blockchainConnectionsExplorer.connectEntry" ∈ trace run
  ∧ final_manager run = Scenario.disconnected.
Proof.
  intros w run.
  destruct (X1_connects_only_when_needed Scenario.constants w false None None None
              Scenario.disconnected) as (Hconnect & Hfinal & _).
  split.
  - apply Hconnect. by split_and!.
  - apply Hfinal. by split_and!.
Defined.

Lemma X2_gateway_not_connected_witness :
  let w := Scenario.user (Some "[]") (Some "{}") None None in
  outcome (submitTransaction Scenario.constants w true None (Some EmptyString) None
             Scenario.disconnected)
  = Return.
Proof.
  intros w.
  by rewrite (X2_gateway_not_connected Scenario.constants w true (Some EmptyString)
                None Scenario.disconnected eq_refl eq_refl eq_refl eq_refl).
Defined.

(** ** Completions *)




(** ** Targets from the tree view *)

(** X5.  Invoked on a transaction tree item, the command asks nothing about
    the target: no command is run and no quick pick about the contract or
    the transaction is shown, and a request that reaches the SDK names the
    chaincode, the transaction, the channel and the contract of the item. *)
Theorem X5_transaction_tree_item `{rt : JsRuntime} (cst : Constants) (w : World)
    (evaluate : bool) (chaincodeName name channel contractName : string)
    (channelName smartContract : option string) (mgr : FabricConnectionManager) :
  let run :=
    submitTransaction cst w evaluate
      (Some (TransactionTreeItem chaincodeName name channel contractName))
      channelName smartContract mgr in
  (∀ e, e ∈ trace run → ¬ is_target_resolution e)
  ∧ (∀ request, ESubmitTransaction request ∈ trace run →
       IFabricClientConnection.contract request = Some chaincodeName
       ∧ IFabricClientConnection.txName request = name
       ∧ IFabricClientConnection.channel request = Some channel
       ∧ IFabricClientConnection.namespace request = contractName).
Proof.
  intros run. subst run. split.
  - get_steps Hrun.
    destruct (run_anatomy _ _ _ _ _ _ _ _ _ _ Hrun)
      as (t1 & r1 & rest & H1 & -> & Hrest & _).
    rewrite resolveTarget_transaction in H1. injection H1 as <- <- <-.
    rewrite Forall_forall in Hrest.
    intros e He. apply elem_of_cons in He as [->|He]; [by intros []|].
    by apply Hrest.
  - get_run Hrun. intros request Hreq.
    destruct (call_inv _ _ _ _ _ _ _ _ _ _ _ Hrun Hreq)
      as (t1 & target & t2 & args & t3 & td & t4 & conn & names & text & announce
          & H1 & _ & _ & _ & _ & -> & _ & _).
    rewrite resolveTarget_transaction in H1. by injection H1 as <- <- <-.
Qed.

(** X6.  Invoked on the tree item of an instantiated smart contract with at
    least one channel, the command asks for the transaction, first of all,
    with the name of the item and the label of its first channel, whatever
    channel or contract it was passed; a request that reaches the SDK is for
    that contract on that channel. *)
Theorem X6_instantiated_tree_item `{rt : JsRuntime} (cst : Constants) (w : World)
    (evaluate : bool) (name : string) (channel0 : ChannelTreeItem)
    (channels : list ChannelTreeItem)
    (channelName smartContract : option string) (mgr : FabricConnectionManager) :
  let run :=
    submitTransaction cst w evaluate
      (Some (InstantiatedTreeItem name (channel0 :: channels)))
      channelName smartContract mgr in
  trace run !! 1
  = Some (EShowTransactionQuickPick
            ("Choose a transaction to " +:+ (if evaluate then "evaluate" else "submit"))
            (Some name) (Some (label channel0)))
  ∧ (∀ request, ESubmitTransaction request ∈ trace run →
       IFabricClientConnection.contract request = Some name
       ∧ IFabricClientConnection.channel request = Some (label channel0)).
Proof.
  intros run. subst run. split.
  - get_steps Hrun.
    destruct (run_anatomy _ _ _ _ _ _ _ _ _ _ Hrun)
      as (t1 & r1 & rest & H1 & -> & _ & _).
    rewrite resolveTarget_instantiated in H1. injection H1 as <- <- <-.
    by destruct evaluate.
  - get_run Hrun. intros request Hreq.
    destruct (call_inv _ _ _ _ _ _ _ _ _ _ _ Hrun Hreq)
      as (t1 & target & t2 & args & t3 & td & t4 & conn & names & text & announce
          & H1 & _ & _ & _ & _ & -> & _ & _).
    rewrite resolveTarget_instantiated in H1.
    destruct (showTransactionQuickPick w _ _ _); by simplify_eq.
Qed.

Lemma X5_transaction_tree_item_witness :
  let w := Scenario.user (Some "[]") (Some "{}") None None in
  let connection := Scenario.connection [Scenario.peer0] (inr None) in
  let run :=
    submitTransaction Scenario.constants w false (Some Scenario.transactionItem)
      (Some "otherchannel") (Some "other-chaincode") (Scenario.connected connection) in
  let request :=
    IFabricClientConnection.Build_Request (Some "asset-chaincode") "transfer"
      (Some "mychannel") [] "Asset" None false [] in
  ESubmitTransaction request ∈ trace run
  ∧ IFabricClientConnection.contract request = Some "asset-chaincode"
  ∧ IFabricClientConnection.txName request = "transfer"
  ∧ IFabricClientConnection.channel request = Some "mychannel"
  ∧ IFabricClientConnection.namespace request = "Asset".
Proof.
  intros w connection run request.
  assert (ESubmitTransaction request ∈ trace run) as Hreq by in_trace.
  split; [exact Hreq|].
  exact (proj2 (X5_transaction_tree_item Scenario.constants w false
                  "asset-chaincode" "transfer" "mychannel" "Asset"
                  (Some "otherchannel") (Some "other-chaincode")
                  (Scenario.connected connection)) request Hreq).
Defined.

Lemma X6_instantiated_tree_item_witness :
  let w := Scenario.user (Some "[]") (Some "{}") None None in
  let connection := Scenario.connection [Scenario.peer0] (inr None) in
  let item :=
    InstantiatedTreeItem "asset-chaincode"
      [{| label := "mychannel" |}; {| label := "otherchannel" |}] in
  let run :=
    submitTransaction Scenario.constants w true (Some item) None None
      (Scenario.connected connection) in
  let request :=
    IFabricClientConnection.Build_Request (Some "asset-chaincode") "transfer"
      (Some "mychannel") [] "Asset" None true [] in
  ESubmitTransaction request ∈ trace run
  ∧ IFabricClientConnection.contract request = Some "asset-chaincode"
  ∧ IFabricClientConnection.channel request = Some "mychannel".
Proof.
  intros w connection item run request.
  assert (ESubmitTransaction request ∈ trace run) as Hreq by in_trace.
  split; [exact Hreq|].
  exact (proj2 (X6_instantiated_tree_item Scenario.constants w true
                  "asset-chaincode" {| label := "mychannel" |}
                  [{| label := "otherchannel" |}] None None
                  (Scenario.connected connection)) request Hreq).
Defined.

(** ** Transient data and dismissed prompts *)

(** X7.  Once the transient-data prompt has been answered with a string [s]
    other than the empty one and the text of the empty object: if [s] does
    not both start with an opening and end with a closing brace, or
    [JSON.parse] rejects it, or [Buffer.from] rejects one of the values of
    the parsed object, the command logs an error that names the transient
    data, never calls the SDK and returns. *)
Theorem X7_malformed_transient_data `{rt : JsRuntime} (cst : Constants) (w : World)
    (evaluate : bool) (treeItem : option TreeItem)
    (channelName smartContract : option string) (mgr : FabricConnectionManager)
    (s : string) :
  let run := submitTransaction cst w evaluate treeItem channelName smartContract mgr in
  EShowInputBox transientDataPrompt "{}" ∈ trace run →
  showInputBox w transientDataPrompt "{}" = Some s →
  s ≠ EmptyString → s ≠ "{}" →
  startsWith s "{" && endsWith s "}" = false
  ∨ (∃ e, JSON_parse s = inl e)
  ∨ (∃ m key v e, JSON_parse s = inr (JsObject m) ∧ m !! key = Some v
                  ∧ Buffer_from v = inl e) →
  (∃ msg, ELog ERROR (Some ("Error with transaction transient data: " +:+ msg)) None
          ∈ trace run)
  ∧ submit_calls (trace run) = []
  ∧ outcome run = Return.
Proof.
  intros run. subst run. get_run Hrun. intros Hbox Hs Hne1 Hne2 Hbad.
  pose proof (stopped_run_quiet _ _ _ _ _ _ _ _ _ _ Hrun) as Hquiet.
  pose proof (resolveTarget_events cst w (action_of evaluate) treeItem
                channelName smartContract mgr) as E1.
  assert (∀ t3 td, transientData_step w t3 (Normal td) → False) as Hwell.
  { intros t3 td Hstep.
    inversion Hstep as [|s' Hs' [?|?]|s' m td' Hs' ? ? Hstart Hend Hparse Hbuffers|];
      subst; rewrite Hs in Hs'; simplify_eq.
    destruct Hbad as [Hbad|[[e He]|(m' & key & v & e & Hm & Hv & He)]].
    - by rewrite Hstart, Hend in Hbad.
    - by rewrite Hparse in He.
    - rewrite Hparse in Hm. simplify_eq.
      destruct (Hbuffers key) as [[_ Hnone]|(v' & bytes & Hv' & Hbytes & _)];
        congruence. }
  inversion Hrun as [? ? ? ? Heq Hstop|? ? ? ? ? ? Heq H2 Hstop
                    |? ? ? ? ? ? ? ? Heq H2 H3 Hstop
                    |? ? ? ? ? ? ? ? ? ? Heq H2 H3 H4 Hstop
                    |? ? ? ? ? ? ? ? ? ? ? ? Heq H2 H3 H4 H5];
    subst; rewrite Heq in E1; cbn [trace fst] in E1;
    try (by destruct (Hwell _ _ H3)).
  1-2: split_elem; elem_kinds; done.
  assert (r ≠ Normal ()) as Hr by (by inversion Hstop).
  assert (∃ msg, t3 = [EShowInputBox transientDataPrompt "{}";
                       ELog ERROR
                         (Some ("Error with transaction transient data: " +:+ msg))
                         None]
                 ∧ r = Return) as (msg & -> & ->).
  { inversion H3; subst; inversion Hstop; subst; try congruence; eauto. }
  split_and!; [|by apply submit_calls_none, quiet_no_call, Hquiet|done].
  eexists. rewrite elem_of_cons, !elem_of_app, !elem_of_cons. eauto 10.
Qed.

(** X8.  Dismissing either input box ends the command there: it returns,
    the input box is the last event of the run, no error is logged and the
    SDK is not called. *)
Theorem X8_dismissed_input_box `{rt : JsRuntime} (cst : Constants) (w : World)
    (evaluate : bool) (treeItem : option TreeItem)
    (channelName smartContract : option string) (mgr : FabricConnectionManager)
    (prompt value : string) :
  let run := submitTransaction cst w evaluate treeItem channelName smartContract mgr in
  (prompt = argsPrompt ∧ value = "[]")
  ∨ (prompt = transientDataPrompt ∧ value = "{}") →
  EShowInputBox prompt value ∈ trace run →
  showInputBox w prompt value = None →
  outcome run = Return
  ∧ last (trace run) = Some (EShowInputBox prompt value)
  ∧ (∀ e, e ∈ trace run → ¬ is_error_log e)
  ∧ submit_calls (trace run) = [].
Proof.
  intros run. subst run. get_run Hrun. intros Hwhich Hbox Hnone.
  pose proof (stopped_run_quiet _ _ _ _ _ _ _ _ _ _ Hrun) as Hquiet.
  pose proof (resolveTarget_events cst w (action_of evaluate) treeItem
                channelName smartContract mgr) as E1.
  assert (∀ e t1, Forall is_target_resolution t1 → e ∈ first_log evaluate :: t1 →
            ¬ is_error_log e) as Hfirst.
  { intros e t1 Ht1 He. apply elem_of_cons in He as [->|He]; [by intros []|].
    rewrite Forall_forall in Ht1. apply Ht1 in He.
    destruct e; first [by destruct He|by intros []]. }
  inversion Hrun as [? ? ? ? Heq Hstop|? ? ? ? ? ? Heq H2 Hstop
                    |? ? ? ? ? ? ? ? Heq H2 H3 Hstop
                    |? ? ? ? ? ? ? ? ? ? Heq H2 H3 H4 Hstop
                    |? ? ? ? ? ? ? ? ? ? ? ? Heq H2 H3 H4 H5];
    subst; rewrite Heq in E1; cbn [trace fst] in E1.
  - split_elem; elem_kinds; done.
  - destruct Hwhich as [[-> ->]|[-> ->]]; [|split_elem; elem_kinds; done].
    assert (t2 = [EShowInputBox argsPrompt "[]"] ∧ r = Return) as [-> ->]
      by (inversion H2; subst; inversion Hstop; subst; (done || congruence)).
    clear Hbox.
    split_and!; [done| | |by apply submit_calls_none, quiet_no_call, Hquiet].
    + change (first_log evaluate :: ?l) with ([first_log evaluate] ++ l).
      by rewrite !app_assoc, last_snoc.
    + intros e He. change (first_log evaluate :: ?l) with ([first_log evaluate] ++ l) in He.
      rewrite app_assoc in He. apply elem_of_app in He as [He|He].
      * by eapply Hfirst.
      * split_elem. subst. by intros [].
  - assert (t2 = [EShowInputBox argsPrompt "[]"]) as -> by (by inversion H2).
    destruct Hwhich as [[-> ->]|[-> ->]].
    { inversion H2; subst; congruence. }
    assert (t3 = [EShowInputBox transientDataPrompt "{}"] ∧ r = Return) as [-> ->]
      by (inversion H3; subst; inversion Hstop; subst; (done || congruence)).
    clear Hbox.
    split_and!; [done| | |by apply submit_calls_none, quiet_no_call, Hquiet].
    + change (first_log evaluate :: ?l) with ([first_log evaluate] ++ l).
      by rewrite !app_assoc, last_snoc.
    + intros e He. change (first_log evaluate :: ?l) with ([first_log evaluate] ++ l) in He.
      rewrite app_assoc in He. apply elem_of_app in He as [He|He].
      * by eapply Hfirst.
      * split_elem; subst; by intros [].
  - destruct Hwhich as [[-> ->]|[-> ->]].
    + inversion H2; subst; congruence.
    + inversion H3; subst; congruence.
  - destruct Hwhich as [[-> ->]|[-> ->]].
    + inversion H2; subst; congruence.
    + inversion H3; subst; congruence.
Qed.

(** ** Before and after the callback *)

(** The events of the four steps that come before the callback. *)
Lemma X7_malformed_transient_data_witness :
  let w := Scenario.user (Some "[]") (Some "{oops") None None in
  let run :=
    submitTransaction Scenario.constants w true (Some Scenario.transactionItem)
      None None (Scenario.connected (Scenario.connection [Scenario.peer0] (inr None))) in
  (∃ msg, ELog ERROR (Some ("Error with transaction transient data: " +:+ msg)) None
          ∈ trace run)
  ∧ submit_calls (trace run) = []
  ∧ outcome run = Return.
Proof.
  intros w run.
  apply (X7_malformed_transient_data Scenario.constants w true
           (Some Scenario.transactionItem) None None
           (Scenario.connected (Scenario.connection [Scenario.peer0] (inr None)))
           "{oops").
  - in_trace.
  - reflexivity.
  - discriminate.
  - discriminate.
  - left. reflexivity.
Defined.

Lemma X8_dismissed_input_box_witness :
  let w := Scenario.user None (Some "{}") None None in
  let run :=
    submitTransaction Scenario.constants w false (Some Scenario.transactionItem)
      None None (Scenario.connected (Scenario.connection [Scenario.peer0] (inr None))) in
  outcome run = Return
  ∧ last (trace run) = Some (EShowInputBox argsPrompt "[]")
  ∧ (∀ e, e ∈ trace run → ¬ is_error_log e)
  ∧ submit_calls (trace run) = [].
Proof.
  intros w run.
  apply (X8_dismissed_input_box Scenario.constants w false
           (Some Scenario.transactionItem) None None
           (Scenario.connected (Scenario.connection [Scenario.peer0] (inr None)))
           argsPrompt "[]").
  - left. split; reflexivity.
  - in_trace.
  - reflexivity.
Defined.

Definition is_early (e : Event) : Prop :=
  match e with
  | ELog SUCCESS _ _ => False
  | ELog _ _ _ | EExecuteCommand _
  | EShowClientInstantiatedSmartContractsQuickPick _
  | EShowTransactionQuickPick _ _ _ | EShowInputBox _ _ | EShowQuickPick _ _
  | EShowChannelPeersQuickPick _ | EGetChannelPeersInfo _ => True
  | _ => False
  end.

Section Split.

Context `{rt : JsRuntime} (cst : Constants) (w : World).

Implicit Types (mgr : FabricConnectionManager) (t : list Event).

Lemma resolveTarget_early action treeItem channelName smartContract mgr t mgr' r :
  resolveTarget cst w action treeItem channelName smartContract mgr = (t, mgr', r) →
  Forall is_early t.
Proof.
  intros Heq.
  pose proof (resolveTarget_events cst w action treeItem channelName smartContract mgr)
    as Hevents.
  rewrite Heq in Hevents. eapply Forall_impl; [exact Hevents|]. by intros [].
Qed.

Lemma promptArguments_early mgr t mgr' r :
  promptArguments w mgr = (t, mgr', r) → Forall is_early t.
Proof. intros [_ Hstep]%promptArguments_inv. destruct Hstep; by repeat constructor. Qed.

Lemma promptTransientData_early mgr t mgr' r :
  promptTransientData w mgr = (t, mgr', r) → Forall is_early t.
Proof.
  intros [_ Hstep]%promptTransientData_inv. destruct Hstep; by repeat constructor.
Qed.

Lemma resolvePeerTargets_early channelName mgr t mgr' r :
  resolvePeerTargets cst w channelName mgr = (t, mgr', r) → Forall is_early t.
Proof.
  intros [_ Hstep]%resolvePeerTargets_inv. apply Forall_forall. intros e He.
  destruct (peerTargets_step_elem _ _ _ _ _ _ _ Hstep He) as [->|[->|Hprompt]];
    [done..|]. by destruct e.
Qed.

(** A run is a list of early events, followed, exactly when the run
    completes normally, by the callback: the announcement, the call with the
    request built from the resolved target, the parsed arguments and
    transient data and the peer targets, and the report. *)
Lemma run_split evaluate treeItem channelName smartContract mgr t mgr' r :
  run_steps cst w evaluate treeItem channelName smartContract mgr t mgr' r →
  ∃ early late,
    t = early ++ late ∧ Forall is_early early
    ∧ ((r ≠ Normal tt ∧ late = [])
       ∨ (r = Normal tt
          ∧ ∃ t1 target t2 args t3 transientData t4 connection names text,
              resolveTarget cst w (action_of evaluate) treeItem channelName
                smartContract mgr = (t1, mgr', Normal target)
              ∧ promptArguments w mgr' = (t2, mgr', Normal args)
              ∧ promptTransientData w mgr' = (t3, mgr', Normal transientData)
              ∧ resolvePeerTargets cst w (Target.channelName target) mgr'
                = (t4, mgr', Normal (connection, names, text))
              ∧ early = first_log evaluate :: t1 ++ t2 ++ t3 ++ t4
              ∧ late =
                  announcement cst (actioning_of evaluate) target args text mgr'
                  ++ ESubmitTransaction
                       (request_of evaluate target args transientData names)
                  :: report evaluate connection
                       (request_of evaluate target args transientData names))).
Proof.
  destruct 1 as [? ? ? ? H1 Hstop|? ? ? ? ? ? H1 H2 Hstop
                |? ? ? ? ? ? ? ? H1 H2 H3 Hstop
                |? ? ? ? ? ? ? ? ? ? H1 H2 H3 H4 Hstop
                |? ? ? ? ? ? ? ? ? ? ? ? H1 H2 H3 H4 H5];
    pose proof (resolveTarget_early _ _ _ _ _ _ _ _ H1) as E1;
    try pose proof (promptArguments_early _ _ _ _ H2) as E2;
    try pose proof (promptTransientData_early _ _ _ _ H3) as E3;
    try pose proof (resolvePeerTargets_early _ _ _ _ _ H4) as E4.
  1-4: eexists _, []; rewrite app_nil_r; split_and!;
       [done|constructor; [done|by rewrite ?Forall_app]
       |left; split; [by inversion Hstop|done]].
  rewrite invoke_trace in H5. injection H5 as <-.
  eexists (first_log evaluate :: t1 ++ t2 ++ t3 ++ t4), _. split_and!.
  - cbn [app]. by rewrite <-!app_assoc.
  - constructor; [done|by rewrite ?Forall_app].
  - right. split; [done|]. by eexists _, _, _, _, _, _, _, _, _, _.
Qed.

(** What the announcement and the report hold. *)
Lemma announcement_elem actioning target args text mgr e :
  e ∈ announcement cst actioning target args text mgr →
  (∃ msg, e = EProgressReport msg) ∨ (∃ msg, e = ELog INFO None (Some msg))
  ∨ (e = EDockerOutputShow
     ∧ entry_name (getGatewayRegistryEntry mgr) = LOCAL_FABRIC cst).
Proof.
  unfold announcement. intros He.
  apply elem_of_app in He as [He|He].
  - split_elem; subst; eauto.
  - destruct (String.eqb_spec (entry_name (getGatewayRegistryEntry mgr))
                (LOCAL_FABRIC cst)); split_elem; subst; eauto.
Qed.

Lemma report_kinds evaluate connection request e :
  e ∈ report evaluate connection request →
  (∃ name, e = ESendTelemetryEvent name) ∨ (∃ ty popup output, e = ELog ty popup output)
  ∨ e = EOutputShow.
Proof.
  unfold report.
  destruct (IFabricClientConnection.submitTransaction connection request);
    unfold failure_report, success_report; intros He; split_elem; subst; eauto 6.
  apply list_elem_of_fmap in He as (? & -> & ?). eauto 6.
Qed.

End Split.

Section PeerSteps.

Context `{rt : JsRuntime} (cst : Constants) (w : World).

Implicit Types (mgr : FabricConnectionManager) (t : list Event).

(** A run that asks for the peers of a channel has run the peer-targeting
    step for that channel, and holds all its events. *)
Lemma peers_steps evaluate treeItem channelName smartContract mgr t mgr' r channel :
  run_steps cst w evaluate treeItem channelName smartContract mgr t mgr' r →
  EGetChannelPeersInfo channel ∈ t →
  ∃ t4 r4,
    resolvePeerTargets cst w channel mgr' = (t4, mgr', r4)
    ∧ ∀ e, e ∈ t4 → e ∈ t.
Proof.
  intros Hrun Hget.
  pose proof (resolveTarget_events cst w (action_of evaluate) treeItem
                channelName smartContract mgr) as E1.
  inversion Hrun as [? ? ? ? H1 Hstop|? ? ? ? ? ? H1 H2 Hstop
                    |? ? ? ? ? ? ? ? H1 H2 H3 Hstop
                    |? ? ? ? ? ? ? ? ? ? H1 H2 H3 H4 Hstop
                    |? ? ? ? ? ? ? ? ? ? ? ? H1 H2 H3 H4 H5];
    subst; rewrite H1 in E1; cbn [trace fst] in E1;
    try pose proof (proj2 (promptArguments_inv _ _ _ _ _ H2)) as S2;
    try pose proof (proj2 (promptTransientData_inv _ _ _ _ _ H3)) as S3;
    try pose proof (proj2 (resolvePeerTargets_inv _ _ _ _ _ _ _ H4)) as S4.
  1-3: split_elem; elem_kinds; done.
  - assert (channel = Target.channelName target) as ->.
    { split_elem; elem_kinds; try done. by simplify_eq. }
    exists t4, r4. split; [done|]. intros e He.
    rewrite elem_of_cons, !elem_of_app. eauto 10.
  - assert (channel = Target.channelName target) as ->.
    { rewrite invoke_trace in H5.
      match type of H5 with
      | (?l, _, _) = _ => assert (l = t5) as <- by congruence
      end.
      apply elem_of_cons in Hget as [Hget|Hget]; [by inversion Hget|].
      do 4 (apply elem_of_app in Hget as [Hget|Hget];
            [elem_kinds; try done; by simplify_eq|]).
      apply elem_of_app in Hget as [Hget|Hget].
      - by apply announcement_elem in Hget as [[? ?]|[[? ?]|[? _]]].
      - apply elem_of_cons in Hget as [Hget|Hget]; [done|].
        by apply report_kinds in Hget as [[? ?]|[(? & ? & ? & ?)|?]]. }
    exists t4, (Normal (connection, names, text)). split; [done|]. intros e He.
    rewrite elem_of_cons, !elem_of_app. eauto 10.
Qed.

(** The text that names the peer targets in the log is empty when there is
    none, and lists them otherwise. *)
Lemma resolvePeerTargets_text channelName mgr t mgr' connection names text :
  resolvePeerTargets cst w channelName mgr = (t, mgr', Normal (connection, names, text)) →
  text = match names with
         | [] => EmptyString
         | _ => " to peers " +:+ String.concat "," names
         end.
Proof.
  intros [_ Hstep]%resolvePeerTargets_inv.
  inversion Hstep as [| | | | |
                     |? ? ? peerTargets ? ? ? ? ? Hne]; subst; [done|].
  by destruct peerTargets.
Qed.

(** The policy prompt of a peer-targeting step: shown with the two policies
    when the channel has two peers or more, and only then. *)
Lemma policy_prompt peers prompt selectPeers :
  policy cst w peers prompt selectPeers → peers ≠ [] →
  (∀ e, e ∈ prompt →
     e = EShowQuickPick peerPolicyPrompt [DEFAULT cst; CUSTOM cst]
     ∧ (2 ≤ length peers)%nat)
  ∧ ((2 ≤ length peers)%nat →
     EShowQuickPick peerPolicyPrompt [DEFAULT cst; CUSTOM cst] ∈ prompt).
Proof.
  intros Hp Hne. destruct Hp as [Hlen|Hlen].
  - split; [by intros e ?%elem_of_nil|lia].
  - split; [|intros _; apply list_elem_of_here].
    intros e ->%list_elem_of_singleton. split; [done|].
    destruct peers as [|? [|? ?]]; cbn in *; (done || lia).
Qed.

Lemma peerTargets_step_prompt channelName mgr t r connection peers :
  peerTargets_step cst w channelName mgr t r →
  getConnection mgr = Some connection →
  IFabricClientConnection.getChannelPeersInfo connection channelName = inr peers →
  (∀ prompt items, EShowQuickPick prompt items ∈ t →
     prompt = peerPolicyPrompt ∧ items = [DEFAULT cst; CUSTOM cst]
     ∧ (2 ≤ length peers)%nat)
  ∧ ((2 ≤ length peers)%nat →
     EShowQuickPick peerPolicyPrompt [DEFAULT cst; CUSTOM cst] ∈ t).
Proof.
  intros Hstep Hconn Hinfo.
  destruct Hstep as [? Hc|? ? Hc Hi|? Hc Hi|? ? ? ? Hc Hi Hne Hp
                    |? ? ? ? Hc Hi Hne Hp|? ? ? Hc Hi Hne Hp|? ? ? ? Hc Hi Hne Hp];
    rewrite Hconn in Hc; simplify_eq; rewrite Hinfo in Hi; simplify_eq;
    try destruct (policy_prompt _ _ _ Hp Hne) as [Hshown Hlen].
  - split; [|cbn; lia]. intros prompt items He.
    apply elem_of_cons in He as [He|He]; [done|].
    by apply list_elem_of_singleton in He.
  - split.
    + intros prompt' items He. apply elem_of_cons in He as [He|He]; [done|].
      by apply Hshown in He as [[= -> ->] ?].
    + intros ?. apply list_elem_of_further. auto.
  - split.
    + intros prompt' items He. apply elem_of_cons in He as [He|He]; [done|].
      by apply Hshown in He as [[= -> ->] ?].
    + intros ?. apply list_elem_of_further. auto.
  - split.
    + intros prompt' items He. apply elem_of_cons in He as [He|He]; [done|].
      apply elem_of_app in He as [He|He].
      * by apply Hshown in He as [[= -> ->] ?].
      * by apply list_elem_of_singleton in He.
    + intros ?. apply list_elem_of_further, elem_of_app. auto.
  - split.
    + intros prompt' items He. apply elem_of_cons in He as [He|He]; [done|].
      apply elem_of_app in He as [He|He].
      * by apply Hshown in He as [[= -> ->] ?].
      * by apply list_elem_of_singleton in He.
    + intros ?. apply list_elem_of_further, elem_of_app. auto.
Qed.

End PeerSteps.

(** ** Peer targets *)

(** X9.  When the channel has several peers and the user picks the custom
    policy, every request that reaches the SDK targets exactly the peers
    picked at the peer prompt, in the order of the pick; dismissing that
    prompt, or picking no peer, means no call. *)
Theorem X9_custom_policy `{rt : JsRuntime} (cst : Constants) (w : World)
    (evaluate : bool) (treeItem : option TreeItem)
    (channelName smartContract : option string) (mgr : FabricConnectionManager)
    (connection : IFabricClientConnection) (channel : option string)
    (peers : list PeerInfo) :
  let run := submitTransaction cst w evaluate treeItem channelName smartContract mgr in
  EGetChannelPeersInfo channel ∈ trace run →
  getConnection (final_manager run) = Some connection →
  IFabricClientConnection.getChannelPeersInfo connection channel = inr peers →
  length peers ≠ 1 →
  showQuickPick w peerPolicyPrompt [DEFAULT cst; CUSTOM cst] = Some (CUSTOM cst) →
  ∀ request, ESubmitTransaction request ∈ trace run →
    ∃ peerTargets,
      showChannelPeersQuickPick w peers = Some peerTargets
      ∧ peerTargets ≠ []
      ∧ IFabricClientConnection.peerTargets request = map data peerTargets.
Proof.
  intros run. subst run. get_run Hrun. cbn [final_manager fst snd].
  intros Hget Hconn Hinfo Hmany Hpick request Hreq.
  destruct (peers_inv _ _ _ _ _ _ _ _ _ _ _ Hrun Hget)
    as (t4 & r4 & Hstep & _ & Hrequest).
  destruct (Hrequest request Hreq) as (c & text & ->).
  assert (∀ prompt selectPeers, policy cst w peers prompt selectPeers →
            selectPeers = Some (CUSTOM cst)) as Hpolicy.
  { intros prompt selectPeers Hp. inversion Hp; by subst. }
  inversion Hstep; subst; same_connection Hconn Hinfo.
  - match goal with
    | Hp : policy _ _ _ _ _, Hn : _ ≠ Some (CUSTOM cst) |- _ =>
        by apply Hpolicy in Hp
    end.
  - eauto.
Qed.

Lemma X9_custom_policy_witness :
  let targets :=
    [{| item_label := "peer0.org2.example.com"; data := "peer0.org2.example.com" |}] in
  let w :=
    Scenario.user (Some "[]") (Some "{}") (Some "Custom peer targeting policy")
      (Some targets) in
  let connection := Scenario.connection [Scenario.peer0; Scenario.peer1] (inr None) in
  let run :=
    submitTransaction Scenario.constants w false (Some Scenario.transactionItem)
      None None (Scenario.connected connection) in
  let request :=
    IFabricClientConnection.Build_Request (Some "asset-chaincode") "transfer"
      (Some "mychannel") [] "Asset" None false ["peer0.org2.example.com"] in
  ESubmitTransaction request ∈ trace run
  ∧ ∃ peerTargets,
      showChannelPeersQuickPick w [Scenario.peer0; Scenario.peer1] = Some peerTargets
      ∧ peerTargets ≠ []
      ∧ IFabricClientConnection.peerTargets request = map data peerTargets.
Proof.
  intros targets w connection run request.
  assert (ESubmitTransaction request ∈ trace run) as Hreq by in_trace.
  split; [exact Hreq|].
  apply (X9_custom_policy Scenario.constants w false
           (Some Scenario.transactionItem) None None
           (Scenario.connected connection) connection (Some "mychannel")
           [Scenario.peer0; Scenario.peer1]).
  - in_trace.
  - reflexivity.
  - reflexivity.
  - discriminate.
  - reflexivity.
  - exact Hreq.
Defined.

(** X10.  The policy prompt is shown exactly when the channel has at least
    two peers, and then with the two policies, the default one first. *)
Theorem X10_policy_prompt `{rt : JsRuntime} (cst : Constants) (w : World)
    (evaluate : bool) (treeItem : option TreeItem)
    (channelName smartContract : option string) (mgr : FabricConnectionManager)
    (connection : IFabricClientConnection) (channel : option string)
    (peers : list PeerInfo) :
  let run := submitTransaction cst w evaluate treeItem channelName smartContract mgr in
  EGetChannelPeersInfo channel ∈ trace run →
  getConnection (final_manager run) = Some connection →
  IFabricClientConnection.getChannelPeersInfo connection channel = inr peers →
  ((∃ prompt items, EShowQuickPick prompt items ∈ trace run) ↔ (2 ≤ length peers)%nat)
  ∧ (∀ prompt items, EShowQuickPick prompt items ∈ trace run →
       prompt = peerPolicyPrompt ∧ items = [DEFAULT cst; CUSTOM cst]).
Proof.
  intros run. subst run.
  destruct (submitTransaction cst w evaluate treeItem channelName smartContract mgr)
    as [[t mgr'] r] eqn:Hrun.
  pose proof (submitTransaction_run _ _ _ _ _ _ _ _ _ _ Hrun) as Hcr.
  apply submitTransaction_steps in Hrun.
  cbn [trace final_manager fst snd]. intros Hget Hconn Hinfo.
  destruct (peers_inv _ _ _ _ _ _ _ _ _ _ _ Hcr Hget)
    as (t4 & r4 & Hstep & Hprompts & _).
  destruct (peers_steps _ _ _ _ _ _ _ _ _ _ _ Hrun Hget) as (t4' & r4' & H4 & Hin).
  pose proof (proj2 (resolvePeerTargets_inv _ _ _ _ _ _ _ H4)) as Hstep'.
  destruct (peerTargets_step_prompt _ _ _ _ _ _ _ _ Hstep Hconn Hinfo) as [Hshown _].
  destruct (peerTargets_step_prompt _ _ _ _ _ _ _ _ Hstep' Hconn Hinfo) as [_ Hlen].
  split; [split|].
  - intros (prompt & items & He). by apply Hprompts, Hshown in He as (_ & _ & ?).
  - intros ?. exists peerPolicyPrompt, [DEFAULT cst; CUSTOM cst]. auto.
  - intros prompt items He. by apply Hprompts, Hshown in He as (? & ? & _).
Qed.

Lemma X10_policy_prompt_witness :
  let w :=
    Scenario.user (Some "[]") (Some "{}") (Some "Default peer targeting policy") None in
  let connection := Scenario.connection [Scenario.peer0; Scenario.peer1] (inr None) in
  let run :=
    submitTransaction Scenario.constants w false (Some Scenario.transactionItem)
      None None (Scenario.connected connection) in
  ∃ prompt items, EShowQuickPick prompt items ∈ trace run.
Proof.
  intros w connection run.
  destruct (X10_policy_prompt Scenario.constants w false
              (Some Scenario.transactionItem) None None
              (Scenario.connected connection) connection (Some "mychannel")
              [Scenario.peer0; Scenario.peer1]) as [Hshown _].
  - in_trace.
  - reflexivity.
  - reflexivity.
  - apply Hshown. cbn. lia.
Defined.

(** ** The callback *)

Section Callback.

Context `{rt : JsRuntime} (cst : Constants) (w : World).

Implicit Types (mgr : FabricConnectionManager) (t : list Event).

(** A run that calls the SDK with [request] is a list of early events
    followed by the callback for [request]: the announcement, the call and
    the report, on the connection the manager holds. *)
Lemma run_callback evaluate treeItem channelName smartContract mgr t mgr' r request :
  run_steps cst w evaluate treeItem channelName smartContract mgr t mgr' r →
  ESubmitTransaction request ∈ t →
  ∃ early target text connection,
    t = early
        ++ announcement cst (actioning_of evaluate) target
             (IFabricClientConnection.args request) text mgr'
        ++ ESubmitTransaction request :: report evaluate connection request
    ∧ Forall is_early early
    ∧ getConnection mgr' = Some connection
    ∧ Target.transactionName target = IFabricClientConnection.txName request
    ∧ Target.channelName target = IFabricClientConnection.channel request
    ∧ text = match IFabricClientConnection.peerTargets request with
             | [] => EmptyString
             | names => " to peers " +:+ String.concat "," names
             end
    ∧ (∀ e, e ∈ early → ¬ is_error_log e).
Proof.
  intros Hrun Hreq.
  destruct (run_split _ _ _ _ _ _ _ _ _ _ Hrun)
    as (early & late & -> & Hearly
        & [[_ ->]|(_ & t1 & target & t2 & args & t3 & td & t4 & connection
                   & names & text & H1 & H2 & H3 & H4 & -> & ->)]).
  { rewrite app_nil_r in Hreq. rewrite Forall_forall in Hearly.
    by apply Hearly in Hreq. }
  assert (request = request_of evaluate target args td names) as ->.
  { apply elem_of_app in Hreq as [Hreq|Hreq].
    { rewrite Forall_forall in Hearly. by apply Hearly in Hreq. }
    apply elem_of_app in Hreq as [Hreq|Hreq].
    { by apply announcement_elem in Hreq as [[? ?]|[[? ?]|[? _]]]. }
    apply elem_of_cons in Hreq as [Hreq|Hreq]; [by simplify_eq|].
    by apply report_kinds in Hreq as [[? ?]|[(? & ? & ? & ?)|?]]. }
  exists (first_log evaluate :: t1 ++ t2 ++ t3 ++ t4), target, text, connection.
  split_and!; try done.
  - pose proof (proj2 (resolvePeerTargets_inv _ _ _ _ _ _ _ H4)) as Hstep.
    by apply peerTargets_step_Normal in Hstep as (? & _ & _ & ?).
  - cbn. rewrite (resolvePeerTargets_text _ _ _ _ _ _ _ _ _ H4). by destruct names.
  - pose proof (resolveTarget_events cst w (action_of evaluate) treeItem
                  channelName smartContract mgr) as E1.
    rewrite H1 in E1. cbn [trace fst] in E1. rewrite Forall_forall in E1.
    apply promptArguments_inv in H2 as [_ H2].
    apply promptTransientData_inv in H3 as [_ H3].
    apply resolvePeerTargets_inv in H4 as [_ H4].
    apply peerTargets_step_Normal in H4 as (prompts & -> & Hprompts & _).
    rewrite Forall_forall in Hprompts.
    assert (t2 = [EShowInputBox argsPrompt "[]"]) as -> by (by inversion H2).
    assert (t3 = [EShowInputBox transientDataPrompt "{}"]) as ->
      by (by inversion H3).
    intros e He. apply elem_of_cons in He as [->|He]; [by intros []|].
    rewrite !elem_of_app in He. destruct He as [He|[He|[He|He]]].
    + apply E1 in He. destruct e; first [by destruct He|by intros []].
    + apply list_elem_of_singleton in He as ->. by intros [].
    + apply list_elem_of_singleton in He as ->. by intros [].
    + apply elem_of_cons in He as [->|He]; [by intros []|].
      apply Hprompts in He. destruct e; first [by destruct He|by intros []].
Qed.

Lemma not_early_app early late e :
  Forall is_early early → ¬ is_early e → e ∈ early ++ late → e ∈ late.
Proof.
  rewrite Forall_forall. intros Hearly He [Hin|Hin]%elem_of_app; [|done].
  by apply Hearly in Hin.
Qed.

End Callback.

(** X11.  The output channel of the local runtime's containers is shown
    exactly in the runs that reach the SDK call while the gateway of the
    connection manager is the local Fabric one; it is then shown once, as the
    last thing before the call. *)
Theorem X11_docker_output `{rt : JsRuntime} (cst : Constants) (w : World)
    (evaluate : bool) (treeItem : option TreeItem)
    (channelName smartContract : option string) (mgr : FabricConnectionManager) :
  let run := submitTransaction cst w evaluate treeItem channelName smartContract mgr in
  (EDockerOutputShow ∈ trace run
   ↔ (∃ request, ESubmitTransaction request ∈ trace run)
     ∧ entry_name (getGatewayRegistryEntry (final_manager run)) = LOCAL_FABRIC cst)
  ∧ (EDockerOutputShow ∈ trace run →
     ∃ before request after,
       trace run = before ++ EDockerOutputShow :: ESubmitTransaction request :: after
       ∧ (EDockerOutputShow ∉ before) ∧ (EDockerOutputShow ∉ after)).
Proof.
  intros run. subst run. get_steps Hrun.
  assert (∀ request, ESubmitTransaction request ∈ t →
            entry_name (getGatewayRegistryEntry mgr') = LOCAL_FABRIC cst →
            ∃ before after,
              t = before ++ EDockerOutputShow :: ESubmitTransaction request :: after
              ∧ (EDockerOutputShow ∉ before) ∧ (EDockerOutputShow ∉ after)) as Hshown.
  { intros request Hreq Hlocal.
    destruct (run_callback _ _ _ _ _ _ _ _ _ _ _ Hrun Hreq)
      as (early & target & text & connection & -> & Hearly & _).
    unfold announcement. rewrite Hlocal, String.eqb_refl.
    eexists (early ++ [_; _]), _. split_and!.
    - by rewrite <-!app_assoc.
    - rewrite Forall_forall in Hearly.
      intros [Hin|Hin]%elem_of_app; [by apply Hearly in Hin|]. by split_elem.
    - by intros [(? & ?)|[(? & ? & ? & ?)|?]]%report_kinds. }
  assert (EDockerOutputShow ∈ t →
          (∃ request, ESubmitTransaction request ∈ t)
          ∧ entry_name (getGatewayRegistryEntry mgr') = LOCAL_FABRIC cst) as Hwhen.
  { intros Hin.
    destruct (run_split _ _ _ _ _ _ _ _ _ _ Hrun)
      as (early & late & -> & Hearly
          & [[_ ->]|(_ & t1 & target & t2 & args & t3 & td & t4 & connection
                     & names & text & _ & _ & _ & _ & _ & ->)]);
      (eapply not_early_app in Hin; [|exact Hearly|by intros []]);
      [by apply elem_of_nil in Hin|].
    split.
    - eexists. apply elem_of_app. right. apply elem_of_app. right.
      apply list_elem_of_here.
    - apply elem_of_app in Hin as [Hin|Hin].
      + by apply announcement_elem in Hin as [[? ?]|[[? ?]|[_ ?]]].
      + apply elem_of_cons in Hin as [Hin|Hin]; [done|].
        by apply report_kinds in Hin as [[? ?]|[(? & ? & ? & ?)|?]]. }
  split; [split|].
  - exact Hwhen.
  - intros [[request Hreq] Hlocal].
    destruct (Hshown request Hreq Hlocal) as (before & after & -> & _).
    apply elem_of_app. right. apply list_elem_of_here.
  - intros Hin. destruct (Hwhen Hin) as [[request Hreq] Hlocal].
    destruct (Hshown request Hreq Hlocal) as (before & after & ? & ? & ?).
    by exists before, request, after.
Qed.

Lemma X11_docker_output_witness :
  let w := Scenario.user (Some "[]") (Some "{}") None None in
  let connection := Scenario.connection [Scenario.peer0] (inr None) in
  let run :=
    submitTransaction Scenario.constants w false (Some Scenario.transactionItem)
      None None (Scenario.connected connection) in
  EDockerOutputShow ∈ trace run.
Proof.
  intros w connection run.
  apply (X11_docker_output Scenario.constants w false
           (Some Scenario.transactionItem) None None (Scenario.connected connection)).
  split; [|reflexivity].
  eexists. in_trace.
Defined.

(** ** The report *)

(** X12.  When the SDK call returns, the run ends with the call, the
    telemetry event, one SUCCESS log and the focus on the output channel:
    the popup says the transaction was submitted or evaluated, and the
    output says that no value was returned when the result is undefined,
    and quotes the returned value otherwise. *)
Theorem X12_success_report `{rt : JsRuntime} (cst : Constants) (w : World)
    (evaluate : bool) (treeItem : option TreeItem)
    (channelName smartContract : option string) (mgr : FabricConnectionManager)
    (request : IFabricClientConnection.Request)
    (connection : IFabricClientConnection) (result : option string) :
  let run := submitTransaction cst w evaluate treeItem channelName smartContract mgr in
  ESubmitTransaction request ∈ trace run →
  getConnection (final_manager run) = Some connection →
  IFabricClientConnection.submitTransaction connection request = inr result →
  ∃ before,
    trace run =
      before
      ++ [ESubmitTransaction request;
          ESendTelemetryEvent ((if evaluate then "evaluate" else "submit")
                               +:+ " transaction");
          ELog SUCCESS
            (Some ("Successfully " +:+ (if evaluate then "evaluated" else "submitted")
                   +:+ " transaction"))
            (Some match result with
                  | None =>
                      "No value returned from "
                      +:+ IFabricClientConnection.txName request
                  | Some value =>
                      "Returned value from "
                      +:+ IFabricClientConnection.txName request
                      +:+ ": " +:+ value
                  end);
          EOutputShow]
    ∧ (∀ e, e ∈ before → ¬ is_error_log e).
Proof.
  intros run. subst run. get_steps Hrun. intros Hreq Hconn Hsdk.
  destruct (run_callback _ _ _ _ _ _ _ _ _ _ _ Hrun Hreq)
    as (early & target & text & connection' & -> & Hearly & Hconn' & _ & _ & _
        & Herrors).
  rewrite Hconn in Hconn'. injection Hconn' as <-.
  unfold report. rewrite Hsdk. unfold success_report.
  eexists (early ++ announcement _ _ _ _ _ _). split.
  - rewrite <-app_assoc. by destruct evaluate.
  - intros e [He|He]%elem_of_app; [by apply Herrors|].
    apply announcement_elem in He as [[? ->]|[[? ->]|[-> _]]]; by intros [].
Qed.

Lemma X12_success_report_witness :
  let w := Scenario.user (Some "[]") (Some "{}") None None in
  let connection := Scenario.connection [Scenario.peer0] (inr (Some "42")) in
  let run :=
    submitTransaction Scenario.constants w true (Some Scenario.transactionItem)
      None None (Scenario.connected connection) in
  ∃ before,
    trace run =
      before
      ++ [ESubmitTransaction
            (IFabricClientConnection.Build_Request (Some "asset-chaincode") "transfer"
               (Some "mychannel") [] "Asset" None true []);
          ESendTelemetryEvent "evaluate transaction";
          ELog SUCCESS (Some "Successfully evaluated transaction")
            (Some "Returned value from transfer: 42");
          EOutputShow]
    ∧ (∀ e, e ∈ before → ¬ is_error_log e).
Proof.
  intros w connection run.
  apply (X12_success_report Scenario.constants w true
           (Some Scenario.transactionItem) None None (Scenario.connected connection)
           (IFabricClientConnection.Build_Request (Some "asset-chaincode") "transfer"
              (Some "mychannel") [] "Asset" None true [])
           connection (Some "42")).
  - in_trace.
  - reflexivity.
  - reflexivity.
Defined.

(** X13.  When the SDK call throws, the run ends with the call, one ERROR
    log with the message of the error and, when the error carries
    endorsements, one ERROR log per endorsement, in their order, with its
    message; no telemetry event is sent, nothing is logged as a success and
    the output channel is not brought into focus. *)
Theorem X13_failure_report `{rt : JsRuntime} (cst : Constants) (w : World)
    (evaluate : bool) (treeItem : option TreeItem)
    (channelName smartContract : option string) (mgr : FabricConnectionManager)
    (request : IFabricClientConnection.Request)
    (connection : IFabricClientConnection) (error : JsError) :
  let run := submitTransaction cst w evaluate treeItem channelName smartContract mgr in
  ESubmitTransaction request ∈ trace run →
  getConnection (final_manager run) = Some connection →
  IFabricClientConnection.submitTransaction connection request = inl error →
  (∃ before,
     trace run =
       before
       ++ ESubmitTransaction request
          :: ELog ERROR
               (Some ("Error " +:+ (if evaluate then "evaluating" else "submitting")
                      +:+ " transaction: " +:+ message error)) None
          :: map (λ endorsement,
                    ELog ERROR
                      (Some ("Endorsement failed with: " +:+ message endorsement))
                      None)
               (match endorsements error with
                | Some endorsements => endorsements
                | None => []
                end))
  ∧ (EOutputShow ∉ trace run)
  ∧ (∀ popup output, ELog SUCCESS popup output ∉ trace run)
  ∧ (∀ name, ESendTelemetryEvent name ∉ trace run).
Proof.
  intros run. subst run. get_steps Hrun. intros Hreq Hconn Hsdk.
  destruct (run_callback _ _ _ _ _ _ _ _ _ _ _ Hrun Hreq)
    as (early & target & text & connection' & -> & Hearly & Hconn' & _ & _ & _
        & Herrors).
  rewrite Hconn in Hconn'. injection Hconn' as <-.
  unfold report. rewrite Hsdk. unfold failure_report.
  assert (∀ e, e ∈ early
                   ++ announcement cst (actioning_of evaluate) target
                        (IFabricClientConnection.args request) text mgr'
                   ++ ESubmitTransaction request
                      :: ELog ERROR
                           (Some ("Error " +:+ actioning_of evaluate
                                  +:+ " transaction: " +:+ message error)) None
                      :: map (λ endorsement,
                                ELog ERROR
                                  (Some ("Endorsement failed with: "
                                         +:+ message endorsement)) None)
                           (default [] (endorsements error)) →
               is_early e ∨ (∃ msg, e = EProgressReport msg)
               ∨ e = EDockerOutputShow ∨ e = ESubmitTransaction request) as Hkinds.
  { rewrite Forall_forall in Hearly.
    intros e [He|[He|He]%elem_of_app]%elem_of_app; [left; auto| |].
    - apply announcement_elem in He as [[? ->]|[[? ->]|[-> _]]]; eauto.
      by left.
    - apply elem_of_cons in He as [->|He]; [eauto|].
      apply elem_of_cons in He as [->|He]; [by left|].
      apply list_elem_of_fmap in He as (? & -> & _). by left. }
  split_and!.
  - eexists (early ++ announcement _ _ _ _ _ _).
    rewrite <-app_assoc. destruct evaluate; by destruct (endorsements error).
  - intros [?|[[? ?]|[?|?]]]%Hkinds; done.
  - intros popup output [?|[[? ?]|[?|?]]]%Hkinds; done.
  - intros name [?|[[? ?]|[?|?]]]%Hkinds; done.
Qed.

Lemma X13_failure_report_witness :
  let w := Scenario.user (Some "[]") (Some "{}") None None in
  let connection :=
    Scenario.connection [Scenario.peer0] (inl Scenario.endorsementError) in
  let run :=
    submitTransaction Scenario.constants w false (Some Scenario.transactionItem)
      None None (Scenario.connected connection) in
  (∃ before,
     trace run =
       before
       ++ [ESubmitTransaction
             (IFabricClientConnection.Build_Request (Some "asset-chaincode")
                "transfer" (Some "mychannel") [] "Asset" None false []);
           ELog ERROR
             (Some "Error submitting transaction: No valid responses from any peers")
             None;
           ELog ERROR (Some "Endorsement failed with: chaincode response 500") None;
           ELog ERROR (Some "Endorsement failed with: peer unreachable") None])
  ∧ (EOutputShow ∉ trace run).
Proof.
  intros w connection run.
  destruct (X13_failure_report Scenario.constants w false
              (Some Scenario.transactionItem) None None
              (Scenario.connected connection)
              (IFabricClientConnection.Build_Request (Some "asset-chaincode")
                 "transfer" (Some "mychannel") [] "Asset" None false [])
              connection Scenario.endorsementError) as (Hends & Hshow & _).
  - in_trace.
  - reflexivity.
  - reflexivity.
  - split; [exact Hends|exact Hshow].
Defined.

(** ** The announcement *)

(** X14.  Before a call the command announces it twice: to the progress
    notification with the transaction, and to the log with the transaction,
    the arguments ([with no args] exactly when the list is empty), the
    channel, and the peer targets when there are some.  Both name what the
    request handed to the SDK holds. *)
Theorem X14_announcement `{rt : JsRuntime} (cst : Constants) (w : World)
    (evaluate : bool) (treeItem : option TreeItem)
    (channelName smartContract : option string) (mgr : FabricConnectionManager)
    (request : IFabricClientConnection.Request) :
  let run := submitTransaction cst w evaluate treeItem channelName smartContract mgr in
  let actioning := if evaluate then "evaluating" else "submitting" in
  let txName := IFabricClientConnection.txName request in
  ESubmitTransaction request ∈ trace run →
  ∃ before docker after,
    trace run =
      before
      ++ [EProgressReport (actioning +:+ " transaction " +:+ txName);
          ELog INFO None
            (Some (actioning +:+ " transaction " +:+ txName
                   +:+ match IFabricClientConnection.args request with
                       | [] => " with no args"
                       | args => " with args " +:+ Array_toString args
                       end
                   +:+ " on channel "
                   +:+ match IFabricClientConnection.channel request with
                       | Some channel => channel
                       | None => "undefined"
                       end
                   +:+ match IFabricClientConnection.peerTargets request with
                       | [] => EmptyString
                       | names => " to peers " +:+ String.concat "," names
                       end))]
      ++ docker ++ ESubmitTransaction request :: after
    ∧ (docker = [] ∨ docker = [EDockerOutputShow])
    ∧ (∀ msg, EProgressReport msg ∉ before ++ after)
    ∧ (∀ e, e ∈ before → ¬ is_error_log e).
Proof.
  intros run actioning txName. subst run actioning txName. get_steps Hrun.
  intros Hreq.
  destruct (run_callback _ _ _ _ _ _ _ _ _ _ _ Hrun Hreq)
    as (early & target & text & connection & -> & Hearly & _ & Htx & Hch & ->
        & Herrors).
  unfold announcement. rewrite Htx, Hch.
  exists early,
    (if String.eqb (entry_name (getGatewayRegistryEntry mgr')) (LOCAL_FABRIC cst)
     then [EDockerOutputShow] else []),
    (report evaluate connection request).
  split_and!.
  - rewrite <-(app_assoc [_; _]).
    replace (actioning_of evaluate)
      with (if evaluate then "evaluating" else "submitting")
      by (by destruct evaluate).
    by destruct (IFabricClientConnection.args request),
         (IFabricClientConnection.channel request),
         (IFabricClientConnection.peerTargets request).
  - destruct (String.eqb _ _); auto.
  - rewrite Forall_forall in Hearly.
    intros msg [He|He]%elem_of_app; [by apply Hearly in He|].
    by apply report_kinds in He as [[? ?]|[(? & ? & ? & ?)|?]].
  - done.
Qed.

Lemma X14_announcement_witness :
  let targets :=
    [{| item_label := "peer0.org2.example.com"; data := "peer0.org2.example.com" |}] in
  let w :=
    Scenario.user (Some "[]") (Some "{}") (Some "Custom peer targeting policy")
      (Some targets) in
  let connection := Scenario.connection [Scenario.peer0; Scenario.peer1] (inr None) in
  let run :=
    submitTransaction Scenario.constants w false (Some Scenario.transactionItem)
      None None (Scenario.connected connection) in
  ELog INFO None
    (Some ("submitting transaction transfer with no args on channel mychannel"
           +:+ " to peers peer0.org2.example.com"))
  ∈ trace run.
Proof.
  intros targets w connection run.
  destruct (X14_announcement Scenario.constants w false
              (Some Scenario.transactionItem) None None
              (Scenario.connected connection)
              (IFabricClientConnection.Build_Request (Some "asset-chaincode")
                 "transfer" (Some "mychannel") [] "Asset" None false
                 ["peer0.org2.example.com"]))
    as (before & docker & after & Heq & _).
  - in_trace.
  - fold run in Heq. rewrite Heq.
    apply elem_of_app. right. apply list_elem_of_further, list_elem_of_here.
Defined.

(** ** Targets from the quick picks *)

Section Picks.

Context `{rt : JsRuntime} (cst : Constants) (w : World).

Implicit Types (mgr : FabricConnectionManager) (t : list Event).

(** With no tree item, the transaction is picked for the contract and the
    channel of the target, which are the ones the command was passed when it
    was passed one, and the ones of the picked smart contract otherwise. *)
Lemma resolveTarget_picked action channelName smartContract mgr t mgr' target :
  resolveTarget cst w action None channelName smartContract mgr
    = (t, mgr', Normal target) →
  (∃ chosen,
     showTransactionQuickPick w ("Choose a transaction to " +:+ action)
       (Target.smartContract target) (Target.channelName target) = Some chosen
     ∧ Target.transactionName target = tx_name (data chosen)
     ∧ Target.namespace target = tx_contract (data chosen))
  ∧ if truthy channelName || truthy smartContract
    then Target.smartContract target = smartContract
         ∧ Target.channelName target = channelName
         ∧ ∀ prompt, EShowClientInstantiatedSmartContractsQuickPick prompt ∉ t
    else ∃ chosen,
           showClientInstantiatedSmartContractsQuickPick w
             ("Choose a smart contract to " +:+ action +:+ " a transaction from")
             = Some chosen
           ∧ Target.smartContract target = Some (sc_name (data chosen))
           ∧ Target.channelName target = Some (sc_channel (data chosen)).
Proof.
  unfold resolveTarget. cbn [is_undefined andb].
  destruct (truthy channelName), (truthy smartContract); cbn [negb andb orb].
  1-3: unfold_cmd; cbn; repeat case_match; intros; simplify_eq/=;
       (split; [eauto|]); (split; [done|]); (split; [done|]);
       intros prompt Hin; by split_elem.
  unfold_cmd; cbn.
  destruct (getConnection mgr); cbn;
    repeat case_match; intros; simplify_eq/=; eauto 10.
Qed.

(** A dismissed quick pick is the last event of the step, which returns. *)
Lemma resolveTarget_dismissed action treeItem channelName smartContract mgr t mgr' r :
  resolveTarget cst w action treeItem channelName smartContract mgr = (t, mgr', r) →
  (∀ prompt,
     EShowClientInstantiatedSmartContractsQuickPick prompt ∈ t →
     showClientInstantiatedSmartContractsQuickPick w prompt = None →
     r = Return
     ∧ last t = Some (EShowClientInstantiatedSmartContractsQuickPick prompt))
  ∧ (∀ prompt contract channel,
       EShowTransactionQuickPick prompt contract channel ∈ t →
       showTransactionQuickPick w prompt contract channel = None →
       r = Return
       ∧ last t = Some (EShowTransactionQuickPick prompt contract channel)).
Proof.
  unfold resolveTarget.
  destruct treeItem as [[? ? ? ?|? [|? ?]]|]; cbn [is_undefined andb].
  1-3: unfold_cmd; cbn; repeat case_match; intros; simplify_eq/=;
       split; intros; split_elem; simplify_eq; done.
  destruct (truthy channelName), (truthy smartContract); cbn [negb andb].
  1-3: unfold_cmd; cbn; repeat case_match; intros; simplify_eq/=;
       split; intros; split_elem; simplify_eq; done.
  unfold_cmd; cbn.
  destruct (getConnection mgr); cbn;
    repeat case_match; intros; simplify_eq/=;
    split; intros; split_elem; simplify_eq; done.
Qed.

End Picks.

(** X15.  Invoked with no tree item, the command has the transaction picked
    for the very contract and channel it then calls the SDK with, and calls
    with the name and the namespace of the pick.  The contract and the
    channel are the ones it was passed when it was passed either, and no
    smart contract is then asked for; otherwise they are the ones of the
    smart contract picked. *)
Theorem X15_picked_target `{rt : JsRuntime} (cst : Constants) (w : World)
    (evaluate : bool) (channelName smartContract : option string)
    (mgr : FabricConnectionManager) (request : IFabricClientConnection.Request) :
  let run := submitTransaction cst w evaluate None channelName smartContract mgr in
  let action := if evaluate then "evaluate" else "submit" in
  ESubmitTransaction request ∈ trace run →
  (∃ chosen,
     showTransactionQuickPick w ("Choose a transaction to " +:+ action)
       (IFabricClientConnection.contract request)
       (IFabricClientConnection.channel request) = Some chosen
     ∧ IFabricClientConnection.txName request = tx_name (data chosen)
     ∧ IFabricClientConnection.namespace request = tx_contract (data chosen))
  ∧ if truthy channelName || truthy smartContract
    then IFabricClientConnection.contract request = smartContract
         ∧ IFabricClientConnection.channel request = channelName
         ∧ ∀ prompt,
             EShowClientInstantiatedSmartContractsQuickPick prompt ∉ trace run
    else ∃ chosen,
           showClientInstantiatedSmartContractsQuickPick w
             ("Choose a smart contract to " +:+ action +:+ " a transaction from")
             = Some chosen
           ∧ IFabricClientConnection.contract request = Some (sc_name (data chosen))
           ∧ IFabricClientConnection.channel request
             = Some (sc_channel (data chosen)).
Proof.
  intros run action. subst run action.
  destruct (submitTransaction cst w evaluate None channelName smartContract mgr)
    as [[t mgr'] r] eqn:Hrun.
  pose proof (submitTransaction_run _ _ _ _ _ _ _ _ _ _ Hrun) as Hcr.
  apply submitTransaction_steps in Hrun.
  cbn [trace fst snd]. intros Hreq.
  destruct (call_inv _ _ _ _ _ _ _ _ _ _ _ Hcr Hreq)
    as (t1 & target & t2 & args & t3 & td & t4 & conn & names & text & announce
        & H1 & _ & _ & _ & _ & -> & _ & _).
  destruct (run_anatomy _ _ _ _ _ _ _ _ _ _ Hrun)
    as (t1' & r1 & rest & H1' & -> & Hrest & _).
  rewrite H1 in H1'. injection H1' as <- <-.
  replace (if evaluate then "evaluate" else "submit") with (action_of evaluate)
    by (by destruct evaluate).
  destruct (resolveTarget_picked _ _ _ _ _ _ _ _ _ H1) as [Hpick Hwhich].
  split; [exact Hpick|].
  destruct (truthy channelName || truthy smartContract); [|exact Hwhich].
  destruct Hwhich as (? & ? & Hnone). split_and!; [done..|].
  intros prompt Hin. rewrite Forall_forall in Hrest.
  apply elem_of_cons in Hin as [Hin|Hin]; [by inversion Hin|].
  apply elem_of_app in Hin as [Hin|Hin]; [by apply Hnone in Hin|].
  by apply Hrest in Hin.
Qed.

Lemma X15_picked_target_witness :
  let w := Scenario.user (Some "[]") (Some "{}") None None in
  let connection := Scenario.connection [Scenario.peer0] (inr None) in
  let run :=
    submitTransaction Scenario.constants w false None (Some "mychannel")
      (Some "asset-chaincode") (Scenario.connected connection) in
  let request :=
    IFabricClientConnection.Build_Request (Some "asset-chaincode") "transfer"
      (Some "mychannel") [] "Asset" None false [] in
  ESubmitTransaction request ∈ trace run
  ∧ ∀ prompt, EShowClientInstantiatedSmartContractsQuickPick prompt ∉ trace run.
Proof.
  intros w connection run request.
  assert (ESubmitTransaction request ∈ trace run) as Hreq by in_trace.
  split; [exact Hreq|].
  exact (proj2 (proj2 (proj2
           (X15_picked_target Scenario.constants w false (Some "mychannel")
              (Some "asset-chaincode") (Scenario.connected connection) request
              Hreq)))).
Defined.

(** X16.  Dismissing the quick pick of the smart contract or the one of the
    transaction ends the command there: it returns, the quick pick is the
    last event of the run, and no input box has been shown. *)
Theorem X16_dismissed_quick_pick `{rt : JsRuntime} (cst : Constants) (w : World)
    (evaluate : bool) (treeItem : option TreeItem)
    (channelName smartContract : option string) (mgr : FabricConnectionManager)
    (e : Event) :
  let run := submitTransaction cst w evaluate treeItem channelName smartContract mgr in
  e ∈ trace run →
  match e with
  | EShowClientInstantiatedSmartContractsQuickPick prompt =>
      showClientInstantiatedSmartContractsQuickPick w prompt = None
  | EShowTransactionQuickPick prompt contract channel =>
      showTransactionQuickPick w prompt contract channel = None
  | _ => False
  end →
  outcome run = Return
  ∧ last (trace run) = Some e
  ∧ (∀ prompt value, EShowInputBox prompt value ∉ trace run).
Proof.
  intros run. subst run. get_steps Hrun. intros Hin Hnone.
  destruct (run_anatomy _ _ _ _ _ _ _ _ _ _ Hrun)
    as (t1 & r1 & rest & H1 & -> & Hrest & Hstop).
  pose proof (resolveTarget_events cst w (action_of evaluate) treeItem
                channelName smartContract mgr) as E1.
  rewrite H1 in E1. cbn [trace fst] in E1. rewrite Forall_forall in E1, Hrest.
  destruct (resolveTarget_dismissed _ _ _ _ _ _ _ _ _ _ H1) as [Hcontract Htx].
  assert (e ∈ t1) as Hin1.
  { apply elem_of_cons in Hin as [->|Hin]; [done|].
    apply elem_of_app in Hin as [Hin|Hin]; [done|].
    apply Hrest in Hin. by destruct e. }
  assert (r1 = Return ∧ last t1 = Some e) as [-> Hlast].
  { destruct e; try done; auto. }
  destruct Hstop as [-> Hstop]; [done|]. inversion Hstop; subst.
  rewrite app_nil_r. split_and!; [done| |].
  - by rewrite last_cons, Hlast.
  - intros prompt value Hbox.
    apply elem_of_cons in Hbox as [Hbox|Hbox]; [by inversion Hbox|].
    by apply E1 in Hbox.
Qed.

Lemma X16_dismissed_quick_pick_witness :
  let w := Scenario.user (Some "[]") (Some "{}") None None in
  let connection := Scenario.connection [Scenario.peer0] (inr None) in
  let run :=
    submitTransaction Scenario.constants w false None None None
      (Scenario.connected connection) in
  outcome run = Return
  ∧ ∀ prompt value, EShowInputBox prompt value ∉ trace run.
Proof.
  intros w connection run.
  destruct (X16_dismissed_quick_pick Scenario.constants w false None None None
              (Scenario.connected connection)
              (EShowClientInstantiatedSmartContractsQuickPick
                 "Choose a smart contract to submit a transaction from"))
    as (Hreturn & _ & Hboxes).
  - in_trace.
  - reflexivity.
  - split; [exact Hreturn|exact Hboxes].
Defined.

(** ** Error logs *)

Section Errors.

Context `{rt : JsRuntime} (cst : Constants) (w : World).

Implicit Types (mgr : FabricConnectionManager) (t : list Event).

(** A step that logs an error returns, and logs it under its own words. *)
Lemma arguments_step_error t r popup output :
  arguments_step w t r → ELog ERROR popup output ∈ t →
  r = Return ∧ output = None
  ∧ ∃ msg, popup = Some ("Error with transaction arguments: " +:+ msg).
Proof. destruct 1; intros He; split_elem; simplify_eq; eauto. Qed.

Lemma transientData_step_error t r popup output :
  transientData_step w t r → ELog ERROR popup output ∈ t →
  r = Return ∧ output = None
  ∧ ∃ msg, popup = Some ("Error with transaction transient data: " +:+ msg).
Proof. destruct 1; intros He; split_elem; simplify_eq; eauto. Qed.

Lemma peerTargets_step_error channelName mgr t r popup output :
  peerTargets_step cst w channelName mgr t r → ELog ERROR popup output ∈ t →
  r = Return ∧ output = None
  ∧ popup = Some "No channel peers available to target".
Proof.
  intros Hstep He.
  destruct (peerTargets_step_elem _ _ _ _ _ _ _ Hstep He) as [?|[[= <- <-]|?]];
    [done| |done].
  split; [|done].
  destruct Hstep as [| | |? ? ? ? ? ? ? Hp|? ? ? ? ? ? ? Hp|? ? ? ? ? ? Hp
                    |? ? ? ? ? ? ? Hp]; [by split_elem..|done| | | |];
    apply elem_of_cons in He as [He|He]; try done;
    try (apply elem_of_app in He as [He|He]; [|by split_elem]);
    by apply (policy_elem _ _ _ _ _ _ Hp) in He as [? _].
Qed.

Lemma resolveTarget_error action treeItem channelName smartContract mgr t mgr' r
    ty popup output :
  resolveTarget cst w action treeItem channelName smartContract mgr = (t, mgr', r) →
  ELog ty popup output ∉ t.
Proof.
  intros Heq Hin.
  pose proof (resolveTarget_events cst w action treeItem channelName smartContract mgr)
    as Hevents.
  rewrite Heq in Hevents. cbn [trace fst] in Hevents.
  rewrite Forall_forall in Hevents. by apply Hevents in Hin.
Qed.

(** Where an error log of a run comes from: one of the three steps that
    can log one, the run having returned there, or the report of the failure
    of the SDK call. *)
Lemma error_log_source evaluate treeItem channelName smartContract mgr t mgr' r
    popup output :
  run_steps cst w evaluate treeItem channelName smartContract mgr t mgr' r →
  ELog ERROR popup output ∈ t →
  (r = Return
   ∧ ((∃ t2 r2, arguments_step w t2 r2 ∧ ELog ERROR popup output ∈ t2)
      ∨ (∃ t3 r3, transientData_step w t3 r3 ∧ ELog ERROR popup output ∈ t3)
      ∨ (∃ channel t4 r4,
           peerTargets_step cst w channel mgr' t4 r4
           ∧ ELog ERROR popup output ∈ t4)))
  ∨ (r = Normal tt
     ∧ ∃ request connection error,
         ESubmitTransaction request ∈ t
         ∧ getConnection mgr' = Some connection
         ∧ IFabricClientConnection.submitTransaction connection request = inl error
         ∧ ELog ERROR popup output ∈ failure_report (actioning_of evaluate) error).
Proof.
  intros Hrun Hlog.
  assert (ELog ERROR popup output ≠ first_log evaluate) as Hfirst by done.
  destruct Hrun as [? ? ? ? H1 Hstop|? ? ? ? ? ? H1 H2 Hstop
                   |? ? ? ? ? ? ? ? H1 H2 H3 Hstop
                   |? ? ? ? ? ? ? ? ? ? H1 H2 H3 H4 Hstop
                   |? ? ? ? ? ? ? ? ? ? ? ? H1 H2 H3 H4 H5];
    pose proof (resolveTarget_error _ _ _ _ _ _ _ _ ERROR popup output H1) as E1;
    try (apply promptArguments_inv in H2 as [_ H2];
         pose proof (arguments_step_error _ _ popup output H2) as E2);
    try (apply promptTransientData_inv in H3 as [_ H3];
         pose proof (transientData_step_error _ _ popup output H3) as E3);
    try (apply resolvePeerTargets_inv in H4 as [_ H4];
         pose proof (peerTargets_step_error _ _ _ _ popup output H4) as E4);
    apply elem_of_cons in Hlog as [Hlog|Hlog]; try done;
    rewrite ?elem_of_app in Hlog.
  - destruct Hlog as [?|Hlog]; [done|].
    destruct (E2 Hlog) as (-> & _). inversion Hstop; subst. left. eauto 10.
  - destruct Hlog as [?|[Hlog|Hlog]]; [done|by destruct (E2 Hlog)|].
    destruct (E3 Hlog) as (-> & _). inversion Hstop; subst. left. eauto 10.
  - destruct Hlog as [?|[Hlog|[Hlog|Hlog]]];
      [done|by destruct (E2 Hlog)|by destruct (E3 Hlog)|].
    destruct (E4 Hlog) as (-> & _). inversion Hstop; subst. left. eauto 10.
  - destruct Hlog as [?|[Hlog|[Hlog|[Hlog|Hlog]]]];
      [done|by destruct (E2 Hlog)|by destruct (E3 Hlog)|by destruct (E4 Hlog)|].
    rewrite invoke_trace in H5.
    match type of H5 with
    | (?l, _, _) = _ => assert (l = t5) as <- by congruence
    end.
    apply peerTargets_step_Normal in H4 as (prompts & -> & _ & Hconn).
    apply elem_of_app in Hlog as [Hlog|Hlog].
    { by apply announcement_elem in Hlog as [[? ?]|[[? ?]|[? _]]]. }
    apply elem_of_cons in Hlog as [?|Hlog]; [done|].
    unfold report in Hlog.
    destruct (IFabricClientConnection.submitTransaction connection
                (request_of evaluate target args transientData names))
      as [error|result] eqn:Hsdk.
    2:{ unfold success_report in Hlog. by split_elem. }
    right. split; [done|].
    eexists _, connection, error. split_and!; [|done..].
    rewrite !elem_of_cons, !elem_of_app, !elem_of_cons. eauto 15.
Qed.

End Errors.



(** * Further properties of the template *)

Section TemplateRendering.

Import Template.

Implicit Types (parameter : Param) (ps : list Param) (s : string).

Lemma append_assoc s1 s2 s3 : (s1 +:+ s2) +:+ s3 = s1 +:+ s2 +:+ s3.
Proof.
  induction s1 as [|c s1 IH]; [done|].
  change (String c ((s1 +:+ s2) +:+ s3) = String c (s1 +:+ s2 +:+ s3)).
  by rewrite IH.
Qed.

Lemma append_nil_r s : s +:+ EmptyString = s.
Proof.
  induction s as [|c s IH]; [done|].
  change (String c (s +:+ EmptyString) = String c s). by rewrite IH.
Qed.

(** Escaping goes through concatenation, and through the join of the
    entries of [params]. *)
Lemma escapeXML_app s1 s2 : escapeXML (s1 +:+ s2) = escapeXML s1 +:+ escapeXML s2.
Proof.
  induction s1 as [|c s1 IH]; [done|].
  change (escapeXML (String c s1 +:+ s2))
    with (escape_char c +:+ escapeXML (s1 +:+ s2)).
  change (escapeXML (String c s1)) with (escape_char c +:+ escapeXML s1).
  by rewrite IH, append_assoc.
Qed.

Lemma escapeXML_concat (entries : list string) :
  escapeXML (String.concat "," entries)
  = String.concat "," (map escapeXML entries).
Proof.
  induction entries as [|entry [|entry' entries] IH]; [done..|].
  change (String.concat "," (entry :: entry' :: entries))
    with (entry +:+ "," +:+ String.concat "," (entry' :: entries)).
  rewrite !escapeXML_app, IH. done.
Qed.

(** The types the chain of line 80 knows. *)
Definition known_types : list string := ["string"; "number"; "boolean"; "array"].

(** One round of the loop renders nothing, for a declared type the chain
    does not know, or one declaration and one entry of [params] that uses
    the declared identifier. *)
Lemma stub_cases parameter :
  (stub parameter = ([], [])
   ∧ ∃ ty, declares parameter ty ∧ ty ≠ EmptyString ∧ ty ∉ known_types)
  ∨ (∃ pre post value,
       stub parameter
       = ([pre +:+ stub_name parameter +:+ post], [const_line parameter value])
       ∧ (pre, post) ∈ [(" ", EmptyString); (" ", ".toString()");
                        (" JSON.stringify(", ")")]
       ∧ ∀ ty, declares parameter ty → ty = EmptyString ∨ ty ∈ known_types).
Proof.
  unfold stub, declares, known_types, const_line, stub_name.
  destruct (schema parameter) as [[[ty|]]|]; cbn.
  - destruct (String.eqb_spec ty EmptyString) as [->|Hne]; cbn.
    { right. exists " JSON.stringify(", ")", "{}". split_and!; [done| |].
      - do 2 apply list_elem_of_further. apply list_elem_of_here.
      - intros ty (s & [= <-] & [= <-]). by left. }
    repeat match goal with
           | |- context [String.eqb ty ?c] => destruct (String.eqb_spec ty c) as [->|?]
           end.
    + right. exists " ", EmptyString, "'EXAMPLE'".
      split_and!; [by rewrite append_nil_r| |].
      * apply list_elem_of_here.
      * intros ty (s & [= <-] & [= <-]). right. apply list_elem_of_here.
    + right. exists " ", ".toString()", "0". split_and!; [done| |].
      * apply list_elem_of_further, list_elem_of_here.
      * intros ty (s & [= <-] & [= <-]). right.
        apply list_elem_of_further, list_elem_of_here.
    + right. exists " ", ".toString()", "true". split_and!; [done| |].
      * apply list_elem_of_further, list_elem_of_here.
      * intros ty (s & [= <-] & [= <-]). right.
        do 2 apply list_elem_of_further. apply list_elem_of_here.
    + right. exists " JSON.stringify(", ")", "[]". split_and!; [done| |].
      * do 2 apply list_elem_of_further. apply list_elem_of_here.
      * intros ty (s & [= <-] & [= <-]). right.
        do 3 apply list_elem_of_further. apply list_elem_of_here.
    + left. split; [done|]. exists ty. split_and!; [by eexists|done|].
      intros Hin. by repeat (apply elem_of_cons in Hin as [->|Hin]; [done|]);
        apply elem_of_nil in Hin.
  - right. exists " JSON.stringify(", ")", "{}". split_and!; [done| |].
    + do 2 apply list_elem_of_further. apply list_elem_of_here.
    + by intros ty (s & [= <-] & [=]).
  - right. exists " JSON.stringify(", ")", "{}". split_and!; [done| |].
    + do 2 apply list_elem_of_further. apply list_elem_of_here.
    + by intros ty (s & [=] & _).
Qed.

Lemma params_of_cons parameter ps :
  params_of (parameter :: ps) = (stub parameter).1 ++ params_of ps.
Proof. done. Qed.

Lemma consts_of_cons parameter ps :
  consts_of (parameter :: ps) = (stub parameter).2 ++ consts_of ps.
Proof. done. Qed.

(** What the loop renders: the declarations, and the entries of [params]
    once escaped, are built from one list of identifiers, each with the
    text around its use and the value it is declared with. *)
Lemma loop_rendering ps :
  ∃ uses : list (string * (string * string) * string),
    consts_of ps
    = map (λ u, indent +:+ "const " +:+ u.1.1 +:+ " = " +:+ u.2 +:+ ";") uses
    ∧ map escapeXML (params_of ps)
      = map (λ u, u.1.2.1 +:+ u.1.1 +:+ u.1.2.2) uses
    ∧ map (λ u, u.1.1) uses
      `sublist_of` map (λ parameter, escapeXML (stub_name parameter)) ps
    ∧ Forall (λ u, u.1.2 ∈ [(" ", EmptyString); (" ", ".toString()");
                            (" JSON.stringify(", ")")]) uses.
Proof.
  induction ps as [|parameter ps (uses & Hconsts & Hparams & Hsub & Hall)].
  { exists []. split_and!; [done|done|constructor|constructor]. }
  rewrite params_of_cons, consts_of_cons.
  destruct (stub_cases parameter)
    as [[-> _]|(pre & post & value & -> & Hin & _)]; cbn [fst snd app map].
  { exists uses. split_and!; [done|done|by apply sublist_cons|done]. }
  exists ((escapeXML (stub_name parameter), (pre, post), value) :: uses).
  cbn [map fst snd]. split_and!.
  - by rewrite Hconsts.
  - rewrite Hparams. f_equal. rewrite !escapeXML_app.
    repeat (apply elem_of_cons in Hin as [[= -> ->]|Hin]; [done|]).
    by apply elem_of_nil in Hin.
  - by apply sublist_skip.
  - by constructor.
Qed.

End TemplateRendering.

(** X18.  The loop over the parameters pushes one entry on [params] for
    each declaration it renders, and at most one of each for a parameter;
    every parameter gets its declaration exactly when none declares a type
    other than the four the template knows. *)
Theorem X18_one_entry_per_declaration (ps : list Template.Param) :
  length (Template.params_of ps) = length (Template.consts_of ps)
  ∧ (length (Template.consts_of ps) ≤ length ps)%nat
  ∧ (length (Template.consts_of ps) = length ps
     ↔ ∀ parameter ty,
         parameter ∈ ps → declares parameter ty →
         ty = EmptyString ∨ ty ∈ ["string"; "number"; "boolean"; "array"]).
Proof.
  induction ps as [|parameter ps (Hsame & Hle & Hall)].
  { split_and!; [done|done|]. split; [|done]. by intros _ ? ? ?%elem_of_nil. }
  rewrite params_of_cons, consts_of_cons, !length_app, Hsame.
  destruct (stub_cases parameter)
    as [(-> & ty & Hty & Hne & Hnot)|(pre & post & value & -> & _ & Hknown)];
    cbn [fst snd length].
  - split_and!; [done|lia|]. split; [lia|].
    intros Hps. destruct (Hps parameter ty) as [?|?]; [apply list_elem_of_here|..];
      done.
  - split_and!; [done|lia|]. split.
    + intros Hlen parameter' ty [->|Hin]%elem_of_cons; [apply Hknown|].
      apply Hall; [lia|done].
    + intros Hps. f_equal. apply Hall. intros parameter' ty Hin.
      apply Hps. by apply list_elem_of_further.
Qed.

(** X19.  In the block rendered for a transaction with parameters, every
    identifier used in the list [args] is declared by a line above it, under
    the same text, in the same order: the block is the comment, one
    declaration per identifier, and the line of [args] whose entries wrap
    the identifiers in nothing, in [.toString()] or in [JSON.stringify].
    The identifiers are, in order, names among the escaped names of the
    parameters, less their first double quote. *)
Theorem X19_declared_then_used (transaction : Template.Transaction)
    (parameter : Template.Param) (ps : list Template.Param) :
  Template.parameters transaction = Some (parameter :: ps) →
  ∃ uses : list (string * (string * string) * string),
    Template.parameterBlock transaction
    = ["            // TODO: populate transaction parameters"]
      ++ map (λ u, "            const " +:+ u.1.1 +:+ " = " +:+ u.2 +:+ ";") uses
      ++ ["            const args = ["
          +:+ String.concat "," (map (λ u, u.1.2.1 +:+ u.1.1 +:+ u.1.2.2) uses)
          +:+ "];"]
    ∧ map (λ u, u.1.1) uses
      `sublist_of` map (λ p, Template.escapeXML
                               (Template.replace (Template.name p) dquote_char))
                     (parameter :: ps)
    ∧ Forall (λ u, u.1.2 ∈ [(" ", EmptyString); (" ", ".toString()");
                            (" JSON.stringify(", ")")]) uses.
Proof.
  intros Hps. unfold Template.parameterBlock. rewrite Hps.
  destruct (loop_rendering (parameter :: ps))
    as (uses & Hconsts & Hparams & Hsub & Hall).
  exists uses. split_and!; [|done..].
  by rewrite Hconsts, escapeXML_concat, Hparams.
Qed.

Lemma X19_declared_then_used_witness :
  let transaction :=
    {| Template.transaction_name := "transfer";
       Template.parameters :=
         Some [{| Template.name := "owner";
                  Template.schema := Some {| Template.type := Some "string" |} |};
               {| Template.name := "payload";
                  Template.schema := Some {| Template.type := Some "object" |} |};
               {| Template.name := "amount";
                  Template.schema := Some {| Template.type := Some "number" |} |}] |} in
  ∃ uses : list (string * (string * string) * string),
    Template.parameterBlock transaction
    = ["            // TODO: populate transaction parameters"]
      ++ map (λ u, "            const " +:+ u.1.1 +:+ " = " +:+ u.2 +:+ ";") uses
      ++ ["            const args = ["
          +:+ String.concat "," (map (λ u, u.1.2.1 +:+ u.1.1 +:+ u.1.2.2) uses)
          +:+ "];"].
Proof.
  intros transaction.
  destruct (X19_declared_then_used transaction _ _ eq_refl) as (uses & Hblock & _).
  by exists uses.
Defined.

(** * The empty answer to the argument prompt *)

(** X20.  Answering the argument prompt with the empty string is not a
    dismissal: the command goes on to the transient-data prompt, logs no
    error about the arguments, and a request that reaches the SDK carries
    the empty list of arguments. *)
Theorem X20_empty_arguments `{rt : JsRuntime} (cst : Constants) (w : World)
    (evaluate : bool) (treeItem : option TreeItem)
    (channelName smartContract : option string) (mgr : FabricConnectionManager) :
  let run := submitTransaction cst w evaluate treeItem channelName smartContract mgr in
  EShowInputBox argsPrompt "[]" ∈ trace run →
  showInputBox w argsPrompt "[]" = Some EmptyString →
  EShowInputBox transientDataPrompt "{}" ∈ trace run
  ∧ (∀ msg, ELog ERROR (Some ("Error with transaction arguments: " +:+ msg)) None
            ∉ trace run)
  ∧ (∀ request, ESubmitTransaction request ∈ trace run →
       IFabricClientConnection.args request = []).
Proof.
  intros run. subst run.
  destruct (submitTransaction cst w evaluate treeItem channelName smartContract mgr)
    as [[t mgr'] r] eqn:Hrun.
  pose proof (submitTransaction_run _ _ _ _ _ _ _ _ _ _ Hrun) as Hcr.
  apply submitTransaction_steps in Hrun.
  cbn [trace fst snd]. intros Hbox Hs.
  assert (∀ t2 r2, arguments_step w t2 r2 →
            t2 = [EShowInputBox argsPrompt "[]"] ∧ r2 = Normal []) as Hempty.
  { intros t2 r2 Hstep. inversion Hstep; subst; rewrite Hs in *; by simplify_eq. }
  split_and!.
  - assert (∀ t3 r3, transientData_step w t3 r3 →
              EShowInputBox transientDataPrompt "{}" ∈ t3) as Hshown.
    { intros t3 r3 []; apply list_elem_of_here. }
    destruct Hrun as [? ? ? ? H1 Hstop|? ? ? ? ? ? H1 H2 Hstop
                     |? ? ? ? ? ? ? ? H1 H2 H3 Hstop
                     |? ? ? ? ? ? ? ? ? ? H1 H2 H3 H4 Hstop
                     |? ? ? ? ? ? ? ? ? ? ? ? H1 H2 H3 H4 H5];
      try (apply promptArguments_inv in H2 as [_ H2]);
      try (apply promptTransientData_inv in H3 as [_ H3%Hshown]).
    + pose proof (resolveTarget_events cst w (action_of evaluate) treeItem
                    channelName smartContract mgr) as E1.
      rewrite H1 in E1. cbn [trace fst] in E1. rewrite Forall_forall in E1.
      apply elem_of_cons in Hbox as [Hbox|Hbox]; [by inversion Hbox|].
      by apply E1 in Hbox.
    + destruct (Hempty _ _ H2) as [_ ->]. inversion Hstop.
    + rewrite elem_of_cons, !elem_of_app. eauto.
    + rewrite elem_of_cons, !elem_of_app. eauto.
    + rewrite elem_of_cons, !elem_of_app. eauto.
  - intros msg Hlog.
    destruct (error_log_source _ _ _ _ _ _ _ _ _ _ _ _ Hrun Hlog)
      as [[_ [(t2 & r2 & Hstep & Hin)|[(t3 & r3 & Hstep & Hin)
                                      |(channel & t4 & r4 & Hstep & Hin)]]]
         |(_ & request & connection & error & _ & _ & _ & Hin)].
    + destruct (Hempty _ _ Hstep) as [-> _]. by split_elem.
    + by destruct (transientData_step_error _ _ _ _ _ Hstep Hin) as (_ & _ & ? & ?).
    + by destruct (peerTargets_step_error _ _ _ _ _ _ _ _ Hstep Hin) as (_ & _ & ?).
    + unfold failure_report in Hin.
      apply elem_of_cons in Hin as [Hin|Hin]; [by destruct evaluate|].
      by apply list_elem_of_fmap in Hin as (? & ? & _).
  - intros request Hreq.
    destruct (call_inv _ _ _ _ _ _ _ _ _ _ _ Hcr Hreq)
      as (t1 & target & t2 & args & t3 & td & t4 & conn & names & text & announce
          & _ & H2 & _ & _ & _ & -> & _ & _).
    by destruct (Hempty _ _ H2) as [_ [= ->]].
Qed.

Lemma X20_empty_arguments_witness :
  let w := Scenario.user (Some EmptyString) (Some "{}") None None in
  let connection := Scenario.connection [Scenario.peer0] (inr None) in
  let run :=
    submitTransaction Scenario.constants w false (Some Scenario.transactionItem)
      None None (Scenario.connected connection) in
  EShowInputBox transientDataPrompt "{}" ∈ trace run
  ∧ (∀ request, ESubmitTransaction request ∈ trace run →
       IFabricClientConnection.args request = []).
Proof.
  intros w connection run.
  destruct (X20_empty_arguments Scenario.constants w false
              (Some Scenario.transactionItem) None None
              (Scenario.connected connection)) as (Hshown & _ & Hargs).
  - in_trace.
  - reflexivity.
  - split; [exact Hshown|exact Hargs].
Defined.
